(** * n8n-nodes-supabase: the database dispatcher, its validators and the
    batch loop of the node, embedded from the TypeScript sources.

  Source files:
  - [nodes/Supabase/utils/supabaseClient.ts]   validators, error formatting
  - [nodes/Supabase/operations/database/index.ts]   the twelve handlers
  - [nodes/Supabase/Supabase.node.ts]   [execute], the per-item loop
  - [nodes/Supabase/operations/storage/index.ts]   the storage handlers

  Conventions of the embedding.
  - A JavaScript string is a [string]; every [ascii] stands for one UTF-16
    code unit below 256, so [String.length] is the [.length] of the source.
  - A JavaScript number is a [Z]; fractions, NaN and the infinities are
    outside the model.
  - [JSON.parse], [JSON.stringify], the [URL] constructor and the backend
    behind the Supabase client are not code of this repository: the
    handlers take them as parameters. *)

From Stdlib Require Import String Ascii List ZArith Bool Arith Lia.
From Stdlib Require Import DecimalString.
From Stdlib Require DecimalPos DecimalFacts.
Import ListNotations.
Local Open Scope string_scope.

Set Implicit Arguments.

(* ------------------------------------------------------------------ *)
(** ** String built-ins used by the sources *)

Module JsString.

Definition code (c : ascii) : nat := nat_of_ascii c.

Definition between (lo hi : nat) (c : ascii) : bool :=
  (lo <=? code c)%nat && (code c <=? hi)%nat.

(** [WhiteSpace] and [LineTerminator] code units below 256, the ones
    [String.prototype.trim] strips. *)
Definition isWhiteSpace (c : ascii) : bool :=
  between 9 13 c || (code c =? 32)%nat || (code c =? 160)%nat.

Fixpoint trimStart (s : string) : string :=
  match s with
  | String c rest => if isWhiteSpace c then trimStart rest else s
  | EmptyString => EmptyString
  end.

Fixpoint rev_onto (s acc : string) : string :=
  match s with
  | String c rest => rev_onto rest (String c acc)
  | EmptyString => acc
  end.

Definition reverse (s : string) : string := rev_onto s EmptyString.

Definition trimEnd (s : string) : string := reverse (trimStart (reverse s)).

Definition trim (s : string) : string := trimEnd (trimStart s).

(** [toLowerCase] on one code unit: A-Z, and the Latin-1 capitals
    U+00C0..U+00DE without the multiplication sign U+00D7. *)
Definition lowerChar (c : ascii) : ascii :=
  if between 65 90 c then ascii_of_nat (code c + 32)
  else if between 192 222 c && negb (code c =? 215)%nat
       then ascii_of_nat (code c + 32)
       else c.

Fixpoint toLowerCase (s : string) : string :=
  match s with
  | String c rest => String (lowerChar c) (toLowerCase rest)
  | EmptyString => EmptyString
  end.

Definition startsWith (s prefix : string) : bool := String.prefix prefix s.

Fixpoint includes (s needle : string) : bool :=
  String.prefix needle s ||
  match s with
  | String _ rest => includes rest needle
  | EmptyString => false
  end.

Fixpoint join (sep : string) (parts : list string) : string :=
  match parts with
  | [] => ""
  | [p] => p
  | p :: rest => p ++ sep ++ join sep rest
  end.

Definition isEmpty (s : string) : bool :=
  match s with EmptyString => true | _ => false end.

Definition ofZ (n : Z) : string := NilZero.string_of_int (Z.to_int n).

End JsString.

(* ------------------------------------------------------------------ *)
(** ** Regular expression literals and [RegExp.prototype.test] *)

Module RegExp.

Inductive class_item : Type :=
| CRange (lo hi : ascii)
| CChar (c : ascii).

Inductive regex : Type :=
| Never
| Empty
| Class (items : list class_item)
| Seq (r1 r2 : regex)
| Alt (r1 r2 : regex)
| Star (r : regex).

Definition in_item (c : ascii) (i : class_item) : bool :=
  match i with
  | CRange lo hi => JsString.between (nat_of_ascii lo) (nat_of_ascii hi) c
  | CChar d => Ascii.eqb c d
  end.

Definition in_class (items : list class_item) (c : ascii) : bool :=
  existsb (in_item c) items.

Fixpoint nullable (r : regex) : bool :=
  match r with
  | Never => false
  | Empty => true
  | Class _ => false
  | Seq r1 r2 => nullable r1 && nullable r2
  | Alt r1 r2 => nullable r1 || nullable r2
  | Star _ => true
  end.

Fixpoint deriv (c : ascii) (r : regex) : regex :=
  match r with
  | Never => Never
  | Empty => Never
  | Class items => if in_class items c then Empty else Never
  | Seq r1 r2 =>
      if nullable r1
      then Alt (Seq (deriv c r1) r2) (deriv c r2)
      else Seq (deriv c r1) r2
  | Alt r1 r2 => Alt (deriv c r1) (deriv c r2)
  | Star r1 => Seq (deriv c r1) (Star r1)
  end.

(** [/^r$/.test(s)]: the whole of [s] has to match (no [m] flag, so [$]
    is the end of the input). *)
Fixpoint test (r : regex) (s : string) : bool :=
  match s with
  | EmptyString => nullable r
  | String c rest => test (deriv c r) rest
  end.

(** The language of a regular expression. *)
Inductive matches : regex -> string -> Prop :=
| MEmpty : matches Empty ""
| MClass items c : in_class items c = true -> matches (Class items) (String c "")
| MSeq r1 r2 s1 s2 : matches r1 s1 -> matches r2 s2 -> matches (Seq r1 r2) (s1 ++ s2)
| MAltL r1 r2 s : matches r1 s -> matches (Alt r1 r2) s
| MAltR r1 r2 s : matches r2 s -> matches (Alt r1 r2) s
| MStarNil r : matches (Star r) ""
| MStarApp r s1 s2 : matches r s1 -> matches (Star r) s2 -> matches (Star r) (s1 ++ s2).

(** Every code unit of [s] is in the class. *)
Fixpoint all_in (items : list class_item) (s : string) : bool :=
  match s with
  | EmptyString => true
  | String c rest => in_class items c && all_in items rest
  end.

(** [[a-zA-Z]] and [[a-zA-Z0-9_]] *)
Definition letter : list class_item :=
  [CRange "a" "z"; CRange "A" "Z"].
Definition word : list class_item :=
  [CRange "a" "z"; CRange "A" "Z"; CRange "0" "9"; CChar "_"].

(** [/^[a-zA-Z][a-zA-Z0-9_]*$/] *)
Definition identifier : regex := Seq (Class letter) (Star (Class word)).

End RegExp.

(* ------------------------------------------------------------------ *)
(** ** JavaScript values *)

(** Untyped data of the sources ([any], [IDataObject], backend rows and
    error objects).  The own properties of an object are kept in creation
    order. *)
#[warnings="-register-all"]
Inductive value : Type :=
| JUndefined
| JNull
| JBool (b : bool)
| JNum (n : Z)
| JStr (s : string)
| JArr (items : list value)
| JObj (props : list (string * value)).

(** [ToBoolean]: what [if (v)], [!v] and [v || w] look at. *)
Definition truthy (v : value) : bool :=
  match v with
  | JUndefined | JNull => false
  | JBool b => b
  | JNum n => negb (n =? 0)%Z
  | JStr s => negb (JsString.isEmpty s)
  | JArr _ | JObj _ => true
  end.

(** [a || b] *)
Definition js_or (a b : value) : value := if truthy a then a else b.

Fixpoint lookup (k : string) (props : list (string * value)) : value :=
  match props with
  | [] => JUndefined
  | (k', v) :: rest => if String.eqb k k' then v else lookup k rest
  end.

(** [o[k] = v] on a plain object.  The key [__proto__] is the accessor of
    [Object.prototype]: assigning to it never creates an own property. *)
Fixpoint set_own (k : string) (v : value) (props : list (string * value))
  : list (string * value) :=
  match props with
  | [] => [(k, v)]
  | (k', v') :: rest =>
      if String.eqb k k' then (k', v) :: rest else (k', v') :: set_own k v rest
  end.

Definition assign (props : list (string * value)) (k : string) (v : value)
  : list (string * value) :=
  if String.eqb k "__proto__" then props else set_own k v props.

(** [v.k] for a [v] that is neither [null] nor [undefined]; the values of
    the model carry no other property than the own ones of objects. *)
Definition getProp (v : value) (k : string) : value :=
  match v with
  | JObj props => lookup k props
  | _ => JUndefined
  end.

(** [data?.length] *)
Definition optLength (v : value) : value :=
  match v with
  | JArr items => JNum (Z.of_nat (List.length items))
  | JStr s => JNum (Z.of_nat (String.length s))
  | JObj props => lookup "length" props
  | _ => JUndefined
  end.

(** [ToString], applied by [new Error(x)] and by template literals. *)
Fixpoint ToString (v : value) : string :=
  match v with
  | JUndefined => "undefined"
  | JNull => "null"
  | JBool true => "true"
  | JBool false => "false"
  | JNum n => JsString.ofZ n
  | JStr s => s
  | JArr items =>
      JsString.join ","
        (List.map (fun x => match x with
                            | JUndefined | JNull => ""
                            | _ => ToString x
                            end) items)
  | JObj _ => "[object Object]"
  end.

Fixpoint indexed (i : nat) (items : list value) : list (string * value) :=
  match items with
  | [] => []
  | x :: rest => (JsString.ofZ (Z.of_nat i), x) :: indexed (S i) rest
  end.

Fixpoint chars (s : string) : list value :=
  match s with
  | EmptyString => []
  | String c rest => JStr (String c "") :: chars rest
  end.

(** [Object.entries(v)]; [None] is the [TypeError] on [null] and
    [undefined]. *)
Definition Object_entries (v : value) : option (list (string * value)) :=
  match v with
  | JUndefined | JNull => None
  | JObj props => Some props
  | JArr items => Some (indexed 0 items)
  | JStr s => Some (indexed 0 (chars s))
  | JBool _ | JNum _ => Some []
  end.

(** [typeof v === 'object' && v !== null] *)
Definition isObjectLike (v : value) : bool :=
  match v with
  | JArr _ | JObj _ => true
  | _ => false
  end.

(* ------------------------------------------------------------------ *)
(** ** Exceptions and the handler monad *)

(** What a [throw] carries.  The sources throw [Error] and
    [NodeOperationError] (a subclass of [Error]); [Thrown] is any value that
    is not an instance of [Error]. *)
Inductive thrown : Type :=
| Error (message : string)
| NodeOperationError (message : string) (itemIndex : option nat)
| Thrown (v : value).

(** [new Error(x)]: the message is [ToString x], and empty without [x]. *)
Definition newError (x : value) : thrown :=
  match x with
  | JUndefined => Error ""
  | _ => Error (ToString x)
  end.

(** [error instanceof Error ? error.message : fallback] *)
Definition messageOr (fallback : string) (e : thrown) : string :=
  match e with
  | Error m => m
  | NodeOperationError m _ => m
  | Thrown _ => fallback
  end.

Inductive outcome (A : Type) : Type :=
| Return (a : A)
| Throw (e : thrown).
Arguments Return {A} a.
Arguments Throw {A} e.

(** A query the client sends to the backend. *)
Inductive builder_call : Type :=
| CallFilter (column operator : string) (v : value)
| CallEq (column : string) (v : value)
| CallOrder (column : string) (ascending : bool)
| CallLimit (n : Z)
| CallRange (from to : Z)
| CallSelect.

Inductive verb : Type :=
| Insert (row : value)
| Select (columns : string)
| Update (row : value)
| Delete
| Upsert (row options : value).

Inductive request : Type :=
| From (table : string) (v : verb) (chain : list builder_call)
| Rpc (fn : string) (sql : string).

(** [{ data, error, count }] *)
Record response : Type := mkResponse {
  data : value;
  error : value;
  count : value
}.

(** The backend behind a [SupabaseClient]: its answer to a request may
    depend on every request sent before. *)
Definition SupabaseClient : Type := list request -> request -> response.

(** Handler computations: the log of the requests sent so far is threaded
    through, and a computation returns or throws. *)
Definition M (A : Type) : Type := list request -> list request * outcome A.

Definition ret {A} (a : A) : M A := fun log => (log, Return a).
Definition throw {A} (e : thrown) : M A := fun log => (log, Throw e).
Definition bind {A B} (m : M A) (f : A -> M B) : M B :=
  fun log =>
    match m log with
    | (log', Return a) => f a log'
    | (log', Throw e) => (log', Throw e)
    end.
Definition try_catch {A} (m : M A) (handler : thrown -> M A) : M A :=
  fun log =>
    match m log with
    | (log', Return a) => (log', Return a)
    | (log', Throw e) => handler e log'
    end.
(** [await query] *)
Definition await (supabase : SupabaseClient) (q : request) : M response :=
  fun log => ((log ++ [q])%list, Return (supabase log q)).

Declare Scope js_scope.
Delimit Scope js_scope with js.
Notation "x <- m ;; k" := (bind m (fun x => k))
  (at level 61, m at next level, right associativity) : js_scope.
Notation "m ;;; k" := (bind m (fun _ => k))
  (at level 61, right associativity) : js_scope.
Local Open Scope js_scope.

(** The built-ins of the platform that the sources call. *)
Class Platform : Type := {
  (** [JSON.parse]; [None] is its [SyntaxError] *)
  JSON_parse : string -> option value;
  (** [JSON.stringify]; [None] is the result [undefined] *)
  JSON_stringify : value -> option string;
  (** [new URL(s)] does not throw *)
  URL_parses : string -> bool
}.

Definition lift {A} (o : outcome A) : M A := fun log => (log, o).

(* ------------------------------------------------------------------ *)
(** ** Types of [types/index.ts] *)

Record ISupabaseCredentials : Type := {
  host : string;
  serviceKey : string
}.

Record IRowFilter : Type := {
  filter_column : string;
  filter_operator : string;
  filter_value : value
}.

Record IRowSort : Type := {
  sort_column : string;
  sort_ascending : bool
}.

(** Optional fields ([nullable?], [defaultValue?], ...) are [option]s. *)
Record IColumnDefinition : Type := {
  def_name : string;
  def_type : string;
  def_nullable : option bool;
  def_defaultValue : option string;
  def_primaryKey : option bool;
  def_unique : option bool
}.

Record IIndexDefinition : Type := {
  idx_name : string;
  idx_columns : list string;
  idx_unique : option bool;
  idx_method : option string
}.

(** An entry of the [columns.column] collection. *)
Record ColumnValue : Type := {
  col_name : string;
  col_value : value
}.

Record INodeExecutionData : Type := { json : value }.

(** The parameters of one item as [getNodeParameter] resolves them, the
    fallback of the call already applied ([None] where the fallback is
    [undefined]). *)
Record NodeParameters : Type := {
  resource : string;
  operation : string;
  table : string;
  uiMode : string;
  jsonData : string;
  columns_column : list ColumnValue;
  filters_filter : list IRowFilter;
  advancedFilters : string;
  returnFields : string;
  sort_sortField : list IRowSort;
  limit : option Z;
  offset : option Z;
  onConflict : string;
  tableName : string;
  columnDefinitions_column : list IColumnDefinition;
  columnDefinition : IColumnDefinition;
  columnName : string;
  cascade : bool;
  indexDefinition : IIndexDefinition;
  indexName : string;
  customSql : string
}.

Record IExecuteFunctions : Type := {
  getInputData : list value;
  getCredentials : ISupabaseCredentials;
  getNodeParameter : nat -> NodeParameters;
  continueOnFail : bool
}.

Definition optTrue (o : option bool) : bool :=
  match o with Some true => true | _ => false end.

Definition optText (o : option string) : bool :=
  match o with Some s => negb (JsString.isEmpty s) | None => false end.

Definition textOf (o : option string) : string :=
  match o with Some s => s | None => "undefined" end.

(** The double quote of the SQL templates. *)
Definition dq : string := String (ascii_of_nat 34) "".

(* ------------------------------------------------------------------ *)
(** ** [utils/supabaseClient.ts] *)

Definition validateCredentials {P : Platform} (credentials : ISupabaseCredentials)
  : outcome unit :=
  if JsString.isEmpty (host credentials) then
    Throw (Error "Supabase Project URL is required")
  else if JsString.isEmpty (serviceKey credentials) then
    Throw (Error "Supabase API Key is required")
  else if negb (URL_parses (host credentials)) then
    Throw (Error "Invalid Supabase Project URL format")
  else if negb (JsString.includes (host credentials) "supabase.co")
          && negb (JsString.includes (host credentials) "localhost") then
    Throw (Error "URL must be a valid Supabase project URL")
  else Return tt.

Definition formatSupabaseError {P : Platform} (error : value) : value :=
  if negb (truthy error) then JStr "Unknown error occurred"
  else match error with
  | JStr _ => error
  | _ =>
    if truthy (getProp error "message") then getProp error "message"
    else if truthy (getProp error "error_description")
    then getProp error "error_description"
    else if truthy (getProp error "details") then getProp error "details"
    else match JSON_stringify error with
         | Some s => JStr s
         | None => JUndefined
         end
  end.

(** [formatSupabaseError(e)] on a caught exception.  The [message] of an
    [Error] is not enumerable: [JSON.stringify] sees an object without
    properties. *)
Definition formatCaught {P : Platform} (e : thrown) : value :=
  match e with
  | Thrown v => formatSupabaseError v
  | Error m | NodeOperationError m _ =>
      if truthy (JStr m) then JStr m
      else match JSON_stringify (JObj []) with
           | Some s => JStr s
           | None => JUndefined
           end
  end.

Definition validateTableName (tableName : string) : outcome unit :=
  if JsString.isEmpty tableName then
    Throw (Error "Table name is required")
  else if negb (RegExp.test RegExp.identifier tableName) then
    Throw (Error "Table name must start with a letter and contain only letters, numbers, and underscores")
  else if (63 <? String.length tableName)%nat then
    Throw (Error "Table name must be 63 characters or less")
  else Return tt.

Definition validateColumnName (columnName : string) : outcome unit :=
  if JsString.isEmpty columnName then
    Throw (Error "Column name is required")
  else if negb (RegExp.test RegExp.identifier columnName) then
    Throw (Error "Column name must start with a letter and contain only letters, numbers, and underscores")
  else if (63 <? String.length columnName)%nat then
    Throw (Error "Column name must be 63 characters or less")
  else Return tt.

(** [operatorMap[operator] || 'eq'] with the twelve names of the map.  The
    names that a plain object inherits ([constructor], [toString], ...) are
    not modelled: the [operator] of the source has the twelve-name type. *)
Definition convertFilterOperator (operator : string) : string :=
  if existsb (String.eqb operator)
       ["eq"; "neq"; "gt"; "gte"; "lt"; "lte"; "like"; "ilike"; "is"; "in";
        "cs"; "cd"]
  then operator else "eq".

(* ------------------------------------------------------------------ *)
(** ** [operations/database/index.ts] *)

Definition item (fields : list (string * value)) : INodeExecutionData :=
  {| json := JObj fields |}.

(** [if (error) throw new Error(formatSupabaseError(error))] *)
Definition throwIfError {P : Platform} (r : response) : M unit :=
  if truthy (error r) then throw (newError (formatSupabaseError (error r)))
  else ret tt.

(** The loop over [columns.column] that fills the row object. *)
Definition columnsToObject (columns : list ColumnValue) : value :=
  JObj (fold_left
          (fun acc column =>
             if negb (JsString.isEmpty (col_name column))
                && match col_value column with JUndefined => false | _ => true end
             then assign acc (col_name column) (col_value column)
             else acc)
          columns []).

(** The [uiMode] switch shared by create, update and upsert. *)
Definition resolveData {P : Platform} (p : NodeParameters) : outcome value :=
  if String.eqb (uiMode p) "advanced" then
    match JSON_parse (jsonData p) with
    | Some v => Return v
    | None => Throw (Error "Invalid JSON data provided")
    end
  else Return (columnsToObject (columns_column p)).

(** The loop applying [query.filter(column, operator, value)]. *)
Definition filterCalls (filters : list IRowFilter) : list builder_call :=
  List.map (fun filter =>
              CallFilter (filter_column filter)
                         (convertFilterOperator (filter_operator filter))
                         (filter_value filter))
           filters.

Definition handleCreate {P : Platform} (this : IExecuteFunctions)
  (supabase : SupabaseClient) (itemIndex : nat) : M (list INodeExecutionData) :=
  let p := getNodeParameter this itemIndex in
  lift (validateTableName (table p)) ;;;
  dataToInsert <- lift (resolveData p) ;;
  r <- await supabase (From (table p) (Insert dataToInsert) [CallSelect]) ;;
  throwIfError r ;;;
  ret [item [("data", data r); ("operation", JStr "create");
             ("table", JStr (table p))]].

(** The advanced filters of [handleRead]: one call per entry of the parsed
    object; [None] when the loop throws. *)
Fixpoint advancedCalls (entries : list (string * value))
  : option (list builder_call) :=
  match entries with
  | [] => Some []
  | (column, condition) :: rest =>
      let call :=
        if isObjectLike condition then
          match Object_entries condition with
          | Some ((operator, v) :: _) =>
              Some (CallFilter column (convertFilterOperator operator) v)
          | _ => None
          end
        else Some (CallEq column condition) in
      match call with
      | Some c =>
          match advancedCalls rest with
          | Some cs => Some (c :: cs)
          | None => None
          end
      | None => None
      end
  end.

Definition readFilters {P : Platform} (p : NodeParameters)
  : outcome (list builder_call) :=
  if String.eqb (uiMode p) "simple" then Return (filterCalls (filters_filter p))
  else if negb (JsString.isEmpty (advancedFilters p)) then
    match JSON_parse (advancedFilters p) with
    | Some filters =>
        match Object_entries filters with
        | Some entries =>
            match advancedCalls entries with
            | Some calls => Return calls
            | None => Throw (Error "Invalid advanced filters JSON")
            end
        | None => Throw (Error "Invalid advanced filters JSON")
        end
    | None => Throw (Error "Invalid advanced filters JSON")
    end
  else Return [].

Definition readPaging (p : NodeParameters) : list builder_call :=
  (match limit p with Some l => [CallLimit l] | None => [] end ++
   match offset p with
   | Some o =>
       let size := match limit p with
                   | Some l => if (l =? 0)%Z then 1000%Z else l
                   | None => 1000%Z
                   end in
       [CallRange o (o + size - 1)%Z]
   | None => []
   end)%list.

(** The rows of a response as items: [Array.isArray(data)] guards the loop. *)
Definition rowItems (d : value) : list INodeExecutionData :=
  match d with
  | JArr rows => List.map (fun row => {| json := row |}) rows
  | _ => []
  end.

Definition handleRead {P : Platform} (this : IExecuteFunctions)
  (supabase : SupabaseClient) (itemIndex : nat) : M (list INodeExecutionData) :=
  let p := getNodeParameter this itemIndex in
  lift (validateTableName (table p)) ;;;
  let columns :=
    if negb (JsString.isEmpty (returnFields p))
       && negb (String.eqb (returnFields p) "*")
    then returnFields p else "*" in
  filters <- lift (readFilters p) ;;
  let sort := List.map (fun sortField =>
                          CallOrder (sort_column sortField)
                                    (sort_ascending sortField))
                       (sort_sortField p) in
  r <- await supabase
         (From (table p) (Select columns) (filters ++ sort ++ readPaging p)%list) ;;
  throwIfError r ;;;
  let returnData := rowItems (data r) in
  ret (if (List.length returnData =? 0)%nat
       then [item [("data", JArr []);
                   ("count", js_or (count r) (JNum 0));
                   ("operation", JStr "read");
                   ("table", JStr (table p));
                   ("message", JStr "No records found")]]
       else returnData).

Definition handleUpdate {P : Platform} (this : IExecuteFunctions)
  (supabase : SupabaseClient) (itemIndex : nat) : M (list INodeExecutionData) :=
  let p := getNodeParameter this itemIndex in
  lift (validateTableName (table p)) ;;;
  dataToUpdate <- lift (resolveData p) ;;
  let filters := filters_filter p in
  r <- await supabase
         (From (table p) (Update dataToUpdate)
               (filterCalls filters ++ [CallSelect])%list) ;;
  throwIfError r ;;;
  ret [item [("data", data r); ("operation", JStr "update");
             ("table", JStr (table p));
             ("updated", js_or (optLength (data r)) (JNum 0))]].

Definition handleDelete {P : Platform} (this : IExecuteFunctions)
  (supabase : SupabaseClient) (itemIndex : nat) : M (list INodeExecutionData) :=
  let p := getNodeParameter this itemIndex in
  lift (validateTableName (table p)) ;;;
  let filters := filters_filter p in
  (if (List.length filters =? 0)%nat then
     throw (Error "At least one filter is required for delete operations to prevent accidental data loss")
   else ret tt) ;;;
  r <- await supabase
         (From (table p) Delete (filterCalls filters ++ [CallSelect])%list) ;;
  throwIfError r ;;;
  ret [item [("data", data r); ("operation", JStr "delete");
             ("table", JStr (table p));
             ("deleted", js_or (optLength (data r)) (JNum 0))]].

Definition handleUpsert {P : Platform} (this : IExecuteFunctions)
  (supabase : SupabaseClient) (itemIndex : nat) : M (list INodeExecutionData) :=
  let p := getNodeParameter this itemIndex in
  lift (validateTableName (table p)) ;;;
  dataToUpsert <- lift (resolveData p) ;;
  let options :=
    if negb (JsString.isEmpty (onConflict p))
    then JObj [("onConflict", JStr (onConflict p))] else JObj [] in
  r <- await supabase
         (From (table p) (Upsert dataToUpsert options) [CallSelect]) ;;
  throwIfError r ;;;
  ret [item [("data", data r); ("operation", JStr "upsert");
             ("table", JStr (table p))]].

(** One entry of the column list of [CREATE TABLE]. *)
Definition columnDef (column : IColumnDefinition) : string :=
  dq ++ def_name column ++ dq ++ " " ++ def_type column
  ++ (if negb (optTrue (def_nullable column)) then " NOT NULL" else "")
  ++ (if optText (def_defaultValue column)
      then " DEFAULT " ++ textOf (def_defaultValue column) else "")
  ++ (if optTrue (def_primaryKey column) then " PRIMARY KEY" else "")
  ++ (if optTrue (def_unique column) && negb (optTrue (def_primaryKey column))
      then " UNIQUE" else "").

(** The loop of [handleCreateTable]: each name is validated before its
    definition is pushed. *)
Fixpoint columnDefs (columns : list IColumnDefinition) : outcome (list string) :=
  match columns with
  | [] => Return []
  | column :: rest =>
      match validateColumnName (def_name column) with
      | Throw e => Throw e
      | Return _ =>
          match columnDefs rest with
          | Throw e => Throw e
          | Return defs => Return (columnDef column :: defs)
          end
      end
  end.

(** [supabase.rpc('exec_sql', { sql })] followed by the error check. *)
Definition exec_sql {P : Platform} (supabase : SupabaseClient) (sql : string)
  : M response :=
  r <- await supabase (Rpc "exec_sql" sql) ;;
  throwIfError r ;;;
  ret r.

Definition handleCreateTable {P : Platform} (this : IExecuteFunctions)
  (supabase : SupabaseClient) (itemIndex : nat) : M (list INodeExecutionData) :=
  let p := getNodeParameter this itemIndex in
  let columns := columnDefinitions_column p in
  lift (validateTableName (tableName p)) ;;;
  (if (List.length columns =? 0)%nat
   then throw (Error "At least one column definition is required")
   else ret tt) ;;;
  defs <- lift (columnDefs columns) ;;
  let sql := "CREATE TABLE " ++ dq ++ tableName p ++ dq ++ " ("
             ++ JsString.join ", " defs ++ ")" in
  exec_sql supabase sql ;;;
  ret [item [("operation", JStr "createTable");
             ("tableName", JStr (tableName p));
             ("sql", JStr sql); ("success", JBool true)]].

Definition handleDropTable {P : Platform} (this : IExecuteFunctions)
  (supabase : SupabaseClient) (itemIndex : nat) : M (list INodeExecutionData) :=
  let p := getNodeParameter this itemIndex in
  lift (validateTableName (tableName p)) ;;;
  let sql := "DROP TABLE " ++ dq ++ tableName p ++ dq
             ++ (if cascade p then " CASCADE" else "") in
  exec_sql supabase sql ;;;
  ret [item [("operation", JStr "dropTable");
             ("tableName", JStr (tableName p));
             ("sql", JStr sql); ("success", JBool true)]].

Definition handleAddColumn {P : Platform} (this : IExecuteFunctions)
  (supabase : SupabaseClient) (itemIndex : nat) : M (list INodeExecutionData) :=
  let p := getNodeParameter this itemIndex in
  let definition := columnDefinition p in
  lift (validateTableName (tableName p)) ;;;
  lift (validateColumnName (def_name definition)) ;;;
  let sql := "ALTER TABLE " ++ dq ++ tableName p ++ dq ++ " ADD COLUMN "
             ++ dq ++ def_name definition ++ dq ++ " " ++ def_type definition
             ++ (if negb (optTrue (def_nullable definition))
                 then " NOT NULL" else "")
             ++ (if optText (def_defaultValue definition)
                 then " DEFAULT " ++ textOf (def_defaultValue definition)
                 else "") in
  exec_sql supabase sql ;;;
  ret [item [("operation", JStr "addColumn");
             ("tableName", JStr (tableName p));
             ("columnName", JStr (def_name definition));
             ("sql", JStr sql); ("success", JBool true)]].

Definition handleDropColumn {P : Platform} (this : IExecuteFunctions)
  (supabase : SupabaseClient) (itemIndex : nat) : M (list INodeExecutionData) :=
  let p := getNodeParameter this itemIndex in
  lift (validateTableName (tableName p)) ;;;
  lift (validateColumnName (columnName p)) ;;;
  let sql := "ALTER TABLE " ++ dq ++ tableName p ++ dq ++ " DROP COLUMN "
             ++ dq ++ columnName p ++ dq
             ++ (if cascade p then " CASCADE" else "") in
  exec_sql supabase sql ;;;
  ret [item [("operation", JStr "dropColumn");
             ("tableName", JStr (tableName p));
             ("columnName", JStr (columnName p));
             ("sql", JStr sql); ("success", JBool true)]].

Definition handleCreateIndex {P : Platform} (this : IExecuteFunctions)
  (supabase : SupabaseClient) (itemIndex : nat) : M (list INodeExecutionData) :=
  let p := getNodeParameter this itemIndex in
  let definition := indexDefinition p in
  lift (validateTableName (tableName p)) ;;;
  (if JsString.isEmpty (idx_name definition)
      || (List.length (idx_columns definition) =? 0)%nat
   then throw (Error "Index name and columns are required")
   else ret tt) ;;;
  let uniqueKeyword := if optTrue (idx_unique definition) then "UNIQUE " else "" in
  let method := if optText (idx_method definition)
                then " USING " ++ textOf (idx_method definition) else "" in
  let columnList :=
    JsString.join ", "
      (List.map (fun col => dq ++ col ++ dq) (idx_columns definition)) in
  let sql := "CREATE " ++ uniqueKeyword ++ "INDEX " ++ dq ++ idx_name definition
             ++ dq ++ " ON " ++ dq ++ tableName p ++ dq ++ method
             ++ " (" ++ columnList ++ ")" in
  exec_sql supabase sql ;;;
  ret [item [("operation", JStr "createIndex");
             ("tableName", JStr (tableName p));
             ("indexName", JStr (idx_name definition));
             ("sql", JStr sql); ("success", JBool true)]].

Definition handleDropIndex {P : Platform} (this : IExecuteFunctions)
  (supabase : SupabaseClient) (itemIndex : nat) : M (list INodeExecutionData) :=
  let p := getNodeParameter this itemIndex in
  (if JsString.isEmpty (indexName p)
   then throw (Error "Index name is required") else ret tt) ;;;
  let sql := "DROP INDEX " ++ dq ++ indexName p ++ dq
             ++ (if cascade p then " CASCADE" else "") in
  exec_sql supabase sql ;;;
  ret [item [("operation", JStr "dropIndex");
             ("indexName", JStr (indexName p));
             ("sql", JStr sql); ("success", JBool true)]].

Definition handleCustomQuery {P : Platform} (this : IExecuteFunctions)
  (supabase : SupabaseClient) (itemIndex : nat) : M (list INodeExecutionData) :=
  let p := getNodeParameter this itemIndex in
  let customSql := customSql p in
  (if JsString.isEmpty (JsString.trim customSql)
   then throw (Error "SQL query is required") else ret tt) ;;;
  if JsString.startsWith (JsString.toLowerCase (JsString.trim customSql)) "select"
  then
    r <- await supabase (Rpc "exec_sql_select" customSql) ;;
    throwIfError r ;;;
    let returnData := rowItems (data r) in
    ret (if (List.length returnData =? 0)%nat
         then [item [("data", JArr []);
                     ("operation", JStr "customQuery");
                     ("sql", JStr customSql);
                     ("message",
                      JStr "Query executed successfully, no results returned")]]
         else returnData)
  else
    r <- await supabase (Rpc "exec_sql" customSql) ;;
    throwIfError r ;;;
    ret [item [("operation", JStr "customQuery"); ("sql", JStr customSql);
               ("result", data r); ("success", JBool true)]].

Definition executeDatabaseOperation {P : Platform} (this : IExecuteFunctions)
  (supabase : SupabaseClient) (operation : string) (itemIndex : nat)
  : M (list INodeExecutionData) :=
  try_catch
    (if String.eqb operation "create" then handleCreate this supabase itemIndex
     else if String.eqb operation "read" then handleRead this supabase itemIndex
     else if String.eqb operation "update" then handleUpdate this supabase itemIndex
     else if String.eqb operation "delete" then handleDelete this supabase itemIndex
     else if String.eqb operation "upsert" then handleUpsert this supabase itemIndex
     else if String.eqb operation "createTable"
     then handleCreateTable this supabase itemIndex
     else if String.eqb operation "dropTable"
     then handleDropTable this supabase itemIndex
     else if String.eqb operation "addColumn"
     then handleAddColumn this supabase itemIndex
     else if String.eqb operation "dropColumn"
     then handleDropColumn this supabase itemIndex
     else if String.eqb operation "createIndex"
     then handleCreateIndex this supabase itemIndex
     else if String.eqb operation "dropIndex"
     then handleDropIndex this supabase itemIndex
     else if String.eqb operation "customQuery"
     then handleCustomQuery this supabase itemIndex
     else throw (Error ("Unknown database operation: " ++ operation)))
    (fun error =>
       throw (Error ("Database operation failed: "
                     ++ ToString (formatCaught error)))).

(* ------------------------------------------------------------------ *)
(** ** [Supabase.node.ts]: the batch loop *)

(** What [execute] takes from outside this development: the vendor's
    [createClient] and the storage dispatcher of
    [operations/storage/index.ts]. *)
Class Collaborators : Type := {
  createSupabaseClient : ISupabaseCredentials -> SupabaseClient;
  executeStorageOperation :
    IExecuteFunctions -> SupabaseClient -> string -> nat ->
    M (list INodeExecutionData)
}.

(** The body of the [try] block for one item. *)
Definition processItem {P : Platform} {K : Collaborators} (this : IExecuteFunctions)
  (supabase : SupabaseClient) (itemIndex : nat) : M (list INodeExecutionData) :=
  let p := getNodeParameter this itemIndex in
  if String.eqb (resource p) "database" then
    executeDatabaseOperation this supabase (operation p) itemIndex
  else if String.eqb (resource p) "storage" then
    executeStorageOperation this supabase (operation p) itemIndex
  else throw (NodeOperationError ("Unknown resource: " ++ resource p) None).

(** The [catch] block of the loop. *)
Definition onItemError (this : IExecuteFunctions) (itemIndex : nat)
  (returnData : list INodeExecutionData) (e : thrown)
  : M (list INodeExecutionData) :=
  let errorMessage := messageOr "Unknown error occurred" e in
  if continueOnFail this then
    ret (returnData ++ [item [("error", JStr errorMessage);
                              ("itemIndex", JNum (Z.of_nat itemIndex))]])%list
  else throw (NodeOperationError errorMessage (Some itemIndex)).

(** [for (let itemIndex = ...; itemIndex < items.length; itemIndex++)] with
    [remaining = items.length - itemIndex]; [body] is the [try] block. *)
Fixpoint itemLoop (this : IExecuteFunctions)
  (body : nat -> M (list INodeExecutionData))
  (remaining itemIndex : nat) (returnData : list INodeExecutionData)
  : M (list INodeExecutionData) :=
  match remaining with
  | O => ret returnData
  | S remaining' =>
      returnData' <-
        try_catch (operationResults <- body itemIndex ;;
                   ret (returnData ++ operationResults)%list)
                  (onItemError this itemIndex returnData) ;;
      itemLoop this body remaining' (S itemIndex) returnData'
  end.

Definition execute {P : Platform} {K : Collaborators} (this : IExecuteFunctions)
  : M (list (list INodeExecutionData)) :=
  let items := getInputData this in
  let credentials := getCredentials this in
  match validateCredentials credentials with
  | Throw e =>
      throw (NodeOperationError
               ("Invalid credentials: " ++ messageOr "Unknown error" e) None)
  | Return _ =>
      let supabase := createSupabaseClient credentials in
      returnData <- itemLoop this (processItem this supabase)
                             (List.length items) 0 [] ;;
      ret [returnData]
  end.

(* ------------------------------------------------------------------ *)
(** ** A reference platform

    An executable [JSON.stringify] and [JSON.parse] on the values of the
    model, after sections 25.5.1 and 25.5.2 of ECMA-262, to run the
    handlers on concrete inputs.  Numbers are integers here, so number
    tokens with a fraction or an exponent are not read. *)

Module RefJSON.

Definition hexDigit (n : nat) : ascii :=
  ascii_of_nat (if (n <? 10)%nat then 48 + n else 87 + n).

Definition escapeChar (c : ascii) : string :=
  let n := JsString.code c in
  if (n =? 34)%nat then String "\" dq
  else if (n =? 92)%nat then "\\"
  else if (n =? 8)%nat then "\b"
  else if (n =? 9)%nat then "\t"
  else if (n =? 10)%nat then "\n"
  else if (n =? 12)%nat then "\f"
  else if (n =? 13)%nat then "\r"
  else if (n <? 32)%nat
       then "\u00" ++ String (hexDigit (n / 16)) (String (hexDigit (n mod 16)) "")
       else String c "".

Fixpoint escape (s : string) : string :=
  match s with
  | EmptyString => ""
  | String c rest => escapeChar c ++ escape rest
  end.

Definition quote (s : string) : string := dq ++ escape s ++ dq.

Fixpoint stringify (v : value) : option string :=
  match v with
  | JUndefined => None
  | JNull => Some "null"
  | JBool true => Some "true"
  | JBool false => Some "false"
  | JNum n => Some (JsString.ofZ n)
  | JStr s => Some (quote s)
  | JArr items =>
      Some ("[" ++ JsString.join ","
                     (List.map (fun x => match stringify x with
                                         | Some s => s
                                         | None => "null"
                                         end) items) ++ "]")
  | JObj props =>
      Some ("{" ++ JsString.join ","
                     (List.flat_map
                        (fun kv => match stringify (snd kv) with
                                   | Some s => [quote (fst kv) ++ ":" ++ s]
                                   | None => []
                                   end) props) ++ "}")
  end.

Definition isJsonSpace (c : ascii) : bool :=
  let n := JsString.code c in
  (n =? 32)%nat || (n =? 9)%nat || (n =? 10)%nat || (n =? 13)%nat.

Fixpoint skipws (s : string) : string :=
  match s with
  | String c rest => if isJsonSpace c then skipws rest else s
  | EmptyString => EmptyString
  end.

Definition hexValue (c : ascii) : option nat :=
  let n := JsString.code c in
  if JsString.between 48 57 c then Some (n - 48)
  else if JsString.between 97 102 c then Some (n - 87)
  else if JsString.between 65 70 c then Some (n - 55)
  else None.

(** The characters after an opening quote, up to the closing one. *)
Fixpoint parseChars (s : string) : option (string * string) :=
  match s with
  | EmptyString => None
  | String c rest =>
      let n := JsString.code c in
      if (n =? 34)%nat then Some ("", rest)
      else if (n <? 32)%nat then None
      else if (n =? 92)%nat then
        match rest with
        | String e rest1 =>
            let continue (d : ascii) (tail : string) :=
              match parseChars tail with
              | Some (body, after) => Some (String d body, after)
              | None => None
              end in
            let m := JsString.code e in
            if (m =? 34)%nat || (m =? 92)%nat || (m =? 47)%nat
            then continue e rest1
            else if (m =? 98)%nat then continue (ascii_of_nat 8) rest1
            else if (m =? 116)%nat then continue (ascii_of_nat 9) rest1
            else if (m =? 110)%nat then continue (ascii_of_nat 10) rest1
            else if (m =? 102)%nat then continue (ascii_of_nat 12) rest1
            else if (m =? 114)%nat then continue (ascii_of_nat 13) rest1
            else if (m =? 117)%nat then
              match rest1 with
              | String h1 (String h2 (String h3 (String h4 rest2))) =>
                  match hexValue h1, hexValue h2, hexValue h3, hexValue h4 with
                  | Some 0, Some 0, Some a, Some b =>
                      continue (ascii_of_nat (16 * a + b)) rest2
                  | _, _, _, _ => None
                  end
              | _ => None
              end
            else None
        | EmptyString => None
        end
      else
        match parseChars rest with
        | Some (body, after) => Some (String c body, after)
        | None => None
        end
  end.

Fixpoint parseDigits (acc : Z) (s : string) : Z * string :=
  match s with
  | String c rest =>
      if JsString.between 48 57 c
      then parseDigits (10 * acc + Z.of_nat (JsString.code c - 48)) rest
      else (acc, s)
  | EmptyString => (acc, s)
  end.

(** An integer token without sign. *)
Definition parseNat (s : string) : option (Z * string) :=
  match s with
  | String c rest =>
      if (JsString.code c =? 48)%nat then
        match rest with
        | String d _ =>
            if JsString.between 48 57 d || (JsString.code d =? 46)%nat
               || (JsString.code d =? 101)%nat || (JsString.code d =? 69)%nat
            then None else Some (0%Z, rest)
        | EmptyString => Some (0%Z, rest)
        end
      else if JsString.between 49 57 c then
        match parseDigits 0 s with
        | (n, String d after) =>
            if (JsString.code d =? 46)%nat || (JsString.code d =? 101)%nat
               || (JsString.code d =? 69)%nat
            then None else Some (n, String d after)
        | (n, EmptyString) => Some (n, EmptyString)
        end
      else None
  | EmptyString => None
  end.

(** [s] without its prefix [word]. *)
Fixpoint dropPrefix (word s : string) : option string :=
  match word with
  | EmptyString => Some s
  | String c word' =>
      match s with
      | String d s' => if Ascii.eqb c d then dropPrefix word' s' else None
      | EmptyString => None
      end
  end.

Definition literal (word : string) (v : value) (s : string)
  : option (value * string) :=
  match dropPrefix word s with
  | Some rest => Some (v, rest)
  | None => None
  end.

Fixpoint parseValue (fuel : nat) (s : string) : option (value * string) :=
  match fuel with
  | O => None
  | S fuel' =>
      match skipws s with
      | EmptyString => None
      | String c rest =>
          let n := JsString.code c in
          if (n =? 123)%nat then
            match skipws rest with
            | String d rest' =>
                if (JsString.code d =? 125)%nat then Some (JObj [], rest')
                else parseMembers fuel' [] rest
            | EmptyString => None
            end
          else if (n =? 91)%nat then
            match skipws rest with
            | String d rest' =>
                if (JsString.code d =? 93)%nat then Some (JArr [], rest')
                else parseElements fuel' [] rest
            | EmptyString => None
            end
          else if (n =? 34)%nat then
            match parseChars rest with
            | Some (body, after) => Some (JStr body, after)
            | None => None
            end
          else if (n =? 45)%nat then
            match parseNat rest with
            | Some (k, after) => Some (JNum (- k), after)
            | None => None
            end
          else if JsString.between 48 57 c then
            match parseNat (String c rest) with
            | Some (k, after) => Some (JNum k, after)
            | None => None
            end
          else if (n =? 116)%nat then literal "true" (JBool true) (String c rest)
          else if (n =? 102)%nat then literal "false" (JBool false) (String c rest)
          else if (n =? 110)%nat then literal "null" JNull (String c rest)
          else None
      end
  end
with parseElements (fuel : nat) (acc : list value) (s : string)
  : option (value * string) :=
  match fuel with
  | O => None
  | S fuel' =>
      match parseValue fuel' s with
      | Some (v, after) =>
          match skipws after with
          | String d rest =>
              if (JsString.code d =? 44)%nat
              then parseElements fuel' (acc ++ [v])%list rest
              else if (JsString.code d =? 93)%nat
              then Some (JArr (acc ++ [v])%list, rest)
              else None
          | EmptyString => None
          end
      | None => None
      end
  end
with parseMembers (fuel : nat) (acc : list (string * value)) (s : string)
  : option (value * string) :=
  match fuel with
  | O => None
  | S fuel' =>
      match skipws s with
      | String q rest =>
          if (JsString.code q =? 34)%nat then
            match parseChars rest with
            | Some (key, after) =>
                match skipws after with
                | String colon rest1 =>
                    if (JsString.code colon =? 58)%nat then
                      match parseValue fuel' rest1 with
                      | Some (v, after1) =>
                          match skipws after1 with
                          | String d rest2 =>
                              if (JsString.code d =? 44)%nat
                              then parseMembers fuel' (set_own key v acc) rest2
                              else if (JsString.code d =? 125)%nat
                              then Some (JObj (set_own key v acc), rest2)
                              else None
                          | EmptyString => None
                          end
                      | None => None
                      end
                    else None
                | EmptyString => None
                end
            | None => None
            end
          else None
      | EmptyString => None
      end
  end.

(** [JSON.parse(text)]: one value, then only white space. *)
Definition parse (text : string) : option value :=
  match parseValue (S (String.length text)) text with
  | Some (v, after) =>
      match skipws after with
      | EmptyString => Some v
      | _ => None
      end
  | None => None
  end.

(** *** Vocabulary for the round trip *)

(** The JSON text of a value inside an array or an object. *)
Definition text (v : value) : string :=
  match stringify v with
  | Some s => s
  | None => "null"
  end.

(** No key occurs twice. *)
Fixpoint nodupb (keys : list string) : bool :=
  match keys with
  | [] => true
  | k :: rest => negb (existsb (String.eqb k) rest) && nodupb rest
  end.

(** The values that [JSON.parse] can produce: no [undefined], distinct keys. *)
Fixpoint wellFormed (v : value) : bool :=
  match v with
  | JUndefined => false
  | JArr items => forallb wellFormed items
  | JObj props =>
      forallb (fun kv => wellFormed (snd kv)) props
      && nodupb (List.map fst props)
  | _ => true
  end.

(** Fuel for a list of elements or members: one unit for each, on top of
    what the largest needs. *)
Definition maxNeed {A} (f : A -> nat) (l : list A) : nat :=
  fold_right (fun x n => S (Nat.max (f x) n)) 0 l.

(** Fuel that [parseValue] needs to read the text of a value back. *)
Fixpoint need (v : value) : nat :=
  match v with
  | JArr items => S (maxNeed need items)
  | JObj props => S (maxNeed (fun kv => need (snd kv)) props)
  | _ => 1
  end.

(** The text of one member of an object. *)
Definition memberText (kv : string * value) : string :=
  quote (fst kv) ++ ":" ++ text (snd kv).

(** What follows a value inside a text: nothing, a comma or a closing
    bracket. *)
Definition delimited (rest : string) : bool :=
  match rest with
  | EmptyString => true
  | String c _ =>
      (JsString.code c =? 44)%nat || (JsString.code c =? 93)%nat
      || (JsString.code c =? 125)%nat
  end.

Definition isDigit (c : ascii) : bool := JsString.between 48 57 c.

(** The number that the digits [d] continue from [acc]. *)
Fixpoint uintValue (acc : Z) (d : Decimal.uint) : Z :=
  match d with
  | Decimal.Nil => acc
  | Decimal.D0 d => uintValue (10 * acc) d
  | Decimal.D1 d => uintValue (10 * acc + 1) d
  | Decimal.D2 d => uintValue (10 * acc + 2) d
  | Decimal.D3 d => uintValue (10 * acc + 3) d
  | Decimal.D4 d => uintValue (10 * acc + 4) d
  | Decimal.D5 d => uintValue (10 * acc + 5) d
  | Decimal.D6 d => uintValue (10 * acc + 6) d
  | Decimal.D7 d => uintValue (10 * acc + 7) d
  | Decimal.D8 d => uintValue (10 * acc + 8) d
  | Decimal.D9 d => uintValue (10 * acc + 9) d
  end.

(** [rest] cannot continue a number token. *)
Definition notNumeric (rest : string) : Prop :=
  match rest with
  | EmptyString => True
  | String c _ =>
      isDigit c = false /\ JsString.code c <> 46 /\ JsString.code c <> 101
      /\ JsString.code c <> 69
  end.

(** [parseValue], given enough fuel, reads [v] back from its text. *)
Definition readsBack (v : value) : Prop :=
  wellFormed v = true ->
  forall fuel rest, need v <= fuel -> delimited rest = true ->
  parseValue fuel (text v ++ rest) = Some (v, rest).

End RefJSON.

(** [new URL(s)] needs a scheme: letters, digits, [+], [-], [.] after a
    first letter, up to a colon.  The reference platform asks for no more. *)
Definition hasScheme : RegExp.regex :=
  RegExp.Seq (RegExp.Class RegExp.letter)
    (RegExp.Seq
       (RegExp.Star (RegExp.Class
          [RegExp.CRange "a" "z"; RegExp.CRange "A" "Z"; RegExp.CRange "0" "9";
           RegExp.CChar "+"; RegExp.CChar "-"; RegExp.CChar "."]))
       (RegExp.Seq (RegExp.Class [RegExp.CChar ":"])
          (RegExp.Star (RegExp.Class [RegExp.CRange (ascii_of_nat 0) (ascii_of_nat 255)])))).

Definition refPlatform : Platform := {|
  JSON_parse := RefJSON.parse;
  JSON_stringify := RefJSON.stringify;
  URL_parses := RegExp.test hasScheme
|}.

(* ------------------------------------------------------------------ *)
(** ** Vocabulary of the specification *)

(** An identifier the specification calls acceptable: it matches
    [^[A-Za-z][A-Za-z0-9_]*$] and has at most 63 code units. *)
Definition acceptable (name : string) : Prop :=
  RegExp.matches RegExp.identifier name /\ (String.length name <= 63)%nat.

(** The first truthy candidate, or the fallback. *)
Fixpoint firstTruthy (candidates : list value) (fallback : value) : value :=
  match candidates with
  | [] => fallback
  | c :: rest => if truthy c then c else firstTruthy rest fallback
  end.

(** [JSON.stringify(v)] as a value. *)
Definition stringified {P : Platform} (v : value) : value :=
  match JSON_stringify v with
  | Some s => JStr s
  | None => JUndefined
  end.

(** [needle] occurs in [s]. *)
Definition occursIn (needle s : string) : Prop :=
  exists before after, s = before ++ needle ++ after.

(** The rows of a response: the elements of [data] when it is an array. *)
Definition rowsOf (d : value) : list value :=
  match d with
  | JArr rows => rows
  | _ => []
  end.

(** The trimmed text starts with [select], whatever the case of its
    letters. *)
Definition startsWithSelect (sql : string) : Prop :=
  exists head tail,
    JsString.trim sql = head ++ tail /\ JsString.toLowerCase head = "select".

(** A finite mapping that both modes of the row payload can express: its
    keys are distinct, none is empty or [__proto__], and no value is
    [undefined]. *)
Definition plainMapping (m : list (string * value)) : Prop :=
  NoDup (List.map fst m) /\
  Forall (fun kv => fst kv <> "" /\ fst kv <> "__proto__"
                    /\ snd kv <> JUndefined) m.

(** [p] with another [advancedFilters]. *)
Definition setAdvancedFilters (text : string) (p : NodeParameters)
  : NodeParameters :=
  {| resource := resource p; operation := operation p; table := table p;
     uiMode := uiMode p; jsonData := jsonData p;
     columns_column := columns_column p; filters_filter := filters_filter p;
     advancedFilters := text;
     returnFields := returnFields p; sort_sortField := sort_sortField p;
     limit := limit p; offset := offset p; onConflict := onConflict p;
     tableName := tableName p;
     columnDefinitions_column := columnDefinitions_column p;
     columnDefinition := columnDefinition p; columnName := columnName p;
     cascade := cascade p; indexDefinition := indexDefinition p;
     indexName := indexName p; customSql := customSql p |}.

(** [this] with the parameters of every item passed through [f]. *)
Definition mapParameters (f : NodeParameters -> NodeParameters)
  (this : IExecuteFunctions) : IExecuteFunctions :=
  {| getInputData := getInputData this;
     getCredentials := getCredentials this;
     getNodeParameter := fun itemIndex => f (getNodeParameter this itemIndex);
     continueOnFail := continueOnFail this |}.

(** The column pairs that list the entries of a mapping. *)
Definition pairsOf (m : list (string * value)) : list ColumnValue :=
  List.map (fun kv => {| col_name := fst kv; col_value := snd kv |}) m.

(** The record of a failed item. *)
Definition errorRecord (message : string) (itemIndex : nat) : INodeExecutionData :=
  item [("error", JStr message); ("itemIndex", JNum (Z.of_nat itemIndex))].

(* ------------------------------------------------------------------ *)
(** ** Sample inputs *)

(** Parameters of the CRUD operations; the rest as the node description
    defaults them. *)
Definition crudParameters (operation table uiMode jsonData : string)
  (columns : list ColumnValue) (filters : list IRowFilter)
  (advancedFilters : string) : NodeParameters :=
  {| resource := "database"; operation := operation; table := table;
     uiMode := uiMode; jsonData := jsonData;
     columns_column := columns; filters_filter := filters;
     advancedFilters := advancedFilters;
     returnFields := "*"; sort_sortField := [];
     limit := Some 100%Z; offset := Some 0%Z; onConflict := "";
     tableName := ""; columnDefinitions_column := [];
     columnDefinition :=
       {| def_name := ""; def_type := ""; def_nullable := None;
          def_defaultValue := None; def_primaryKey := None;
          def_unique := None |};
     columnName := ""; cascade := false;
     indexDefinition :=
       {| idx_name := ""; idx_columns := []; idx_unique := None;
          idx_method := None |};
     indexName := ""; customSql := "" |}.

(** Parameters of the index operations and of [customQuery]. *)
Definition sqlParameters (operation tableName indexName customSql : string)
  (indexDefinition : IIndexDefinition) : NodeParameters :=
  {| resource := "database"; operation := operation; table := "";
     uiMode := "simple"; jsonData := "{}";
     columns_column := []; filters_filter := []; advancedFilters := "{}";
     returnFields := "*"; sort_sortField := [];
     limit := Some 100%Z; offset := Some 0%Z; onConflict := "";
     tableName := tableName; columnDefinitions_column := [];
     columnDefinition :=
       {| def_name := ""; def_type := ""; def_nullable := None;
          def_defaultValue := None; def_primaryKey := None;
          def_unique := None |};
     columnName := ""; cascade := false;
     indexDefinition := indexDefinition;
     indexName := indexName; customSql := customSql |}.

Definition executeFunctions (items : list value)
  (parameters : nat -> NodeParameters) (continue : bool) : IExecuteFunctions :=
  {| getInputData := items;
     getCredentials :=
       {| host := "https://abc.supabase.co"; serviceKey := "service-key" |};
     getNodeParameter := parameters;
     continueOnFail := continue |}.

(** A backend that answers every request with the same rows. *)
Definition answering (rows : value) : SupabaseClient :=
  fun _ _ => {| data := rows; error := JNull; count := JNull |}.

Definition ageFilter : IRowFilter :=
  {| filter_column := "age"; filter_operator := "gt"; filter_value := JNum 25 |}.

Definition statusFilter : IRowFilter :=
  {| filter_column := "status"; filter_operator := "eq";
     filter_value := JStr "active" |}.


(** One item that asks for [operation] on the table [users]. *)
Definition crudItem (operation uiMode jsonData : string)
  (columns : list ColumnValue) (filters : list IRowFilter)
  (advancedFilters : string) : IExecuteFunctions :=
  executeFunctions [JObj []]
    (fun _ => crudParameters operation "users" uiMode jsonData columns filters
                             advancedFilters)
    false.

Definition alice : value := JObj [("id", JNum 1); ("name", JStr "Alice")].
Definition bob : value := JObj [("id", JNum 2); ("name", JStr "Bob")].


Definition noIndex : IIndexDefinition :=
  {| idx_name := ""; idx_columns := []; idx_unique := None; idx_method := None |}.

(** One item that runs [customQuery] on [sql]. *)
Definition queryItem (sql : string) : IExecuteFunctions :=
  executeFunctions [JObj []]
    (fun _ => sqlParameters "customQuery" "" "" sql noIndex) false.

(** The JSON text of the object whose one key is empty and has the value
    [y]. *)
Definition emptyNameJson : string :=
  "{" ++ dq ++ dq ++ ":" ++ dq ++ "y" ++ dq ++ "}".

(** The JSON text of the object whose one key [x] has the value [y]. *)
Definition xyJson : string :=
  "{" ++ dq ++ "x" ++ dq ++ ":" ++ dq ++ "y" ++ dq ++ "}".


(** Collaborators for the samples: every client answers with the row
    [alice]; the storage dispatcher is not exercised. *)
Definition sampleCollaborators : Collaborators :=
  {| createSupabaseClient := fun _ => answering (JArr [alice]);
     executeStorageOperation :=
       fun _ _ _ _ => throw (Error "storage is outside this development") |}.

(** A batch of three items: a read, a delete without filters, a read. *)
Definition threeItems (continue : bool) : IExecuteFunctions :=
  executeFunctions [JObj []; JObj []; JObj []]
    (fun itemIndex =>
       if (itemIndex =? 1)%nat
       then crudParameters "delete" "users" "simple" "{}" [] [] "{}"
       else crudParameters "read" "users" "simple" "{}" [] [] "{}")
    continue.


(** An index name that closes the quoted identifier and adds a statement. *)
Definition injectedName : string := "idx" ++ dq ++ "; DROP TABLE users; --".

(** An index column that does the same inside the column list. *)
Definition injectedColumn : string := "email" ++ dq ++ "); DROP TABLE users; --".

Definition dropIndexItem (name : string) : IExecuteFunctions :=
  executeFunctions [JObj []]
    (fun _ => sqlParameters "dropIndex" "" name "" noIndex) false.

Definition createIndexItem (definition : IIndexDefinition) : IExecuteFunctions :=
  executeFunctions [JObj []]
    (fun _ => sqlParameters "createIndex" "users" "" "" definition) false.

(* ------------------------------------------------------------------ *)
(** ** The rest of [utils/supabaseClient.ts] *)

(** [s] without the code units that [keep] rejects. *)
Fixpoint keepChars (keep : ascii -> bool) (s : string) : string :=
  match s with
  | EmptyString => EmptyString
  | String c rest =>
      if keep c then String c (keepChars keep rest) else keepChars keep rest
  end.

(** [[a-zA-Z0-9_-]] *)
Definition sanitized : list RegExp.class_item :=
  [RegExp.CRange "a" "z"; RegExp.CRange "A" "Z"; RegExp.CRange "0" "9";
   RegExp.CChar "_"; RegExp.CChar "-"].

(** [columnName.replace(/[^a-zA-Z0-9_-]/g, '')] *)
Definition sanitizeColumnName (columnName : string) : string :=
  keepChars (RegExp.in_class sanitized) columnName.

(** [v === s] for a string [s], and [v === n] for a number [n]. *)
Definition strictEqString (v : value) (s : string) : bool :=
  match v with
  | JStr t => String.eqb t s
  | _ => false
  end.

Definition strictEqNumber (v : value) (n : Z) : bool :=
  match v with
  | JNum m => (m =? n)%Z
  | _ => false
  end.

(** [list.some(callback)]; [None] when the callback throws before any
    element has passed. *)
Fixpoint some {A} (callback : A -> option bool) (list : list A) : option bool :=
  match list with
  | [] => Some false
  | x :: rest =>
      match callback x with
      | None => None
      | Some true => Some true
      | Some false => some callback rest
      end
  end.

(** [error.message?.toLowerCase()] for an [error] that is neither [null]
    nor [undefined]: [Some None] is [undefined], and [None] the [TypeError]
    of calling [toLowerCase] on what is not a string. *)
Definition lowerMessage (error : value) : option (option string) :=
  match getProp error "message" with
  | JUndefined | JNull => Some None
  | JStr m => Some (Some (JsString.toLowerCase m))
  | _ => None
  end.

Definition authErrorCodes : list string :=
  ["invalid_api_key"; "insufficient_privileges"; "unauthorized"; "forbidden"].

Definition statusIsAuth (error : value) : bool :=
  strictEqNumber (getProp error "statusCode") 401
  || strictEqNumber (getProp error "statusCode") 403.

Definition isAuthError (error : value) : option bool :=
  if negb (truthy error) then Some false
  else some (fun code =>
               if strictEqString (getProp error "code") code then Some true
               else match lowerMessage error with
                    | None => None
                    | Some None => Some (statusIsAuth error)
                    | Some (Some m) =>
                        Some (JsString.includes m code || statusIsAuth error)
                    end)
            authErrorCodes.

Definition networkErrorPatterns : list string :=
  ["network"; "connection"; "timeout"; "unreachable"; "dns"; "econnrefused";
   "enotfound"].

Definition isNetworkError (error : value) : option bool :=
  if negb (truthy error) then Some false
  else match lowerMessage error with
       | None => None
       | Some m =>
           let errorMessage := match m with Some s => s | None => "" end in
           Some (existsb (fun pattern => JsString.includes errorMessage pattern)
                         networkErrorPatterns)
       end.

(* ------------------------------------------------------------------ *)
(** ** More vocabulary *)


(** The [message] of [error] is a string, or [error] has none. *)
Definition messageIsText (error : value) : Prop :=
  getProp error "message" = JUndefined \/ getProp error "message" = JNull
  \/ exists m, getProp error "message" = JStr m.

(** The lower-cased message of [error], empty without one. *)
Definition lowerText (error : value) : string :=
  match getProp error "message" with
  | JStr m => JsString.toLowerCase m
  | _ => ""
  end.

(** What one run of a database handler amounts to, from the log [log] on:
    either it throws an [Error] and sends nothing, or it sends one request
    and then rethrows the error of the response, or, without one, returns
    at least one item. *)
Definition oneRequest {P : Platform} (supabase : SupabaseClient)
  (log : list request) (r : list request * outcome (list INodeExecutionData))
  : Prop :=
  (fst r = log /\ exists message, snd r = Throw (Error message)) \/
  exists q,
    fst r = (log ++ [q])%list /\
    if truthy (error (supabase log q))
    then snd r = Throw (newError (formatSupabaseError (error (supabase log q))))
    else exists items, snd r = Return items /\ items <> [].

(** The five operations on rows. *)
Definition rowOperations : list string :=
  ["create"; "read"; "update"; "delete"; "upsert"].

(** The operations on tables and columns, and the creation of an index. *)
Definition schemaOperations : list string :=
  ["createTable"; "dropTable"; "addColumn"; "dropColumn"; "createIndex"].

(** The message that [executeDatabaseOperation] gives to what it caught. *)
Definition databaseFailure {P : Platform} (e : thrown) : thrown :=
  Error ("Database operation failed: " ++ ToString (formatCaught e)).

(** What the loop of [execute] appends for an item, given what its [try]
    block did. *)
Definition recordsOf (itemIndex : nat) (o : outcome (list INodeExecutionData))
  : list INodeExecutionData :=
  match o with
  | Return results => results
  | Throw e => [errorRecord (messageOr "Unknown error occurred" e) itemIndex]
  end.

(** A backend that answers every request with the same error. *)
Definition failing (e : value) : SupabaseClient :=
  fun _ _ => {| data := JNull; error := e; count := JNull |}.

(** A batch of three reads whose credentials name a foreign host. *)
Definition foreignHost (continue : bool) : IExecuteFunctions :=
  {| getInputData := [JObj []; JObj []; JObj []];
     getCredentials :=
       {| host := "https://example.com"; serviceKey := "service-key" |};
     getNodeParameter :=
       fun _ => crudParameters "read" "users" "simple" "{}" [] [] "{}";
     continueOnFail := continue |}.

(** What the second item of [threeItems] throws. *)
Definition guardFailure : thrown :=
  Error "Database operation failed: At least one filter is required for delete operations to prevent accidental data loss".

(** One item that drops the column [columnName] of the table [tableName]. *)
Definition dropColumnItem (tableName columnName : string) : IExecuteFunctions :=
  executeFunctions [JObj []]
    (fun _ =>
       {| resource := "database"; operation := "dropColumn"; table := "";
          uiMode := "simple"; jsonData := "{}";
          columns_column := []; filters_filter := []; advancedFilters := "{}";
          returnFields := "*"; sort_sortField := [];
          limit := None; offset := None; onConflict := "";
          tableName := tableName; columnDefinitions_column := [];
          columnDefinition :=
            {| def_name := ""; def_type := ""; def_nullable := None;
               def_defaultValue := None; def_primaryKey := None;
               def_unique := None |};
          columnName := columnName; cascade := false;
          indexDefinition := noIndex; indexName := ""; customSql := "" |})
    false.

(** The call that [handleRead] makes for one filter and for one sort
    field. *)
Definition filterCall (filter : IRowFilter) : builder_call :=
  CallFilter (filter_column filter)
             (convertFilterOperator (filter_operator filter))
             (filter_value filter).

Definition orderCall (sortField : IRowSort) : builder_call :=
  CallOrder (sort_column sortField) (sort_ascending sortField).

(** One item that reads [users] with the filters [age > 25] and
    [status = active], sorted by [name]. *)
Definition filteredRead : IExecuteFunctions :=
  executeFunctions [JObj []]
    (fun _ =>
       {| resource := "database"; operation := "read"; table := "users";
          uiMode := "simple"; jsonData := "{}";
          columns_column := []; filters_filter := [ageFilter; statusFilter];
          advancedFilters := "{}";
          returnFields := "*";
          sort_sortField := [{| sort_column := "name"; sort_ascending := true |}];
          limit := None; offset := None; onConflict := "";
          tableName := ""; columnDefinitions_column := [];
          columnDefinition :=
            {| def_name := ""; def_type := ""; def_nullable := None;
               def_defaultValue := None; def_primaryKey := None;
               def_unique := None |};
          columnName := ""; cascade := false;
          indexDefinition := noIndex; indexName := ""; customSql := "" |})
    false.








(** The characters of the statements that drop a table or a column: word
    characters, the space and the double quote. *)
Definition plainChar (c : ascii) : Prop :=
  RegExp.in_class RegExp.word c = true \/ c = " "%char
  \/ c = ascii_of_nat 34.

Definition plainText (s : string) : Prop :=
  forall c, occursIn (String c "") s -> plainChar c.

(* ------------------------------------------------------------------ *)
(** ** [operations/storage/index.ts] *)

(** [s.split(sep)] for a separator of one code unit. *)
Fixpoint split (sep : ascii) (s : string) : list string :=
  match s with
  | EmptyString => [""]
  | String c rest =>
      if Ascii.eqb c sep then "" :: split sep rest
      else match split sep rest with
           | first :: others => String c first :: others
           | [] => [String c ""]
           end
  end.

(** The own enumerable properties that [...v] copies: none for a value
    that is no object. *)
Definition ownEnumerable (v : value) : list (string * value) :=
  match v with
  | JObj props => props
  | JArr items => indexed 0 items
  | JStr s => indexed 0 (chars s)
  | _ => []
  end.

(** The members of an object literal: [k: v] and [...v]. *)
Inductive member : Type :=
| Field (k : string) (v : value)
| Spread (v : value).

(** [{ m1, m2, ... }]: every member defines its properties in turn, a later
    one replacing the value of an earlier one of the same name. *)
Definition define (props : list (string * value)) (m : member)
  : list (string * value) :=
  match m with
  | Field k v => set_own k v props
  | Spread v =>
      fold_left (fun acc kv => set_own (fst kv) (snd kv) acc)
                (ownEnumerable v) props
  end.

Definition objectLiteral (members : list member) : value :=
  JObj (fold_left define members []).

(** [k in v] for a [v] that is an object; the values of the model inherit
    no property of that name. *)
Definition hasProperty (k : string) (props : list (string * value)) : bool :=
  existsb (fun kv => String.eqb k (fst kv)) props.

Module Storage.

(** [filePaths]: [string | string[]] *)
Inductive FilePaths : Type :=
| OnePath (path : string)
| ManyPaths (paths : list string).

(** The parameters of one item as [getNodeParameter] resolves them, the
    fallback of the call already applied ([None] where the fallback is
    [undefined]). *)
Record StorageParameters : Type := {
  bucket : string;
  folderPath : string;
  limit : option Z;
  offset : option Z;
  search : string;
  sortColumn : string;
  sortOrder : string;
  filePaths : FilePaths;
  fromPath : string;
  toPath : string;
  bucketName : string;
  isPublic : bool;
  fileSizeLimit : option Z;
  allowedMimeTypes : string;
  filePath : string;
  expiresIn : Z;
  download : bool
}.

(** The part of [IExecuteFunctions] that the handlers below use. *)
Record IExecuteFunctions : Type := {
  getNodeParameter : nat -> StorageParameters
}.

(** The calls on [supabase.storage] and on [supabase.storage.from(bucket)]. *)
Inductive call : Type :=
| List (bucket path : string) (options : value)
| Remove (bucket : string) (paths : list string)
| Move (bucket fromPath toPath : string)
| Copy (bucket fromPath toPath : string)
| CreateBucket (id : string) (options : value)
| DeleteBucket (id : string)
| ListBuckets
| GetBucket (id : string)
| CreateSignedUrl (bucket path : string) (expiresIn : Z) (options : value).

(** The storage side of a [SupabaseClient]; of its answer [{ data, error }]
    the handlers read [data] and [error]. *)
Definition StorageClient : Type := list call -> call -> response.

(** Handler computations over the log of the storage calls. *)
Definition S (A : Type) : Type := list call -> list call * outcome A.

Definition ret {A} (a : A) : S A := fun log => (log, Return a).
Definition throw {A} (e : thrown) : S A := fun log => (log, Throw e).
Definition bind {A B} (m : S A) (f : A -> S B) : S B :=
  fun log =>
    match m log with
    | (log', Return a) => f a log'
    | (log', Throw e) => (log', Throw e)
    end.
Definition try_catch {A} (m : S A) (handler : thrown -> S A) : S A :=
  fun log =>
    match m log with
    | (log', Return a) => (log', Return a)
    | (log', Throw e) => handler e log'
    end.
Definition await (supabase : StorageClient) (c : call) : S response :=
  fun log => ((log ++ [c])%list, Return (supabase log c)).

Declare Scope storage_scope.
Delimit Scope storage_scope with storage.
Notation "x <- m ;; k" := (bind m (fun x => k))
  (at level 61, m at next level, right associativity) : storage_scope.
Notation "m ;;; k" := (bind m (fun _ => k))
  (at level 61, right associativity) : storage_scope.
Local Open Scope storage_scope.

(** What the handlers take from Node.js: [path.dirname], [path.basename]
    and the message of the [TypeError] that the engine raises on a value. *)
Class Runtime : Type := {
  path_dirname : string -> string;
  path_basename : string -> string;
  TypeError_message : value -> string
}.

(** [if (error) throw new Error(formatSupabaseError(error))] *)
Definition throwIfError {P : Platform} (r : response) : S unit :=
  if truthy (error r) then throw (newError (formatSupabaseError (error r)))
  else ret tt.

(** [if (cond) throw new Error(message)] *)
Definition require (missing : bool) (message : string) : S unit :=
  if missing then throw (Error message) else ret tt.

Definition optNumber (field : string) (n : option Z)
  (options : list (string * value)) : list (string * value) :=
  match n with
  | Some n => set_own field (JNum n) options
  | None => options
  end.

Definition optString (field : string) (s : string)
  (options : list (string * value)) : list (string * value) :=
  if negb (JsString.isEmpty s) then set_own field (JStr s) options else options.

(** The [options] of [handleListFiles]. *)
Definition listOptions (p : StorageParameters) : value :=
  let options := optNumber "limit" (limit p) [] in
  let options := optNumber "offset" (offset p) options in
  let options := optString "search" (search p) options in
  JObj (if negb (JsString.isEmpty (sortColumn p))
           && negb (JsString.isEmpty (sortOrder p))
        then set_own "sortBy"
                     (JObj [("column", JStr (sortColumn p));
                            ("order", JStr (sortOrder p))])
                     options
        else options).

(** The items of a listing: [Array.isArray(data)] guards the loop. *)
Definition fileItems (p : StorageParameters) (d : value)
  : list INodeExecutionData :=
  match d with
  | JArr files =>
      List.map (fun file =>
                  {| json := objectLiteral
                               [Spread file;
                                Field "bucket" (JStr (bucket p));
                                Field "folderPath" (JStr (folderPath p))] |})
               files
  | _ => []
  end.

Definition handleListFiles {P : Platform} (this : IExecuteFunctions)
  (supabase : StorageClient) (itemIndex : nat) : S (list INodeExecutionData) :=
  let p := getNodeParameter this itemIndex in
  require (JsString.isEmpty (bucket p)) "Bucket name is required" ;;;
  r <- await supabase (List (bucket p) (folderPath p) (listOptions p)) ;;
  throwIfError r ;;;
  let returnData := fileItems p (data r) in
  ret (if (List.length returnData =? 0)%nat
       then [item [("operation", JStr "listFiles");
                   ("bucket", JStr (bucket p));
                   ("folderPath", JStr (folderPath p));
                   ("files", JArr []);
                   ("count", JNum 0);
                   ("message", JStr "No files found")]]
       else returnData).

(** [!filePaths]: an array is truthy, also the empty one. *)
Definition noPaths (filePaths : FilePaths) : bool :=
  match filePaths with
  | OnePath path => JsString.isEmpty path
  | ManyPaths _ => false
  end.

(** [Array.isArray(filePaths) ? filePaths : [filePaths]] *)
Definition pathsArray (filePaths : FilePaths) : list string :=
  match filePaths with
  | OnePath path => [path]
  | ManyPaths paths => paths
  end.

Definition handleDeleteFile {P : Platform} (this : IExecuteFunctions)
  (supabase : StorageClient) (itemIndex : nat) : S (list INodeExecutionData) :=
  let p := getNodeParameter this itemIndex in
  require (JsString.isEmpty (bucket p) || noPaths (filePaths p))
          "Bucket name and file path(s) are required" ;;;
  r <- await supabase (Remove (bucket p) (pathsArray (filePaths p))) ;;
  throwIfError r ;;;
  ret [item [("operation", JStr "deleteFile");
             ("bucket", JStr (bucket p));
             ("deletedFiles", JArr (List.map JStr (pathsArray (filePaths p))));
             ("result", data r);
             ("success", JBool true)]].

Definition handleMoveFile {P : Platform} (this : IExecuteFunctions)
  (supabase : StorageClient) (itemIndex : nat) : S (list INodeExecutionData) :=
  let p := getNodeParameter this itemIndex in
  require (JsString.isEmpty (bucket p) || JsString.isEmpty (fromPath p)
           || JsString.isEmpty (toPath p))
          "Bucket name, source path, and destination path are required" ;;;
  r <- await supabase (Move (bucket p) (fromPath p) (toPath p)) ;;
  throwIfError r ;;;
  ret [item [("operation", JStr "moveFile");
             ("bucket", JStr (bucket p));
             ("fromPath", JStr (fromPath p));
             ("toPath", JStr (toPath p));
             ("result", data r);
             ("success", JBool true)]].

Definition handleCopyFile {P : Platform} (this : IExecuteFunctions)
  (supabase : StorageClient) (itemIndex : nat) : S (list INodeExecutionData) :=
  let p := getNodeParameter this itemIndex in
  require (JsString.isEmpty (bucket p) || JsString.isEmpty (fromPath p)
           || JsString.isEmpty (toPath p))
          "Bucket name, source path, and destination path are required" ;;;
  r <- await supabase (Copy (bucket p) (fromPath p) (toPath p)) ;;
  throwIfError r ;;;
  ret [item [("operation", JStr "copyFile");
             ("bucket", JStr (bucket p));
             ("fromPath", JStr (fromPath p));
             ("toPath", JStr (toPath p));
             ("result", data r);
             ("success", JBool true)]].

(** [allowedMimeTypes.split(',').map(type => type.trim())] *)
Definition mimeTypes (allowedMimeTypes : string) : list string :=
  List.map JsString.trim (split "," allowedMimeTypes).

(** The [options] of [handleCreateBucket]. *)
Definition bucketOptions (p : StorageParameters) : value :=
  let options := [("public", JBool (isPublic p))] in
  let options := optNumber "fileSizeLimit" (fileSizeLimit p) options in
  JObj (if negb (JsString.isEmpty (allowedMimeTypes p))
        then set_own "allowedMimeTypes"
                     (JArr (List.map JStr (mimeTypes (allowedMimeTypes p))))
                     options
        else options).

Definition handleCreateBucket {P : Platform} (this : IExecuteFunctions)
  (supabase : StorageClient) (itemIndex : nat) : S (list INodeExecutionData) :=
  let p := getNodeParameter this itemIndex in
  require (JsString.isEmpty (bucketName p)) "Bucket name is required" ;;;
  let options := bucketOptions p in
  r <- await supabase (CreateBucket (bucketName p) options) ;;
  throwIfError r ;;;
  ret [item [("operation", JStr "createBucket");
             ("bucketName", JStr (bucketName p));
             ("options", options);
             ("result", data r);
             ("success", JBool true)]].

Definition handleDeleteBucket {P : Platform} (this : IExecuteFunctions)
  (supabase : StorageClient) (itemIndex : nat) : S (list INodeExecutionData) :=
  let p := getNodeParameter this itemIndex in
  require (JsString.isEmpty (bucketName p)) "Bucket name is required" ;;;
  r <- await supabase (DeleteBucket (bucketName p)) ;;
  throwIfError r ;;;
  ret [item [("operation", JStr "deleteBucket");
             ("bucketName", JStr (bucketName p));
             ("result", data r);
             ("success", JBool true)]].

Definition handleListBuckets {P : Platform} (this : IExecuteFunctions)
  (supabase : StorageClient) (itemIndex : nat) : S (list INodeExecutionData) :=
  r <- await supabase ListBuckets ;;
  throwIfError r ;;;
  let returnData := rowItems (data r) in
  ret (if (List.length returnData =? 0)%nat
       then [item [("operation", JStr "listBuckets");
                   ("buckets", JArr []);
                   ("count", JNum 0);
                   ("message", JStr "No buckets found")]]
       else returnData).

Definition handleGetBucketDetails {P : Platform} (this : IExecuteFunctions)
  (supabase : StorageClient) (itemIndex : nat) : S (list INodeExecutionData) :=
  let p := getNodeParameter this itemIndex in
  require (JsString.isEmpty (bucketName p)) "Bucket name is required" ;;;
  r <- await supabase (GetBucket (bucketName p)) ;;
  throwIfError r ;;;
  ret [{| json := objectLiteral
                    [Field "operation" (JStr "getBucketDetails");
                     Field "bucketName" (JStr (bucketName p));
                     Spread (data r)] |}].

(** [files.find(file => file.name === name)]; reading [name] of [null] or
    [undefined] is a [TypeError]. *)
Fixpoint find {R : Runtime} (name : string) (files : list value)
  : outcome value :=
  match files with
  | [] => Return JUndefined
  | file :: rest =>
      match file with
      | JUndefined | JNull => Throw (Error (TypeError_message file))
      | _ =>
          match getProp file "name" with
          | JStr s => if String.eqb s name then Return file else find name rest
          | _ => find name rest
          end
      end
  end.

(** [data?.find(...)]: [undefined] on [null] and [undefined], a
    [TypeError] on a value that has no [find]. *)
Definition optFind {R : Runtime} (name : string) (d : value) : outcome value :=
  match d with
  | JUndefined | JNull => Return JUndefined
  | JArr files => find name files
  | _ => Throw (Error (TypeError_message d))
  end.

Definition lift {A} (o : outcome A) : S A := fun log => (log, o).

Definition handleGetFileInfo {P : Platform} {R : Runtime}
  (this : IExecuteFunctions) (supabase : StorageClient) (itemIndex : nat)
  : S (list INodeExecutionData) :=
  let p := getNodeParameter this itemIndex in
  require (JsString.isEmpty (bucket p) || JsString.isEmpty (filePath p))
          "Bucket name and file path are required" ;;;
  r <- await supabase
         (List (bucket p) (path_dirname (filePath p))
               (JObj [("search", JStr (path_basename (filePath p)))])) ;;
  throwIfError r ;;;
  fileInfo <- lift (optFind (path_basename (filePath p)) (data r)) ;;
  require (negb (truthy fileInfo)) "File not found" ;;;
  ret [{| json := objectLiteral
                    [Field "operation" (JStr "getFileInfo");
                     Field "bucket" (JStr (bucket p));
                     Field "filePath" (JStr (filePath p));
                     Spread fileInfo] |}].

(** [data && k in data ? { k: data.k } : {}]; [in] on a value that is no
    object is a [TypeError]. *)
Definition optionalField {R : Runtime} (k : string) (d : value)
  : outcome value :=
  if truthy d then
    match d with
    | JObj props =>
        Return (if hasProperty k props then JObj [(k, lookup k props)]
                else JObj [])
    | JArr _ => Return (JObj [])
    | _ => Throw (Error (TypeError_message d))
    end
  else Return (JObj []).

(** [data?.signedUrl] *)
Definition optProp (d : value) (k : string) : value :=
  match d with
  | JUndefined | JNull => JUndefined
  | _ => getProp d k
  end.

Definition handleGenerateSignedUrl {P : Platform} {R : Runtime}
  (this : IExecuteFunctions) (supabase : StorageClient) (itemIndex : nat)
  : S (list INodeExecutionData) :=
  let p := getNodeParameter this itemIndex in
  require (JsString.isEmpty (bucket p) || JsString.isEmpty (filePath p))
          "Bucket name and file path are required" ;;;
  let options := JObj [("download", JBool (download p))] in
  r <- await supabase
         (CreateSignedUrl (bucket p) (filePath p) (expiresIn p) options) ;;
  throwIfError r ;;;
  path <- lift (optionalField "path" (data r)) ;;
  token <- lift (optionalField "token" (data r)) ;;
  ret [{| json := objectLiteral
                    [Field "operation" (JStr "generateSignedUrl");
                     Field "bucket" (JStr (bucket p));
                     Field "filePath" (JStr (filePath p));
                     Field "expiresIn" (JNum (expiresIn p));
                     Field "download" (JBool (download p));
                     Field "signedUrl" (optProp (data r) "signedUrl");
                     Spread path;
                     Spread token] |}].

(** The two handlers that move file contents ([Buffer], the HTTP helper,
    the MIME table) are taken as they are. *)
Class Transfers : Type := {
  handleUploadFile :
    IExecuteFunctions -> StorageClient -> nat -> S (list INodeExecutionData);
  handleDownloadFile :
    IExecuteFunctions -> StorageClient -> nat -> S (list INodeExecutionData)
}.

(** The message that [executeStorageOperation] gives to what it caught. *)
Definition storageFailure {P : Platform} (e : thrown) : thrown :=
  Error ("Storage operation failed: " ++ ToString (formatCaught e)).

Definition executeStorageOperation {P : Platform} {R : Runtime} {T : Transfers}
  (this : IExecuteFunctions) (supabase : StorageClient) (operation : string)
  (itemIndex : nat) : S (list INodeExecutionData) :=
  try_catch
    (if String.eqb operation "uploadFile"
     then handleUploadFile this supabase itemIndex
     else if String.eqb operation "downloadFile"
     then handleDownloadFile this supabase itemIndex
     else if String.eqb operation "listFiles"
     then handleListFiles this supabase itemIndex
     else if String.eqb operation "deleteFile"
     then handleDeleteFile this supabase itemIndex
     else if String.eqb operation "moveFile"
     then handleMoveFile this supabase itemIndex
     else if String.eqb operation "copyFile"
     then handleCopyFile this supabase itemIndex
     else if String.eqb operation "createBucket"
     then handleCreateBucket this supabase itemIndex
     else if String.eqb operation "deleteBucket"
     then handleDeleteBucket this supabase itemIndex
     else if String.eqb operation "listBuckets"
     then handleListBuckets this supabase itemIndex
     else if String.eqb operation "getBucketDetails"
     then handleGetBucketDetails this supabase itemIndex
     else if String.eqb operation "getFileInfo"
     then handleGetFileInfo this supabase itemIndex
     else if String.eqb operation "generateSignedUrl"
     then handleGenerateSignedUrl this supabase itemIndex
     else throw (Error ("Unknown storage operation: " ++ operation)))
    (fun e => throw (storageFailure e)).

(** *** Vocabulary of the properties *)

(** The twelve operations of the dispatcher. *)
Definition storageOperations : list string :=
  ["uploadFile"; "downloadFile"; "listFiles"; "deleteFile"; "moveFile";
   "copyFile"; "createBucket"; "deleteBucket"; "listBuckets";
   "getBucketDetails"; "getFileInfo"; "generateSignedUrl"].

(** A call that names the bucket, and the paths, that it works on. *)
Definition addressed (c : call) : Prop :=
  match c with
  | List bucket _ _ => bucket <> ""
  | Remove bucket _ => bucket <> ""
  | Move bucket fromPath toPath | Copy bucket fromPath toPath =>
      bucket <> "" /\ fromPath <> "" /\ toPath <> ""
  | CreateBucket id _ | DeleteBucket id | GetBucket id => id <> ""
  | ListBuckets => True
  | CreateSignedUrl bucket path _ _ => bucket <> "" /\ path <> ""
  end.

(** A computation that leaves the log as it is or appends one call that
    satisfies [R]. *)
Definition callsOnly {A} (R : call -> Prop) (log : list call)
  (r : list call * outcome A) : Prop :=
  fst r = log \/ exists c, fst r = (log ++ [c])%list /\ R c.

(** An object whose own properties have distinct names, as every object of
    the engine has. *)
Definition distinctKeys (v : value) : Prop :=
  match v with
  | JObj props => NoDup (List.map fst props)
  | _ => True
  end.


(** Sample inputs: a backend that answers every call with [d], and items
    of the storage operations. *)
Definition answering (d : value) : StorageClient :=
  fun _ _ => {| data := d; error := JNull; count := JUndefined |}.

Definition storageParameters (bucket : string) (filePaths : FilePaths)
  (bucketName allowedMimeTypes filePath : string) : StorageParameters :=
  {| bucket := bucket; folderPath := "reports"; limit := None; offset := None;
     search := ""; sortColumn := "name"; sortOrder := "asc";
     filePaths := filePaths; fromPath := ""; toPath := "";
     bucketName := bucketName; isPublic := false; fileSizeLimit := None;
     allowedMimeTypes := allowedMimeTypes; filePath := filePath;
     expiresIn := 3600; download := false |}.

Definition storageItem (p : StorageParameters) : IExecuteFunctions :=
  {| getNodeParameter := fun _ => p |}.

(** A runtime for the samples: a path that does not end in a slash is cut
    at its last slash. *)
Definition sampleRuntime : Runtime :=
  {| path_dirname :=
       fun s =>
         let dir := JsString.join "/" (removelast (split "/" s)) in
         if JsString.isEmpty dir then "." else dir;
     path_basename := fun s => last (split "/" s) "";
     TypeError_message := fun _ => "Cannot read properties" |}.

(** Two entries of a listing; the first carries a [bucket] of its own. *)
Definition reportFile : value :=
  JObj [("name", JStr "q1.pdf"); ("bucket", JStr "elsewhere")].
Definition notesFile : value :=
  JObj [("name", JStr "notes.txt"); ("id", JNum 7)].

(** The details of a bucket as a backend may report them, with an
    [operation] of their own. *)
Definition bucketDetails : value :=
  JObj [("id", JStr "docs"); ("public", JBool false);
        ("operation", JStr "audit")].

Definition noTransfers : Transfers :=
  {| handleUploadFile := fun _ _ _ => throw (Error "not available");
     handleDownloadFile := fun _ _ _ => throw (Error "not available") |}.

End Storage.

(* ================================================================== *)
(** * Properties *)

(** ** The matcher decides the language of the expression *)

Module RegExpFacts.
Import RegExp.

Lemma append_empty (s1 s2 : string) : s1 ++ s2 = "" -> s1 = "" /\ s2 = "".
Proof.
  destruct s1; simpl; intros E; [auto | discriminate].
Qed.

Lemma nullable_matches (r : regex) : nullable r = true -> matches r "".
Proof.
  induction r; simpl; intros E; try discriminate.
  - constructor.
  - apply andb_prop in E as [E1 E2].
    change "" with ("" ++ ""). constructor; auto.
  - apply orb_prop in E as [E | E]; [apply MAltL | apply MAltR]; auto.
  - constructor.
Qed.

Lemma matches_nullable (r : regex) (s : string) :
  matches r s -> s = "" -> nullable r = true.
Proof.
  induction 1; simpl; intros E; auto; try discriminate.
  - apply append_empty in E as [E1 E2]. rewrite IHmatches1, IHmatches2; auto.
  - rewrite IHmatches; auto.
  - rewrite IHmatches; auto using orb_true_r.
Qed.

Lemma deriv_sound (r : regex) :
  forall c s, matches (deriv c r) s -> matches r (String c s).
Proof.
  induction r; simpl; intros c s H.
  - inversion H.
  - inversion H.
  - destruct (in_class items c) eqn:E; inversion H; subst.
    constructor; exact E.
  - destruct (nullable r1) eqn:N.
    + inversion H; subst.
      * match goal with
        | [ H1 : matches (Seq _ _) _ |- _ ] => inversion H1; subst
        end.
        change (String c (s1 ++ s2)) with (String c s1 ++ s2).
        constructor; auto.
      * change (String c s) with ("" ++ String c s).
        constructor; auto using nullable_matches.
    + inversion H; subst.
      change (String c (s1 ++ s2)) with (String c s1 ++ s2).
      constructor; auto.
  - inversion H; subst; [apply MAltL | apply MAltR]; auto.
  - inversion H; subst.
    change (String c (s1 ++ s2)) with (String c s1 ++ s2).
    constructor; auto.
Qed.

Lemma deriv_complete (r : regex) (t : string) :
  matches r t -> forall c s, t = String c s -> matches (deriv c r) s.
Proof.
  induction 1; intros a u E; simpl.
  - discriminate.
  - injection E as -> <-. rewrite H. constructor.
  - destruct s1 as [| b s1'].
    + simpl in E. subst s2.
      rewrite (matches_nullable H eq_refl).
      apply MAltR. eauto.
    + simpl in E. injection E as -> <-.
      destruct (nullable r1).
      * apply MAltL. constructor; eauto.
      * constructor; eauto.
  - apply MAltL; eauto.
  - apply MAltR; eauto.
  - discriminate.
  - destruct s1 as [| b s1'].
    + simpl in E. eauto.
    + simpl in E. injection E as -> <-.
      constructor; eauto.
Qed.

Lemma test_matches (s : string) :
  forall r, test r s = true <-> matches r s.
Proof.
  induction s as [| c s IH]; intros r; simpl.
  - split; [apply nullable_matches | intros H; exact (matches_nullable H eq_refl)].
  - rewrite IH. split.
    + apply deriv_sound.
    + intros H. exact (deriv_complete H eq_refl).
Qed.

Lemma all_in_app (items : list class_item) (s1 s2 : string) :
  all_in items (s1 ++ s2) = all_in items s1 && all_in items s2.
Proof.
  induction s1; simpl; [reflexivity | rewrite IHs1, andb_assoc; reflexivity].
Qed.

Lemma star_class_all (r : regex) (s : string) :
  matches r s -> forall items, r = Star (Class items) -> all_in items s = true.
Proof.
  induction 1; intros its E; try discriminate.
  - reflexivity.
  - injection E as ->.
    rewrite all_in_app, (IHmatches2 its eq_refl), andb_true_r.
    inversion H; subst. simpl. rewrite andb_true_r. assumption.
Qed.

Lemma all_star_class (items : list class_item) (s : string) :
  all_in items s = true -> matches (Star (Class items)) s.
Proof.
  induction s as [| c s IH]; simpl; intros E.
  - constructor.
  - apply andb_prop in E as [E1 E2].
    change (String c s) with (String c "" ++ s).
    constructor; [constructor; assumption | auto].
Qed.

(** The language of [/^[a-zA-Z][a-zA-Z0-9_]*$/], code unit by code unit. *)
Lemma identifier_chars (s : string) :
  matches identifier s <->
  exists c rest, s = String c rest /\ in_class letter c = true
                 /\ all_in word rest = true.
Proof.
  unfold identifier. split.
  - intros H. inversion H; subst.
    match goal with
    | [ H1 : matches (Class _) _ |- _ ] => inversion H1; subst
    end.
    simpl. eexists _, _. split; [reflexivity |].
    split; [assumption | eapply star_class_all; eauto].
  - intros (c & rest & -> & L & W).
    change (String c rest) with (String c "" ++ rest).
    constructor; [constructor; assumption | apply all_star_class; assumption].
Qed.

End RegExpFacts.

(* ------------------------------------------------------------------ *)
(** ** Validators *)

Lemma acceptable_nonempty : ~ acceptable "".
Proof.
  intros [H _]. apply RegExpFacts.test_matches in H. discriminate H.
Qed.

Lemma validateTableName_ok (name : string) :
  validateTableName name = Return tt <-> acceptable name.
Proof.
  unfold validateTableName, acceptable.
  destruct name as [| c rest].
  - simpl. split; [discriminate |].
    intros H. destruct (acceptable_nonempty H).
  - cbn [JsString.isEmpty].
    rewrite <- RegExpFacts.test_matches.
    destruct (RegExp.test RegExp.identifier (String c rest)); cbn [negb].
    + destruct (Nat.ltb_spec 63 (String.length (String c rest))).
      * split; [discriminate | intros [_ L]; lia].
      * split; auto.
    + split; [discriminate | intros [E _]; discriminate E].
Qed.

Lemma validateColumnName_ok (name : string) :
  validateColumnName name = Return tt <-> acceptable name.
Proof.
  unfold validateColumnName, acceptable.
  destruct name as [| c rest].
  - simpl. split; [discriminate |].
    intros H. destruct (acceptable_nonempty H).
  - cbn [JsString.isEmpty].
    rewrite <- RegExpFacts.test_matches.
    destruct (RegExp.test RegExp.identifier (String c rest)); cbn [negb].
    + destruct (Nat.ltb_spec 63 (String.length (String c rest))).
      * split; [discriminate | intros [_ L]; lia].
      * split; auto.
    + split; [discriminate | intros [E _]; discriminate E].
Qed.

Lemma validateTableName_cases (name : string) :
  validateTableName name = Return tt \/
  exists message, validateTableName name = Throw (Error message).
Proof.
  unfold validateTableName.
  repeat match goal with
         | |- context [if ?b then _ else _] => destruct b
         end; eauto.
Qed.

Lemma validateColumnName_cases (name : string) :
  validateColumnName name = Return tt \/
  exists message, validateColumnName name = Throw (Error message).
Proof.
  unfold validateColumnName.
  repeat match goal with
         | |- context [if ?b then _ else _] => destruct b
         end; eauto.
Qed.

(** C4. [validateTableName] and [validateColumnName] return without error
    exactly on the strings that match [^[A-Za-z][A-Za-z0-9_]*$] and have at
    most 63 code units; on every other string each of them throws an
    [Error]. *)
Theorem validators_accept_exactly (name : string) :
  (validateTableName name = Return tt <-> acceptable name) /\
  (validateColumnName name = Return tt <-> acceptable name) /\
  (~ acceptable name ->
   (exists message, validateTableName name = Throw (Error message)) /\
   (exists message, validateColumnName name = Throw (Error message))).
Proof.
  split; [apply validateTableName_ok |].
  split; [apply validateColumnName_ok |].
  intros N. split.
  - destruct (validateTableName_cases name) as [E | E]; [| assumption].
    apply validateTableName_ok in E. contradiction.
  - destruct (validateColumnName_cases name) as [E | E]; [| assumption].
    apply validateColumnName_ok in E. contradiction.
Qed.

Lemma sixty_four_not_acceptable :
  ~ acceptable "a234567890123456789012345678901234567890123456789012345678901234".
Proof.
  intros [_ L]. simpl in L. lia.
Qed.

Lemma leading_digit_not_acceptable : ~ acceptable "1users".
Proof.
  intros [H _]. apply RegExpFacts.test_matches in H. discriminate H.
Qed.

(** The statement of C4 at the names [users], [1users] and at a name of 64
    code units. *)
Lemma validators_accept_exactly_witness :
  validateTableName "users" = Return tt /\
  (exists message, validateColumnName "1users" = Throw (Error message)) /\
  (exists message,
     validateTableName
       "a234567890123456789012345678901234567890123456789012345678901234"
     = Throw (Error message)).
Proof.
  split; [| split].
  - reflexivity.
  - exact (proj2 (proj2 (proj2 (validators_accept_exactly "1users"))
                    leading_digit_not_acceptable)).
  - exact (proj1 (proj2 (proj2 (validators_accept_exactly _))
                    sixty_four_not_acceptable)).
Defined.

(* ------------------------------------------------------------------ *)
(** ** Error normalisation *)

(** C5, as the code has it.  A falsy input ([null], [undefined], the empty
    string, [0], [false]) gives the sentinel; a non-empty string is returned
    unchanged; any other input gives the first truthy one of its [message],
    [error_description] and [details], and its JSON text when none is. *)
Theorem formatSupabaseError_order {P : Platform} (error : value) :
  (truthy error = false ->
   formatSupabaseError error = JStr "Unknown error occurred") /\
  (forall s, error = JStr s -> s <> "" -> formatSupabaseError error = JStr s) /\
  (truthy error = true -> (forall s, error <> JStr s) ->
   formatSupabaseError error =
   firstTruthy [getProp error "message";
                getProp error "error_description";
                getProp error "details"]
               (stringified error)).
Proof.
  unfold formatSupabaseError, stringified. split; [| split].
  - intros ->. reflexivity.
  - intros s -> N. destruct s; [contradiction | reflexivity].
  - intros -> N. cbn [negb firstTruthy].
    destruct error; try reflexivity.
    destruct (N s eq_refl).
Qed.

(** C5 at [null], [undefined], ["raw string"], [{message: "boom"}] and [{}]
    on the reference platform. *)
Lemma formatSupabaseError_order_witness :
  formatSupabaseError (P := refPlatform) JNull
  = JStr "Unknown error occurred" /\
  formatSupabaseError (P := refPlatform) JUndefined
  = JStr "Unknown error occurred" /\
  formatSupabaseError (P := refPlatform) (JStr "raw string")
  = JStr "raw string" /\
  formatSupabaseError (P := refPlatform) (JObj [("message", JStr "boom")])
  = JStr "boom" /\
  formatSupabaseError (P := refPlatform) (JObj []) = JStr "{}".
Proof.
  split; [| split; [| split; [| split]]].
  - exact (proj1 (formatSupabaseError_order (P := refPlatform) JNull) eq_refl).
  - exact (proj1 (formatSupabaseError_order (P := refPlatform) JUndefined) eq_refl).
  - apply (proj1 (proj2 (formatSupabaseError_order (P := refPlatform)
                           (JStr "raw string"))) _ eq_refl).
    discriminate.
  - apply (proj2 (proj2 (formatSupabaseError_order (P := refPlatform)
                           (JObj [("message", JStr "boom")])))); [reflexivity |].
    discriminate.
  - apply (proj2 (proj2 (formatSupabaseError_order (P := refPlatform) (JObj []))));
      [reflexivity | discriminate].
Defined.

(** The empty string is a string input, and it is not returned unchanged. *)
Lemma formatSupabaseError_empty_string :
  formatSupabaseError (P := refPlatform) (JStr "")
  = JStr "Unknown error occurred" /\
  formatSupabaseError (P := refPlatform) (JStr "") <> JStr "".
Proof.
  split; [reflexivity | discriminate].
Qed.

(* ------------------------------------------------------------------ *)
(** ** Credentials *)

Lemma isEmpty_true (s : string) : JsString.isEmpty s = true <-> s = "".
Proof.
  destruct s; simpl; split; congruence.
Qed.

Lemma isEmpty_false (s : string) : JsString.isEmpty s = false <-> s <> "".
Proof.
  destruct s; simpl; split; congruence.
Qed.

Lemma prefix_app (n s : string) :
  String.prefix n s = true <-> exists after, s = n ++ after.
Proof.
  revert s. induction n as [| c n IH]; intros [| d s]; simpl.
  - split; [intros _; exists ""; reflexivity | reflexivity].
  - split; [intros _; exists (String d s); reflexivity | reflexivity].
  - split; [discriminate | intros [a E]; discriminate E].
  - destruct (Ascii.ascii_dec c d) as [-> | N].
    + rewrite IH. split; intros [a E]; exists a; congruence.
    + split; [discriminate | intros [a E]; congruence].
Qed.

Lemma includes_occurs (s needle : string) :
  JsString.includes s needle = true <-> occursIn needle s.
Proof.
  unfold occursIn. induction s as [| c s IH]; cbn [JsString.includes].
  - rewrite orb_false_r, prefix_app. split.
    + intros [a E]. exists "", a. exact E.
    + intros (b & a & E). destruct b; [eauto | discriminate E].
  - rewrite orb_true_iff, IH, prefix_app. split.
    + intros [[a E] | (b & a & E)].
      * exists "", a. exact E.
      * exists (String c b), a. simpl. congruence.
    + intros (b & a & E). destruct b as [| d b].
      * left. exists a. exact E.
      * right. exists b, a. simpl in E. congruence.
Qed.

(** C9, as the code has it.  The four checks are made in this order and
    each of them throws: no host, no API key, a host that [new URL] does not
    parse, a host in which neither [supabase.co] nor [localhost] occurs.
    Credentials pass exactly when none of the four fires. *)
Theorem validateCredentials_checks {P : Platform}
  (credentials : ISupabaseCredentials) :
  (validateCredentials credentials = Return tt <->
   host credentials <> "" /\ serviceKey credentials <> "" /\
   URL_parses (host credentials) = true /\
   (occursIn "supabase.co" (host credentials) \/
    occursIn "localhost" (host credentials))) /\
  (host credentials = "" ->
   validateCredentials credentials
   = Throw (Error "Supabase Project URL is required")) /\
  (host credentials <> "" -> serviceKey credentials = "" ->
   validateCredentials credentials
   = Throw (Error "Supabase API Key is required")) /\
  (host credentials <> "" -> serviceKey credentials <> "" ->
   URL_parses (host credentials) = false ->
   validateCredentials credentials
   = Throw (Error "Invalid Supabase Project URL format")) /\
  (host credentials <> "" -> serviceKey credentials <> "" ->
   URL_parses (host credentials) = true ->
   ~ occursIn "supabase.co" (host credentials) ->
   ~ occursIn "localhost" (host credentials) ->
   validateCredentials credentials
   = Throw (Error "URL must be a valid Supabase project URL")).
Proof.
  unfold validateCredentials.
  rewrite <- !includes_occurs.
  destruct (JsString.isEmpty (host credentials)) eqn:EH.
  { apply isEmpty_true in EH.
    split; [split; [discriminate | tauto] |].
    repeat (split; [intros; try reflexivity; contradiction |]).
    intros; contradiction. }
  destruct (JsString.isEmpty (serviceKey credentials)) eqn:EK.
  { apply isEmpty_true in EK. apply isEmpty_false in EH.
    split; [split; [discriminate | tauto] |].
    split; [intros; contradiction |].
    split; [reflexivity |].
    split; intros; contradiction. }
  apply isEmpty_false in EH, EK.
  destruct (URL_parses (host credentials)) eqn:EU; cbn [negb].
  - destruct (JsString.includes (host credentials) "supabase.co") eqn:E1;
      [| destruct (JsString.includes (host credentials) "localhost") eqn:E2];
      cbn [negb andb].
    + split; [split; [tauto | reflexivity] |].
      split; [intros; contradiction |].
      split; [intros; contradiction |].
      split; [intros; discriminate |].
      intros _ _ _ N. destruct N. reflexivity.
    + split; [split; [tauto | reflexivity] |].
      split; [intros; contradiction |].
      split; [intros; contradiction |].
      split; [intros; discriminate |].
      intros _ _ _ _ N. destruct N. reflexivity.
    + split; [split; [discriminate |] |].
      * intros (_ & _ & _ & [D | D]); discriminate D.
      * split; [intros; contradiction |].
        split; [intros; contradiction |].
        split; [intros; discriminate |].
        reflexivity.
  - split; [split; [discriminate |] |].
    + intros (_ & _ & D & _); discriminate D.
    + split; [intros; contradiction |].
      split; [intros; contradiction |].
      split; [reflexivity |].
      intros; discriminate.
Qed.

Lemma example_com_has_no_marker :
  ~ occursIn "supabase.co" "https://example.com" /\
  ~ occursIn "localhost" "https://example.com".
Proof.
  rewrite <- !includes_occurs. split; discriminate.
Qed.

(** C9 at [https://abc.supabase.co] and at [https://example.com] on the
    reference platform. *)
Lemma validateCredentials_checks_witness :
  validateCredentials (P := refPlatform)
    {| host := "https://abc.supabase.co"; serviceKey := "service-key" |}
  = Return tt /\
  validateCredentials (P := refPlatform)
    {| host := "https://example.com"; serviceKey := "service-key" |}
  = Throw (Error "URL must be a valid Supabase project URL").
Proof.
  split.
  - apply (proj1 (validateCredentials_checks (P := refPlatform) _)).
    simpl. split; [discriminate |]. split; [discriminate |].
    split; [reflexivity |].
    left. exists "https://abc.", "". reflexivity.
  - apply (proj2 (proj2 (proj2 (proj2
             (validateCredentials_checks (P := refPlatform) _))))).
    + discriminate.
    + discriminate.
    + reflexivity.
    + exact (proj1 example_com_has_no_marker).
    + exact (proj2 example_com_has_no_marker).
Defined.

(** A parsable host with an API key that is rejected for its domain. *)
Lemma validateCredentials_rejects_other_domain :
  URL_parses (Platform := refPlatform) "https://example.com" = true /\
  validateCredentials (P := refPlatform)
    {| host := "https://example.com"; serviceKey := "service-key" |}
  = Throw (Error "URL must be a valid Supabase project URL").
Proof.
  split; reflexivity.
Qed.

(* ------------------------------------------------------------------ *)
(** ** Running the handlers *)

Lemma bind_lift_return {A B} (o : outcome A) (a : A) (k : A -> M B)
  (log : list request) :
  o = Return a -> bind (lift o) k log = k a log.
Proof.
  intros ->. reflexivity.
Qed.

Lemma bind_lift_throw {A B} (o : outcome A) (e : thrown) (k : A -> M B)
  (log : list request) :
  o = Throw e -> bind (lift o) k log = (log, Throw e).
Proof.
  intros ->. reflexivity.
Qed.

Lemma length_zero_nil {A} (l : list A) :
  (List.length l =? 0)%nat = true <-> l = [].
Proof.
  destruct l; simpl; split; congruence.
Qed.

Lemma length_zero_cons {A} (l : list A) :
  (List.length l =? 0)%nat = false <-> l <> [].
Proof.
  destruct l; simpl; split; congruence.
Qed.

(* ------------------------------------------------------------------ *)
(** ** The delete guard *)

(** C1. With an empty filter list [handleDelete] throws and the log of
    backend requests is unchanged; once the table name is valid the error is
    the one of the guard.  With at least one filter (and a valid table name)
    the guard does not fire: one delete request is sent whose chain applies
    the filters in their order, and the outcome is that of the response. *)
Theorem handleDelete_filter_guard {P : Platform} (this : IExecuteFunctions)
  (supabase : SupabaseClient) (itemIndex : nat) (log : list request) :
  (filters_filter (getNodeParameter this itemIndex) = [] ->
   (exists message,
      handleDelete this supabase itemIndex log = (log, Throw (Error message))) /\
   (validateTableName (table (getNodeParameter this itemIndex)) = Return tt ->
    handleDelete this supabase itemIndex log
    = (log, Throw (Error "At least one filter is required for delete operations to prevent accidental data loss")))) /\
  (filters_filter (getNodeParameter this itemIndex) <> [] ->
   validateTableName (table (getNodeParameter this itemIndex)) = Return tt ->
   let p := getNodeParameter this itemIndex in
   let q := From (table p) Delete
              (List.map (fun filter =>
                           CallFilter (filter_column filter)
                             (convertFilterOperator (filter_operator filter))
                             (filter_value filter))
                        (filters_filter p) ++ [CallSelect])%list in
   let r := supabase log q in
   handleDelete this supabase itemIndex log
   = ((log ++ [q])%list,
      if truthy (error r)
      then Throw (newError (formatSupabaseError (error r)))
      else Return [item [("data", data r); ("operation", JStr "delete");
                         ("table", JStr (table p));
                         ("deleted", js_or (optLength (data r)) (JNum 0))]])).
Proof.
  unfold handleDelete. split.
  - intros E. rewrite E.
    destruct (validateTableName_cases (table (getNodeParameter this itemIndex)))
      as [V | [message V]].
    + rewrite (bind_lift_return _ _ V). split; [eexists |]; reflexivity.
    + rewrite (bind_lift_throw _ _ V). split; [eauto |].
      intros V'. congruence.
  - intros N V. rewrite (bind_lift_return _ _ V).
    apply length_zero_cons in N.
    unfold bind, await, throwIfError, filterCalls, ret, throw.
    rewrite N.
    destruct (truthy (error _)); reflexivity.
Qed.

(** C1 on the table [users]: without filters, and with the filters
    [age > 25] and [status = active]. *)
Lemma handleDelete_filter_guard_witness :
  handleDelete (P := refPlatform)
    (crudItem "delete" "simple" "{}" [] [] "{}") (answering (JArr [alice])) 0 []
  = ([], Throw (Error "At least one filter is required for delete operations to prevent accidental data loss")) /\
  handleDelete (P := refPlatform)
    (crudItem "delete" "simple" "{}" [] [ageFilter; statusFilter] "{}")
    (answering (JArr [alice])) 0 []
  = ([From "users" Delete
        [CallFilter "age" "gt" (JNum 25);
         CallFilter "status" "eq" (JStr "active"); CallSelect]],
     Return [item [("data", JArr [alice]); ("operation", JStr "delete");
                   ("table", JStr "users"); ("deleted", JNum 1)]]).
Proof.
  split.
  - exact (proj2 (proj1 (handleDelete_filter_guard (P := refPlatform)
                           (crudItem "delete" "simple" "{}" [] [] "{}")
                           (answering (JArr [alice])) 0 []) eq_refl) eq_refl).
  - refine (eq_trans
              (proj2 (handleDelete_filter_guard (P := refPlatform)
                        (crudItem "delete" "simple" "{}" []
                                  [ageFilter; statusFilter] "{}")
                        (answering (JArr [alice])) 0 []) _ eq_refl) _).
    + discriminate.
    + reflexivity.
Defined.

(* ------------------------------------------------------------------ *)
(** ** Update and delete in advanced mode *)

(** C10. Neither [handleUpdate] nor [handleDelete] reads [advancedFilters]:
    replacing it by any text changes nothing.  So an item in advanced mode
    that leaves the simple-mode filter list empty sends, on update, a
    request whose chain has no filter call, and fails, on delete, with the
    error of the empty-filter guard. *)
Theorem advancedFilters_never_read {P : Platform} (this : IExecuteFunctions)
  (supabase : SupabaseClient) (itemIndex : nat) (log : list request) :
  (forall text,
     handleUpdate (mapParameters (setAdvancedFilters text) this)
                  supabase itemIndex log
     = handleUpdate this supabase itemIndex log) /\
  (forall text,
     handleDelete (mapParameters (setAdvancedFilters text) this)
                  supabase itemIndex log
     = handleDelete this supabase itemIndex log) /\
  (uiMode (getNodeParameter this itemIndex) = "advanced" ->
   filters_filter (getNodeParameter this itemIndex) = [] ->
   validateTableName (table (getNodeParameter this itemIndex)) = Return tt ->
   (forall row,
      JSON_parse (jsonData (getNodeParameter this itemIndex)) = Some row ->
      let p := getNodeParameter this itemIndex in
      let q := From (table p) (Update row) [CallSelect] in
      let r := supabase log q in
      handleUpdate this supabase itemIndex log
      = ((log ++ [q])%list,
         if truthy (error r)
         then Throw (newError (formatSupabaseError (error r)))
         else Return [item [("data", data r); ("operation", JStr "update");
                            ("table", JStr (table p));
                            ("updated", js_or (optLength (data r)) (JNum 0))]])) /\
   handleDelete this supabase itemIndex log
   = (log, Throw (Error "At least one filter is required for delete operations to prevent accidental data loss"))).
Proof.
  split; [reflexivity |]. split; [reflexivity |].
  intros A E V. split.
  - intros row J. unfold handleUpdate.
    rewrite (bind_lift_return _ _ V).
    assert (R : resolveData (getNodeParameter this itemIndex) = Return row).
    { unfold resolveData. rewrite A, J. reflexivity. }
    rewrite (bind_lift_return _ _ R). rewrite E.
    unfold bind, await, throwIfError, ret, throw. simpl.
    destruct (truthy (error _)); reflexivity.
  - unfold handleDelete. rewrite (bind_lift_return _ _ V), E. reflexivity.
Qed.

(** C10 on [users] in advanced mode with the advanced filters
    [{"id": 1}]: the update goes out unfiltered, the delete fails. *)
Lemma advancedFilters_never_read_witness :
  handleUpdate (P := refPlatform)
    (crudItem "update" "advanced" "{}" [] [] ("{" ++ dq ++ "id" ++ dq ++ ":1}"))
    (answering (JArr [alice; bob])) 0 []
  = ([From "users" (Update (JObj [])) [CallSelect]],
     Return [item [("data", JArr [alice; bob]); ("operation", JStr "update");
                   ("table", JStr "users"); ("updated", JNum 2)]]) /\
  handleDelete (P := refPlatform)
    (crudItem "delete" "advanced" "{}" [] [] ("{" ++ dq ++ "id" ++ dq ++ ":1}"))
    (answering (JArr [alice; bob])) 0 []
  = ([], Throw (Error "At least one filter is required for delete operations to prevent accidental data loss")).
Proof.
  split.
  - refine (eq_trans
              (proj1 (proj2 (proj2 (advancedFilters_never_read (P := refPlatform)
                 (crudItem "update" "advanced" "{}" [] []
                           ("{" ++ dq ++ "id" ++ dq ++ ":1}"))
                 (answering (JArr [alice; bob])) 0 [])) eq_refl eq_refl eq_refl)
                 (JObj []) eq_refl) _).
    reflexivity.
  - exact (proj2 (proj2 (proj2 (advancedFilters_never_read (P := refPlatform)
                 (crudItem "delete" "advanced" "{}" [] []
                           ("{" ++ dq ++ "id" ++ dq ++ ":1}"))
                 (answering (JArr [alice; bob])) 0 [])) eq_refl eq_refl eq_refl)).
Defined.

(* ------------------------------------------------------------------ *)
(** ** Reshaping the rows of a read *)

Lemma rowItems_rowsOf (d : value) :
  rowItems d = List.map (fun row => {| json := row |}) (rowsOf d).
Proof.
  destruct d; reflexivity.
Qed.

Lemma rowItems_length (d : value) :
  List.length (rowItems d) = List.length (rowsOf d).
Proof.
  rewrite rowItems_rowsOf. apply List.length_map.
Qed.

(** C7. Once the table name is valid and the filters are resolved,
    [handleRead] sends one select request.  When its response carries no
    error and no rows (and reports no count, the handler asking for none),
    the result is the single item
    [{data: [], count: 0, operation: "read", table, message}]; when it
    carries n >= 1 rows, the result is the n items of these rows, in the
    order of the response. *)
Theorem handleRead_reshape {P : Platform} (this : IExecuteFunctions)
  (supabase : SupabaseClient) (itemIndex : nat) (log : list request)
  (filters : list builder_call) :
  validateTableName (table (getNodeParameter this itemIndex)) = Return tt ->
  readFilters (getNodeParameter this itemIndex) = Return filters ->
  exists columns rest,
    let q := From (table (getNodeParameter this itemIndex)) (Select columns)
                  (filters ++ rest)%list in
    let r := supabase log q in
    fst (handleRead this supabase itemIndex log) = (log ++ [q])%list /\
    (truthy (error r) = false -> rowsOf (data r) = [] ->
     truthy (count r) = false ->
     snd (handleRead this supabase itemIndex log)
     = Return [item [("data", JArr []); ("count", JNum 0);
                     ("operation", JStr "read");
                     ("table", JStr (table (getNodeParameter this itemIndex)));
                     ("message", JStr "No records found")]]) /\
    (truthy (error r) = false -> rowsOf (data r) <> [] ->
     snd (handleRead this supabase itemIndex log)
     = Return (List.map (fun row => {| json := row |}) (rowsOf (data r))) /\
     forall results,
       snd (handleRead this supabase itemIndex log) = Return results ->
       List.length results = List.length (rowsOf (data r))).
Proof.
  intros V F. unfold handleRead.
  rewrite (bind_lift_return _ _ V), (bind_lift_return _ _ F).
  eexists _, _. cbv zeta.
  unfold bind, await, throwIfError, ret, throw.
  split; [| split].
  - destruct (truthy (error _)); reflexivity.
  - intros E Z C. rewrite E. cbn [fst snd].
    rewrite rowItems_length, Z. cbn [List.length Nat.eqb].
    unfold js_or. rewrite C. reflexivity.
  - intros E N. rewrite E. cbn [fst snd].
    rewrite rowItems_length.
    match goal with
    | |- context [(List.length ?l =? 0)%nat] =>
        rewrite (proj2 (length_zero_cons l) N)
    end.
    rewrite rowItems_rowsOf. split; [reflexivity |].
    intros results R. injection R as <-. apply List.length_map.
Qed.

(** C7 on [users]: a response without rows, and one with two rows. *)
Lemma handleRead_reshape_witness :
  snd (handleRead (P := refPlatform) (crudItem "read" "simple" "{}" [] [] "{}")
                  (answering (JArr [])) 0 [])
  = Return [item [("data", JArr []); ("count", JNum 0);
                  ("operation", JStr "read"); ("table", JStr "users");
                  ("message", JStr "No records found")]] /\
  snd (handleRead (P := refPlatform) (crudItem "read" "simple" "{}" [] [] "{}")
                  (answering (JArr [alice; bob])) 0 [])
  = Return [{| json := alice |}; {| json := bob |}].
Proof.
  split.
  - destruct (handleRead_reshape (P := refPlatform)
                (crudItem "read" "simple" "{}" [] [] "{}")
                (answering (JArr [])) 0 [] (filters := []) eq_refl eq_refl)
      as (columns & rest & _ & Z & _).
    exact (Z eq_refl eq_refl eq_refl).
  - destruct (handleRead_reshape (P := refPlatform)
                (crudItem "read" "simple" "{}" [] [] "{}")
                (answering (JArr [alice; bob])) 0 [] (filters := [])
                eq_refl eq_refl)
      as (columns & rest & _ & _ & N).
    refine (proj1 (N eq_refl _)). discriminate.
Defined.

(* ------------------------------------------------------------------ *)
(** ** Routing of custom queries *)

Lemma toLowerCase_app (a b : string) :
  JsString.toLowerCase (a ++ b)
  = JsString.toLowerCase a ++ JsString.toLowerCase b.
Proof.
  induction a; simpl; [reflexivity | rewrite IHa; reflexivity].
Qed.

Lemma toLowerCase_split (a : string) :
  forall t b, JsString.toLowerCase t = a ++ b ->
  exists head tail, t = head ++ tail /\ JsString.toLowerCase head = a.
Proof.
  induction a as [| c a IH]; intros t b E.
  - exists "", t. split; reflexivity.
  - destruct t as [| d t]; [discriminate E |].
    simpl in E. injection E as E1 E2.
    destruct (IH _ _ E2) as (h & tl & -> & L).
    exists (String d h), tl. simpl. split; congruence.
Qed.

Lemma startsWith_select (sql : string) :
  JsString.startsWith (JsString.toLowerCase (JsString.trim sql)) "select" = true
  <-> startsWithSelect sql.
Proof.
  unfold JsString.startsWith, startsWithSelect. rewrite prefix_app. split.
  - intros [after E]. exact (toLowerCase_split _ _ _ E).
  - intros (h & tl & -> & L). rewrite toLowerCase_app, L. eauto.
Qed.

(** C8. A blank query throws.  A query whose trimmed text starts with
    [select] in any case is sent to [exec_sql_select]; on a response without
    error the result has one item per row, or the one synthetic item when
    there is no row.  Every other query is sent to [exec_sql]; on a response
    without error the result is the one item
    [{operation, sql, result, success: true}]. *)
Theorem handleCustomQuery_routes {P : Platform} (this : IExecuteFunctions)
  (supabase : SupabaseClient) (itemIndex : nat) (log : list request) :
  (JsString.trim (customSql (getNodeParameter this itemIndex)) = "" ->
   handleCustomQuery this supabase itemIndex log
   = (log, Throw (Error "SQL query is required"))) /\
  (JsString.trim (customSql (getNodeParameter this itemIndex)) <> "" ->
   startsWithSelect (customSql (getNodeParameter this itemIndex)) ->
   let sql := customSql (getNodeParameter this itemIndex) in
   let r := supabase log (Rpc "exec_sql_select" sql) in
   handleCustomQuery this supabase itemIndex log
   = ((log ++ [Rpc "exec_sql_select" sql])%list,
      if truthy (error r)
      then Throw (newError (formatSupabaseError (error r)))
      else Return
             match rowsOf (data r) with
             | [] => [item [("data", JArr []);
                            ("operation", JStr "customQuery");
                            ("sql", JStr sql);
                            ("message",
                             JStr "Query executed successfully, no results returned")]]
             | rows => List.map (fun row => {| json := row |}) rows
             end)) /\
  (JsString.trim (customSql (getNodeParameter this itemIndex)) <> "" ->
   ~ startsWithSelect (customSql (getNodeParameter this itemIndex)) ->
   let sql := customSql (getNodeParameter this itemIndex) in
   let r := supabase log (Rpc "exec_sql" sql) in
   handleCustomQuery this supabase itemIndex log
   = ((log ++ [Rpc "exec_sql" sql])%list,
      if truthy (error r)
      then Throw (newError (formatSupabaseError (error r)))
      else Return [item [("operation", JStr "customQuery"); ("sql", JStr sql);
                         ("result", data r); ("success", JBool true)]])).
Proof.
  unfold handleCustomQuery. split; [| split].
  - intros B. apply isEmpty_true in B. rewrite B. reflexivity.
  - intros B S. apply isEmpty_false in B. apply startsWith_select in S.
    cbv zeta. unfold bind at 1. rewrite B. cbn [ret]. rewrite S.
    unfold bind, await, throwIfError, ret, throw.
    destruct (truthy (error _)); [reflexivity |].
    rewrite rowItems_rowsOf.
    destruct (rowsOf (data _)); reflexivity.
  - intros B S. apply isEmpty_false in B.
    rewrite <- startsWith_select in S. apply not_true_is_false in S.
    cbv zeta. unfold bind at 1. rewrite B. cbn [ret]. rewrite S.
    unfold bind, await, throwIfError, ret, throw.
    destruct (truthy (error _)); reflexivity.
Qed.

Lemma update_is_not_select : ~ startsWithSelect "UPDATE users SET age = 1".
Proof.
  rewrite <- startsWith_select. discriminate.
Qed.

(** C8 on a blank text, on a select in mixed case and on an update. *)
Lemma handleCustomQuery_routes_witness :
  handleCustomQuery (P := refPlatform) (queryItem "   ")
                    (answering (JArr [alice; bob])) 0 []
  = ([], Throw (Error "SQL query is required")) /\
  handleCustomQuery (P := refPlatform) (queryItem "  SeLeCT * from users ")
                    (answering (JArr [alice; bob])) 0 []
  = ([Rpc "exec_sql_select" "  SeLeCT * from users "],
     Return [{| json := alice |}; {| json := bob |}]) /\
  handleCustomQuery (P := refPlatform) (queryItem "UPDATE users SET age = 1")
                    (answering JNull) 0 []
  = ([Rpc "exec_sql" "UPDATE users SET age = 1"],
     Return [item [("operation", JStr "customQuery");
                   ("sql", JStr "UPDATE users SET age = 1");
                   ("result", JNull); ("success", JBool true)]]).
Proof.
  split; [| split].
  - exact (proj1 (handleCustomQuery_routes (P := refPlatform) (queryItem "   ")
                    (answering (JArr [alice; bob])) 0 []) eq_refl).
  - refine (eq_trans
              (proj1 (proj2 (handleCustomQuery_routes (P := refPlatform)
                               (queryItem "  SeLeCT * from users ")
                               (answering (JArr [alice; bob])) 0 [])) _ _) _).
    + discriminate.
    + exists "SeLeCT", " * from users". split; reflexivity.
    + reflexivity.
  - refine (eq_trans
              (proj2 (proj2 (handleCustomQuery_routes (P := refPlatform)
                               (queryItem "UPDATE users SET age = 1")
                               (answering JNull) 0 [])) _ _) _).
    + discriminate.
    + exact update_is_not_select.
    + reflexivity.
Defined.

(* ------------------------------------------------------------------ *)
(** ** The two modes of the row payload *)

Lemma set_own_fresh (k : string) (v : value) (acc : list (string * value)) :
  ~ In k (List.map fst acc) -> set_own k v acc = (acc ++ [(k, v)])%list.
Proof.
  induction acc as [| [k' v'] acc IH]; simpl; intros N.
  - reflexivity.
  - destruct (String.eqb_spec k k') as [-> | D].
    + destruct N. left. reflexivity.
    + rewrite IH; [reflexivity | tauto].
Qed.

Lemma columns_fold (m : list (string * value)) :
  forall acc,
    NoDup (List.map fst acc ++ List.map fst m) ->
    Forall (fun kv => fst kv <> "" /\ fst kv <> "__proto__"
                      /\ snd kv <> JUndefined) m ->
    fold_left
      (fun acc column =>
         if negb (JsString.isEmpty (col_name column))
            && match col_value column with JUndefined => false | _ => true end
         then assign acc (col_name column) (col_value column)
         else acc)
      (pairsOf m) acc
    = (acc ++ m)%list.
Proof.
  induction m as [| [k v] m IH]; intros acc D F; simpl.
  - rewrite app_nil_r. reflexivity.
  - inversion F as [| ? ? (N1 & N2 & N3) F']; subst. simpl in N1, N2, N3.
    apply isEmpty_false in N1. rewrite N1.
    assert (Dv : match v with JUndefined => false | _ => true end = true)
      by (destruct v; congruence).
    rewrite Dv. cbn [negb andb]. unfold assign.
    apply String.eqb_neq in N2. rewrite N2.
    simpl in D.
    rewrite set_own_fresh.
    + rewrite IH; [rewrite <- app_assoc; reflexivity | | assumption].
      rewrite List.map_app, <- app_assoc. exact D.
    + apply NoDup_remove_2 in D. intros I. apply D.
      apply in_or_app. left. exact I.
Qed.

Lemma columnsToObject_pairsOf (m : list (string * value)) :
  plainMapping m -> columnsToObject (pairsOf m) = JObj m.
Proof.
  intros [D F]. unfold columnsToObject.
  rewrite columns_fold; [reflexivity | exact D | exact F].
Qed.

(** [handleCreate] depends on the item only through its table and the row
    object that [resolveData] gives. *)
Lemma handleCreate_same_data {P : Platform} (this1 this2 : IExecuteFunctions)
  (supabase : SupabaseClient) (itemIndex : nat) (log : list request) :
  table (getNodeParameter this1 itemIndex)
  = table (getNodeParameter this2 itemIndex) ->
  resolveData (getNodeParameter this1 itemIndex)
  = resolveData (getNodeParameter this2 itemIndex) ->
  handleCreate this1 supabase itemIndex log
  = handleCreate this2 supabase itemIndex log.
Proof.
  intros T R. unfold handleCreate. rewrite T, R. reflexivity.
Qed.

(** C6, as the code has it.  For a mapping whose keys are distinct, none
    empty or [__proto__], and whose values are defined, and for a JSON
    serialisation that [JSON.parse] reads back as the mapping, the create
    handler resolves the same row object in both modes, behaves the same,
    and (the table name being valid) sends it in its insert request. *)
Theorem create_modes_agree {P : Platform} (simple advanced : IExecuteFunctions)
  (supabase : SupabaseClient) (itemIndex : nat) (log : list request)
  (m : list (string * value)) (text : string) :
  plainMapping m ->
  JSON_stringify (JObj m) = Some text ->
  JSON_parse text = Some (JObj m) ->
  uiMode (getNodeParameter simple itemIndex) = "simple" ->
  columns_column (getNodeParameter simple itemIndex) = pairsOf m ->
  uiMode (getNodeParameter advanced itemIndex) = "advanced" ->
  jsonData (getNodeParameter advanced itemIndex) = text ->
  table (getNodeParameter simple itemIndex)
  = table (getNodeParameter advanced itemIndex) ->
  resolveData (getNodeParameter simple itemIndex) = Return (JObj m) /\
  resolveData (getNodeParameter advanced itemIndex) = Return (JObj m) /\
  handleCreate simple supabase itemIndex log
  = handleCreate advanced supabase itemIndex log /\
  (validateTableName (table (getNodeParameter simple itemIndex)) = Return tt ->
   fst (handleCreate simple supabase itemIndex log)
   = (log ++ [From (table (getNodeParameter simple itemIndex))
                   (Insert (JObj m)) [CallSelect]])%list).
Proof.
  intros M _ J US C UA D T.
  assert (RS : resolveData (getNodeParameter simple itemIndex) = Return (JObj m)).
  { unfold resolveData. rewrite US, C. simpl.
    rewrite columnsToObject_pairsOf; [reflexivity | exact M]. }
  assert (RA : resolveData (getNodeParameter advanced itemIndex)
               = Return (JObj m)).
  { unfold resolveData. rewrite UA, D, J. reflexivity. }
  split; [exact RS |]. split; [exact RA |]. split.
  - apply handleCreate_same_data; [exact T | congruence].
  - intros V. unfold handleCreate.
    rewrite (bind_lift_return _ _ V), (bind_lift_return _ _ RS).
    unfold bind, await, throwIfError, ret, throw.
    destruct (truthy (error _)); reflexivity.
Qed.

Lemma xy_plain : plainMapping [("x", JStr "y")].
Proof.
  split.
  - constructor; [simpl; tauto | constructor].
  - constructor; [| constructor]. simpl. repeat split; discriminate.
Qed.

(** C6 on the one pair of name [x] and value [y], and on its JSON text. *)
Lemma create_modes_agree_witness :
  handleCreate (P := refPlatform)
    (crudItem "create" "simple" "{}" (pairsOf [("x", JStr "y")]) [] "{}")
    (answering (JArr [alice])) 0 []
  = handleCreate (P := refPlatform)
      (crudItem "create" "advanced" xyJson [] [] "{}")
      (answering (JArr [alice])) 0 [] /\
  fst (handleCreate (P := refPlatform)
         (crudItem "create" "simple" "{}" (pairsOf [("x", JStr "y")]) [] "{}")
         (answering (JArr [alice])) 0 [])
  = [From "users" (Insert (JObj [("x", JStr "y")])) [CallSelect]].
Proof.
  destruct (create_modes_agree (P := refPlatform)
              (crudItem "create" "simple" "{}" (pairsOf [("x", JStr "y")]) [] "{}")
              (crudItem "create" "advanced" xyJson [] [] "{}")
              (answering (JArr [alice])) 0 [] (m := [("x", JStr "y")])
              (text := xyJson)
              xy_plain eq_refl eq_refl eq_refl eq_refl eq_refl eq_refl eq_refl)
    as (_ & _ & E & S).
  split; [exact E | exact (S eq_refl)].
Defined.

(** A column pair with an empty name is skipped in simple mode, while the
    JSON text with that empty key keeps its entry: the two row objects
    differ. *)
Lemma create_modes_differ_on_empty_name :
  RefJSON.stringify (JObj [("", JStr "y")]) = Some emptyNameJson /\
  fst (handleCreate (P := refPlatform)
         (crudItem "create" "simple" "{}" (pairsOf [("", JStr "y")]) [] "{}")
         (answering (JArr [alice])) 0 [])
  = [From "users" (Insert (JObj [])) [CallSelect]] /\
  fst (handleCreate (P := refPlatform)
         (crudItem "create" "advanced" emptyNameJson [] [] "{}")
         (answering (JArr [alice])) 0 [])
  = [From "users" (Insert (JObj [("", JStr "y")])) [CallSelect]].
Proof.
  split; [| split]; reflexivity.
Qed.

(* ------------------------------------------------------------------ *)
(** ** The batch loop *)

Section ItemLoop.

Variable this : IExecuteFunctions.
Variable body : nat -> M (list INodeExecutionData).

Lemma itemLoop_step (remaining i : nat) (acc : list INodeExecutionData)
  (log : list request) :
  itemLoop this body (S remaining) i acc log
  = match body i log with
    | (log1, Return results) =>
        itemLoop this body remaining (S i) (acc ++ results)%list log1
    | (log1, Throw e) =>
        match onItemError this i acc e log1 with
        | (log2, Return acc') => itemLoop this body remaining (S i) acc' log2
        | (log2, Throw e') => (log2, Throw e')
        end
    end.
Proof.
  cbn [itemLoop]. unfold bind, try_catch, ret.
  destruct (body i log) as [log1 [results | e]]; reflexivity.
Qed.

(** In continue-on-failure mode the loop appends, for every item, either
    the one record the body returns or the error record of what it throws. *)
Lemma itemLoop_continue (out : nat -> INodeExecutionData) :
  continueOnFail this = true ->
  forall remaining start acc log,
    (forall i log', start <= i < start + remaining ->
       snd (body i log') = Return [out i] \/
       exists e, snd (body i log') = Throw e /\
                 out i = errorRecord (messageOr "Unknown error occurred" e) i) ->
    snd (itemLoop this body remaining start acc log)
    = Return (acc ++ List.map out (seq start remaining))%list.
Proof.
  intros C. induction remaining as [| remaining IH]; intros start acc log H.
  - simpl. rewrite app_nil_r. reflexivity.
  - rewrite itemLoop_step. cbn [seq List.map].
    destruct (H start log ltac:(lia)) as [R | (e & T & E)];
      destruct (body start log) as [log1 [results | e']]; simpl in R || simpl in T.
    + injection R as ->.
      rewrite IH by (intros; apply H; lia).
      rewrite <- app_assoc. reflexivity.
    + discriminate R.
    + discriminate T.
    + injection T as ->. unfold onItemError. rewrite C. unfold ret.
      rewrite IH by (intros; apply H; lia).
      rewrite <- app_assoc, E. reflexivity.
Qed.

(** Without continue-on-failure the loop stops at the first item whose body
    throws: it rethrows, and runs as if the batch ended with that item. *)
Lemma itemLoop_abort (k : nat) (e : thrown) :
  continueOnFail this = false ->
  (forall log', snd (body k log') = Throw e) ->
  forall remaining start acc log,
    start <= k < start + remaining ->
    (forall i log', start <= i < k ->
       exists results, snd (body i log') = Return results) ->
    snd (itemLoop this body remaining start acc log)
    = Throw (NodeOperationError (messageOr "Unknown error occurred" e) (Some k))
    /\ fst (itemLoop this body remaining start acc log)
       = fst (itemLoop this body (S k - start) start acc log).
Proof.
  intros C T. induction remaining as [| remaining IH];
    intros start acc log B H; [lia |].
  destruct (Nat.eq_dec start k) as [-> | N].
  - replace (S k - k) with 1 by lia.
    rewrite !itemLoop_step.
    specialize (T log).
    destruct (body k log) as [log1 [results | e']]; simpl in T;
      [discriminate T | injection T as ->].
    unfold onItemError. rewrite C. split; reflexivity.
  - replace (S k - start) with (S (k - start)) by lia.
    rewrite !itemLoop_step.
    destruct (H start log ltac:(lia)) as [results R].
    destruct (body start log) as [log1 [results' | e']]; simpl in R;
      [| discriminate R].
    replace (k - start) with (S k - S start) by lia.
    apply IH; [lia |]. intros; apply H; lia.
Qed.

End ItemLoop.

Lemma nth_error_map_seq {A} (f : nat -> A) (n i : nat) :
  i < n -> nth_error (List.map f (seq 0 n)) i = Some (f i).
Proof.
  intros L. rewrite nth_error_map, nth_error_seq.
  destruct (Nat.ltb_spec i n); [reflexivity | lia].
Qed.

(** C3. The credentials being valid, take a batch of n items in which item
    k throws [e] and every other item yields one record.  In
    continue-on-failure mode [execute] returns n records in input order:
    the record at k is [{error: message, itemIndex: k}], with the message of
    [e], and every other record is the one its item yielded.  Otherwise
    [execute] throws for item k, and the requests it has sent are those of
    the items up to k: no later item is processed. *)
Theorem execute_continue_on_failure {P : Platform} {K : Collaborators}
  (this : IExecuteFunctions) (records : nat -> INodeExecutionData)
  (k : nat) (e : thrown) (log : list request) :
  validateCredentials (getCredentials this) = Return tt ->
  k < List.length (getInputData this) ->
  (forall i log', i < List.length (getInputData this) -> i <> k ->
     snd (processItem this (createSupabaseClient (getCredentials this)) i log')
     = Return [records i]) ->
  (forall log',
     snd (processItem this (createSupabaseClient (getCredentials this)) k log')
     = Throw e) ->
  (continueOnFail this = true ->
   exists output,
     snd (execute this log) = Return [output] /\
     List.length output = List.length (getInputData this) /\
     nth_error output k
     = Some (errorRecord (messageOr "Unknown error occurred" e) k) /\
     forall i, i < List.length (getInputData this) -> i <> k ->
               nth_error output i = Some (records i)) /\
  (continueOnFail this = false ->
   snd (execute this log)
   = Throw (NodeOperationError (messageOr "Unknown error occurred" e) (Some k))
   /\ fst (execute this log)
      = fst (itemLoop this
               (processItem this (createSupabaseClient (getCredentials this)))
               (S k) 0 [] log)).
Proof.
  intros V B R T. unfold execute. rewrite V.
  set (supabase := createSupabaseClient (getCredentials this)) in *.
  set (n := List.length (getInputData this)) in *.
  set (out := fun i => if (i =? k)%nat
                       then errorRecord (messageOr "Unknown error occurred" e) k
                       else records i).
  split.
  - intros C.
    assert (L : snd (itemLoop this (processItem this supabase) n 0 [] log)
                = Return (List.map out (seq 0 n))).
    { apply (itemLoop_continue this (processItem this supabase) out C).
      intros i log' I. unfold out.
      destruct (Nat.eqb_spec i k) as [-> | N].
      - right. exists e. split; [apply T | reflexivity].
      - left. apply R; [lia | exact N]. }
    exists (List.map out (seq 0 n)). split; [| split; [| split]].
    + unfold bind.
      destruct (itemLoop this (processItem this supabase) n 0 [] log)
        as [log1 o]. simpl in L. subst o. reflexivity.
    + rewrite List.length_map, List.length_seq. reflexivity.
    + rewrite nth_error_map_seq by exact B. unfold out.
      rewrite Nat.eqb_refl. reflexivity.
    + intros i I N. rewrite nth_error_map_seq by exact I. unfold out.
      apply Nat.eqb_neq in N. rewrite N. reflexivity.
  - intros C.
    destruct (itemLoop_abort this (processItem this supabase) C T
                n (start := 0) [] log) as [A1 A2].
    + lia.
    + intros i log' I. exists [records i]. apply R; lia.
    + rewrite Nat.sub_0_r in A2. unfold bind.
      destruct (itemLoop this (processItem this supabase) n 0 [] log)
        as [log1 o]. simpl in A1, A2. subst o. split; [reflexivity | exact A2].
Qed.

(** C3 on three items of which the second, a delete without filters,
    throws. *)
Lemma execute_continue_on_failure_witness :
  (exists output,
     snd (execute (P := refPlatform) (K := sampleCollaborators)
                  (threeItems true) [])
     = Return [output] /\
     List.length output = 3 /\
     nth_error output 1
     = Some (errorRecord
               "Database operation failed: At least one filter is required for delete operations to prevent accidental data loss"
               1) /\
     nth_error output 0 = Some {| json := alice |} /\
     nth_error output 2 = Some {| json := alice |}) /\
  snd (execute (P := refPlatform) (K := sampleCollaborators)
               (threeItems false) [])
  = Throw (NodeOperationError
             "Database operation failed: At least one filter is required for delete operations to prevent accidental data loss"
             (Some 1)).
Proof.
  assert (B : 1 < 3) by lia.
  assert (R : forall continue i log', i < 3 -> i <> 1 ->
                snd (processItem (P := refPlatform) (K := sampleCollaborators)
                       (threeItems continue)
                       (createSupabaseClient (Collaborators := sampleCollaborators)
                          (getCredentials (threeItems continue)))
                       i log')
                = Return [{| json := alice |}]).
  { intros continue i log' L N.
    destruct i as [| [| [| i]]];
      [reflexivity | destruct (N eq_refl) | reflexivity | lia]. }
  split.
  - destruct (proj1 (execute_continue_on_failure
                       (P := refPlatform) (K := sampleCollaborators)
                       (threeItems true) (fun _ => {| json := alice |}) (k := 1)
                       (e := Error "Database operation failed: At least one filter is required for delete operations to prevent accidental data loss")
                       [] eq_refl B (R true) (fun log' => eq_refl))
                    eq_refl)
      as (output & E & L & Nk & Nothers).
    exists output. split; [exact E |]. split; [exact L |].
    split; [exact Nk |]. split.
    + apply Nothers; [simpl; lia | discriminate].
    + apply Nothers; [simpl; lia | discriminate].
  - exact (proj1 (proj2 (execute_continue_on_failure
                       (P := refPlatform) (K := sampleCollaborators)
                       (threeItems false) (fun _ => {| json := alice |}) (k := 1)
                       (e := Error "Database operation failed: At least one filter is required for delete operations to prevent accidental data loss")
                       [] eq_refl B (R false) (fun log' => eq_refl))
                    eq_refl)).
Defined.

(* ------------------------------------------------------------------ *)
(** ** Identifiers in generated SQL *)

Lemma columnDefs_acceptable (columns : list IColumnDefinition) :
  forall defs, columnDefs columns = Return defs ->
  Forall (fun column => acceptable (def_name column)) columns.
Proof.
  induction columns as [| column rest IH]; intros defs E; simpl in E.
  - constructor.
  - destruct (validateColumnName (def_name column)) as [[] |] eqn:V;
      [| discriminate E].
    destruct (columnDefs rest) as [defs' |] eqn:R; [| discriminate E].
    constructor; [apply validateColumnName_ok; exact V | eauto].
Qed.

(** The handlers for tables and columns send their statement only after
    every name in it has passed its validator. *)
Lemma table_and_column_names_validated {P : Platform}
  (this : IExecuteFunctions) (supabase : SupabaseClient) (itemIndex : nat)
  (log : list request) :
  (fst (handleCreateTable this supabase itemIndex log) <> log ->
   acceptable (tableName (getNodeParameter this itemIndex)) /\
   Forall (fun column => acceptable (def_name column))
          (columnDefinitions_column (getNodeParameter this itemIndex))) /\
  (fst (handleDropTable this supabase itemIndex log) <> log ->
   acceptable (tableName (getNodeParameter this itemIndex))) /\
  (fst (handleAddColumn this supabase itemIndex log) <> log ->
   acceptable (tableName (getNodeParameter this itemIndex)) /\
   acceptable (def_name (columnDefinition (getNodeParameter this itemIndex)))) /\
  (fst (handleDropColumn this supabase itemIndex log) <> log ->
   acceptable (tableName (getNodeParameter this itemIndex)) /\
   acceptable (columnName (getNodeParameter this itemIndex))) /\
  (fst (handleCreateIndex this supabase itemIndex log) <> log ->
   acceptable (tableName (getNodeParameter this itemIndex))).
Proof.
  unfold handleCreateTable, handleDropTable, handleAddColumn,
    handleDropColumn, handleCreateIndex.
  destruct (validateTableName_cases (tableName (getNodeParameter this itemIndex)))
    as [V | [m V]].
  - pose proof (proj1 (validateTableName_ok _) V) as A.
    rewrite !(bind_lift_return _ _ V).
    split; [| split; [| split; [| split]]]; try (intros _; exact A).
    + intros N. split; [exact A |].
      unfold bind at 1 in N.
      destruct (List.length _ =? 0)%nat; [destruct N; reflexivity |].
      cbv beta iota delta [ret] in N.
      destruct (columnDefs (columnDefinitions_column
                              (getNodeParameter this itemIndex)))
        as [defs | e] eqn:D.
      * eapply columnDefs_acceptable; eauto.
      * destruct N; reflexivity.
    + intros N. split; [exact A |].
      destruct (validateColumnName_cases
                  (def_name (columnDefinition (getNodeParameter this itemIndex))))
        as [C | [m C]].
      * apply validateColumnName_ok; exact C.
      * rewrite (bind_lift_throw _ _ C) in N. destruct N; reflexivity.
    + intros N. split; [exact A |].
      destruct (validateColumnName_cases
                  (columnName (getNodeParameter this itemIndex)))
        as [C | [m C]].
      * apply validateColumnName_ok; exact C.
      * rewrite (bind_lift_throw _ _ C) in N. destruct N; reflexivity.
  - rewrite !(bind_lift_throw _ _ V). cbn [fst].
    split; [| split; [| split; [| split]]]; intros N; destruct N; reflexivity.
Qed.

(** C2 at its failing inputs.  [injectedName] and [injectedColumn] pass
    neither validator, yet [handleDropIndex] and [handleCreateIndex] put
    them between double quotes into the statement they send. *)
Theorem index_identifiers_not_validated :
  validateTableName injectedName <> Return tt /\
  validateColumnName injectedName <> Return tt /\
  validateColumnName injectedColumn <> Return tt /\
  fst (handleDropIndex (P := refPlatform) (dropIndexItem injectedName)
                       (answering JNull) 0 [])
  = [Rpc "exec_sql" ("DROP INDEX " ++ dq ++ injectedName ++ dq)] /\
  fst (handleCreateIndex (P := refPlatform)
         (createIndexItem {| idx_name := injectedName;
                             idx_columns := [injectedColumn];
                             idx_unique := None; idx_method := None |})
         (answering JNull) 0 [])
  = [Rpc "exec_sql"
         ("CREATE INDEX " ++ dq ++ injectedName ++ dq ++ " ON " ++ dq ++ "users"
          ++ dq ++ " (" ++ dq ++ injectedColumn ++ dq ++ ")")].
Proof.
  split; [discriminate |]. split; [discriminate |]. split; [discriminate |].
  split; reflexivity.
Qed.

(** [handleDropIndex] checks only that the name is not empty: any such
    name goes into the statement. *)
Lemma handleDropIndex_any_name {P : Platform} (this : IExecuteFunctions)
  (supabase : SupabaseClient) (itemIndex : nat) (log : list request) :
  indexName (getNodeParameter this itemIndex) <> "" ->
  fst (handleDropIndex this supabase itemIndex log)
  = (log ++ [Rpc "exec_sql"
               ("DROP INDEX " ++ dq ++ indexName (getNodeParameter this itemIndex)
                ++ dq
                ++ (if cascade (getNodeParameter this itemIndex)
                    then " CASCADE" else ""))])%list.
Proof.
  intros N. apply isEmpty_false in N. unfold handleDropIndex.
  unfold exec_sql, bind, await, throwIfError, ret, throw. rewrite N.
  destruct (truthy (error _)); reflexivity.
Qed.

(* ------------------------------------------------------------------ *)
(** ** The reference platform reads its own JSON texts back *)

Module RefJSONFacts.
Import RefJSON.
Unset Implicit Arguments.

Lemma append_assoc (a b c : string) : (a ++ b) ++ c = a ++ (b ++ c).
Proof.
  induction a; simpl; [reflexivity | rewrite IHa; reflexivity].
Qed.

Lemma parseChars_escapeChar (c : ascii) (tail : string) :
  parseChars (escapeChar c ++ tail)
  = match parseChars tail with
    | Some (body, after) => Some (String c body, after)
    | None => None
    end.
Proof.
  destruct c as [[] [] [] [] [] [] [] []]; reflexivity.
Qed.

Lemma parseChars_escape (s rest : string) :
  parseChars (escape s ++ String (ascii_of_nat 34) rest) = Some (s, rest).
Proof.
  induction s as [| c s IH]; simpl.
  - reflexivity.
  - rewrite append_assoc, parseChars_escapeChar, IH. reflexivity.
Qed.

Lemma parseDigits_digit (k : nat) (acc : Z) (s : string) :
  k < 10 ->
  parseDigits acc (String (ascii_of_nat (48 + k)) s)
  = parseDigits (10 * acc + Z.of_nat k) s.
Proof.
  intros L.
  do 10 (destruct k as [| k]; [reflexivity |]). lia.
Qed.

Lemma parseDigits_uint (d : Decimal.uint) :
  forall acc rest, notNumeric rest ->
  parseDigits acc (NilEmpty.string_of_uint d ++ rest) = (uintValue acc d, rest).
Proof.
  induction d; intros acc rest N;
    cbn [NilEmpty.string_of_uint append uintValue].
  - destruct rest as [| c r]; [reflexivity |].
    simpl. destruct N as [N _]. unfold isDigit in N. rewrite N. reflexivity.
  - rewrite (parseDigits_digit 0) by lia. rewrite IHd by exact N; f_equal; f_equal; lia.
  - rewrite (parseDigits_digit 1) by lia. rewrite IHd by exact N; f_equal; f_equal; lia.
  - rewrite (parseDigits_digit 2) by lia. rewrite IHd by exact N; f_equal; f_equal; lia.
  - rewrite (parseDigits_digit 3) by lia. rewrite IHd by exact N; f_equal; f_equal; lia.
  - rewrite (parseDigits_digit 4) by lia. rewrite IHd by exact N; f_equal; f_equal; lia.
  - rewrite (parseDigits_digit 5) by lia. rewrite IHd by exact N; f_equal; f_equal; lia.
  - rewrite (parseDigits_digit 6) by lia. rewrite IHd by exact N; f_equal; f_equal; lia.
  - rewrite (parseDigits_digit 7) by lia. rewrite IHd by exact N; f_equal; f_equal; lia.
  - rewrite (parseDigits_digit 8) by lia. rewrite IHd by exact N; f_equal; f_equal; lia.
  - rewrite (parseDigits_digit 9) by lia. rewrite IHd by exact N; f_equal; f_equal; lia.
Qed.

Lemma uintValue_acc (d : Decimal.uint) :
  forall acc, uintValue (Z.pos acc) d = Z.pos (Pos.of_uint_acc d acc).
Proof.
  induction d; intros acc; cbn [uintValue Pos.of_uint_acc]; try reflexivity;
    rewrite <- IHd; f_equal; lia.
Qed.

Lemma uintValue_of_uint (d : Decimal.uint) :
  uintValue 0 d = Z.of_N (Pos.of_uint d).
Proof.
  induction d; cbn [uintValue Pos.of_uint Z.of_N]; try reflexivity;
    try exact IHd; rewrite <- uintValue_acc; reflexivity.
Qed.

Lemma to_uint_normal (p : positive) :
  Decimal.unorm (Pos.to_uint p) = Pos.to_uint p.
Proof.
  rewrite <- (DecimalPos.Unsigned.to_of (Pos.to_uint p)).
  rewrite DecimalPos.Unsigned.of_to. reflexivity.
Qed.

Lemma to_uint_head (p : positive) :
  exists c t, NilEmpty.string_of_uint (Pos.to_uint p) = String c t
              /\ JsString.between 49 57 c = true.
Proof.
  pose proof (to_uint_normal p) as U.
  pose proof (DecimalPos.Unsigned.to_uint_nonzero p) as Z.
  pose proof (DecimalPos.Unsigned.to_uint_nonnil p) as N.
  destruct (Pos.to_uint p) as [| d | d | d | d | d | d | d | d | d | d];
    cbn [NilEmpty.string_of_uint]; try (eexists _, _; split; reflexivity).
  - destruct (N eq_refl).
  - exfalso. rewrite DecimalFacts.unorm_D0 in U.
    assert (D : d = Decimal.Nil \/ d <> Decimal.Nil)
      by (destruct d; [left; reflexivity | right; discriminate ..]).
    destruct D as [-> | D].
    + apply Z. reflexivity.
    + pose proof (DecimalFacts.nb_digits_unorm d D) as L.
      rewrite U in L. simpl in L. lia.
Qed.

Lemma delimited_notNumeric (rest : string) :
  delimited rest = true -> notNumeric rest.
Proof.
  destruct rest as [| c r]; simpl; [trivial |].
  unfold isDigit, JsString.between.
  rewrite !orb_true_iff, !Nat.eqb_eq. intros [[E | E] | E]; rewrite E;
    repeat split; (reflexivity || lia).
Qed.

Lemma parseNat_zero (rest : string) :
  notNumeric rest -> parseNat (String "0" rest) = Some (0%Z, rest).
Proof.
  destruct rest as [| c r]; [reflexivity |].
  intros (D & N1 & N2 & N3). cbn [parseNat].
  change (JsString.code "0" =? 48)%nat with true. cbv iota.
  unfold isDigit in D. rewrite D.
  apply Nat.eqb_neq in N1, N2, N3. rewrite N1, N2, N3. reflexivity.
Qed.

Lemma parseNat_pos (p : positive) (rest : string) :
  notNumeric rest ->
  parseNat (NilEmpty.string_of_uint (Pos.to_uint p) ++ rest)
  = Some (Z.pos p, rest).
Proof.
  intros N.
  pose proof (parseDigits_uint (Pos.to_uint p) 0 rest N) as D.
  rewrite uintValue_of_uint, DecimalPos.Unsigned.of_to in D.
  destruct (to_uint_head p) as (c & t & E & B).
  rewrite E in D |- *. cbn [append] in D |- *.
  unfold parseNat. rewrite D.
  assert (Z48 : (JsString.code c =? 48)%nat = false).
  { unfold JsString.between in B. apply andb_prop in B as [B1 _].
    apply Nat.leb_le in B1. apply Nat.eqb_neq. lia. }
  rewrite Z48, B.
  destruct rest as [| d r]; [reflexivity |].
  destruct N as (_ & N1 & N2 & N3).
  apply Nat.eqb_neq in N1, N2, N3. rewrite N1, N2, N3. reflexivity.
Qed.

Lemma parseValue_array (fuel : nat) (t : string) :
  parseValue (S fuel) (String "[" t)
  = match skipws t with
    | String d rest' =>
        if (JsString.code d =? 93)%nat then Some (JArr [], rest')
        else parseElements fuel [] t
    | EmptyString => None
    end.
Proof. reflexivity. Qed.

Lemma parseValue_object (fuel : nat) (t : string) :
  parseValue (S fuel) (String "{" t)
  = match skipws t with
    | String d rest' =>
        if (JsString.code d =? 125)%nat then Some (JObj [], rest')
        else parseMembers fuel [] t
    | EmptyString => None
    end.
Proof. reflexivity. Qed.

Lemma parseValue_string (fuel : nat) (t : string) :
  parseValue (S fuel) (String (ascii_of_nat 34) t)
  = match parseChars t with
    | Some (body, after) => Some (JStr body, after)
    | None => None
    end.
Proof. reflexivity. Qed.

Lemma parseValue_minus (fuel : nat) (t : string) :
  parseValue (S fuel) (String "-" t)
  = match parseNat t with
    | Some (k, after) => Some (JNum (- k), after)
    | None => None
    end.
Proof. reflexivity. Qed.

Lemma parseValue_digit (fuel : nat) (c : ascii) (t : string) :
  JsString.between 48 57 c = true ->
  parseValue (S fuel) (String c t)
  = match parseNat (String c t) with
    | Some (k, after) => Some (JNum k, after)
    | None => None
    end.
Proof.
  destruct c as [[] [] [] [] [] [] [] []]; intros B;
    (discriminate B || reflexivity).
Qed.

Lemma parseValue_true (fuel : nat) (rest : string) :
  parseValue (S fuel) ("true" ++ rest) = Some (JBool true, rest).
Proof. reflexivity. Qed.

Lemma parseValue_false (fuel : nat) (rest : string) :
  parseValue (S fuel) ("false" ++ rest) = Some (JBool false, rest).
Proof. reflexivity. Qed.

Lemma parseValue_null (fuel : nat) (rest : string) :
  parseValue (S fuel) ("null" ++ rest) = Some (JNull, rest).
Proof. reflexivity. Qed.

Lemma parseElements_S (fuel : nat) (acc : list value) (s : string) :
  parseElements (S fuel) acc s
  = match parseValue fuel s with
    | Some (v, after) =>
        match skipws after with
        | String d rest =>
            if (JsString.code d =? 44)%nat
            then parseElements fuel (acc ++ [v])%list rest
            else if (JsString.code d =? 93)%nat
            then Some (JArr (acc ++ [v])%list, rest)
            else None
        | EmptyString => None
        end
    | None => None
    end.
Proof. reflexivity. Qed.

Lemma parseMembers_quote (fuel : nat) (acc : list (string * value)) (t : string) :
  parseMembers (S fuel) acc (String (ascii_of_nat 34) t)
  = match parseChars t with
    | Some (key, after) =>
        match skipws after with
        | String colon rest1 =>
            if (JsString.code colon =? 58)%nat then
              match parseValue fuel rest1 with
              | Some (v, after1) =>
                  match skipws after1 with
                  | String d rest2 =>
                      if (JsString.code d =? 44)%nat
                      then parseMembers fuel (set_own key v acc) rest2
                      else if (JsString.code d =? 125)%nat
                      then Some (JObj (set_own key v acc), rest2)
                      else None
                  | EmptyString => None
                  end
              | None => None
              end
            else None
        | EmptyString => None
        end
    | None => None
    end.
Proof. reflexivity. Qed.

Lemma value_induction (Q : value -> Prop) :
  Q JUndefined -> Q JNull -> (forall b, Q (JBool b)) -> (forall n, Q (JNum n)) ->
  (forall s, Q (JStr s)) ->
  (forall items, Forall Q items -> Q (JArr items)) ->
  (forall props, Forall (fun kv => Q (snd kv)) props -> Q (JObj props)) ->
  forall v, Q v.
Proof.
  intros HU HN HB HZ HS HA HO.
  fix IH 1.
  intros [| | b | n | s | items | props];
    [exact HU | exact HN | apply HB | apply HZ | apply HS | |].
  - apply HA. induction items as [| x xs IHxs]; constructor; [apply IH | exact IHxs].
  - apply HO. induction props as [| kv ps IHps]; constructor;
      [apply IH | exact IHps].
Qed.

Lemma nodupb_NoDup (keys : list string) : nodupb keys = true <-> NoDup keys.
Proof.
  induction keys as [| k rest IH]; simpl.
  - split; [constructor | reflexivity].
  - rewrite andb_true_iff, negb_true_iff, IH. split.
    + intros [E D]. constructor; [| exact D].
      intros I. apply not_true_iff_false in E. apply E.
      apply existsb_exists. exists k. split; [exact I | apply String.eqb_refl].
    + intros D. inversion D as [| ? ? N D']; subst. split; [| exact D'].
      apply not_true_iff_false. intros E. apply existsb_exists in E.
      destruct E as (k' & I & E). apply String.eqb_eq in E. subst. contradiction.
Qed.

Lemma ofZ_pos (p : positive) :
  JsString.ofZ (Z.pos p) = NilEmpty.string_of_uint (Pos.to_uint p).
Proof.
  unfold JsString.ofZ. cbn [Z.to_int NilZero.string_of_int].
  unfold NilZero.string_of_uint.
  pose proof (DecimalPos.Unsigned.to_uint_nonnil p) as N.
  destruct (Pos.to_uint p); [destruct (N eq_refl) | reflexivity ..].
Qed.

Lemma ofZ_neg (p : positive) :
  JsString.ofZ (Z.neg p) = String "-" (NilEmpty.string_of_uint (Pos.to_uint p)).
Proof.
  unfold JsString.ofZ. cbn [Z.to_int NilZero.string_of_int].
  unfold NilZero.string_of_uint.
  pose proof (DecimalPos.Unsigned.to_uint_nonnil p) as N.
  destruct (Pos.to_uint p); [destruct (N eq_refl) | reflexivity ..].
Qed.

Lemma digit_facts (c : ascii) :
  JsString.between 49 57 c = true ->
  isJsonSpace c = false /\ (JsString.code c =? 93)%nat = false
  /\ JsString.between 48 57 c = true.
Proof.
  destruct c as [[] [] [] [] [] [] [] []]; intros B;
    (discriminate B || (repeat split; reflexivity)).
Qed.

Lemma skipws_head (c : ascii) (t : string) :
  isJsonSpace c = false -> skipws (String c t) = String c t.
Proof.
  intros E. simpl. rewrite E. reflexivity.
Qed.

Lemma text_head (v : value) :
  wellFormed v = true ->
  exists c t, text v = String c t /\ isJsonSpace c = false
              /\ (JsString.code c =? 93)%nat = false.
Proof.
  destruct v as [| | [] | [| p | p] | s | items | props]; intros W;
    try discriminate W;
    try (eexists _, _; split; [reflexivity | split; reflexivity]).
  unfold text. cbn [stringify]. rewrite ofZ_pos.
  destruct (to_uint_head p) as (c & t & E & B). rewrite E.
  destruct (digit_facts c B) as (F1 & F2 & _). eauto.
Qed.

Lemma quote_app (s rest : string) :
  quote s ++ rest
  = String (ascii_of_nat 34) (escape s ++ String (ascii_of_nat 34) rest).
Proof.
  unfold quote, dq. rewrite !append_assoc. reflexivity.
Qed.

Lemma readsBack_number (n : Z) : readsBack (JNum n).
Proof.
  intros _ fuel rest L D. destruct fuel as [| fuel]; [simpl in L; lia |].
  apply delimited_notNumeric in D.
  unfold text. cbn [stringify]. destruct n as [| p | p].
  - change (JsString.ofZ 0) with "0". cbn [append].
    rewrite parseValue_digit by reflexivity.
    rewrite parseNat_zero by exact D. reflexivity.
  - rewrite ofZ_pos.
    destruct (to_uint_head p) as (c & t & E & B).
    destruct (digit_facts c B) as (_ & _ & B').
    pose proof (parseNat_pos p rest D) as R.
    rewrite E in R |- *. cbn [append] in R |- *.
    rewrite parseValue_digit by exact B'. rewrite R. reflexivity.
  - rewrite ofZ_neg. cbn [append]. rewrite parseValue_minus.
    rewrite parseNat_pos by exact D. reflexivity.
Qed.

Lemma readsBack_string (s : string) : readsBack (JStr s).
Proof.
  intros _ fuel rest L D. destruct fuel as [| fuel]; [simpl in L; lia |].
  unfold text. cbn [stringify].
  rewrite quote_app, parseValue_string, parseChars_escape. reflexivity.
Qed.

Lemma delimited_head (c : ascii) (t : string) :
  delimited (String c t) = true -> skipws (String c t) = String c t.
Proof.
  simpl. rewrite !orb_true_iff, !Nat.eqb_eq. intros [[E | E] | E];
    unfold isJsonSpace; rewrite E; reflexivity.
Qed.

Lemma parseElements_text (items : list value) :
  Forall readsBack items -> forallb wellFormed items = true -> items <> [] ->
  forall fuel acc rest,
    maxNeed need items <= fuel ->
    parseElements fuel acc
      (JsString.join "," (List.map text items) ++ String "]" rest)
    = Some (JArr (acc ++ items)%list, rest).
Proof.
  induction items as [| x xs IH]; intros R W N fuel acc rest L;
    [destruct (N eq_refl) |].
  inversion R as [| ? ? Rx Rxs]; subst.
  cbn [forallb] in W. apply andb_prop in W as [Wx Wxs].
  cbn [maxNeed fold_right] in L. fold (maxNeed need xs) in L.
  destruct fuel as [| fuel]; [lia |].
  rewrite parseElements_S.
  destruct xs as [| y ys].
  - cbn [List.map JsString.join].
    rewrite (Rx Wx fuel (String "]" rest)) by (reflexivity || lia).
    reflexivity.
  - change (JsString.join "," (List.map text (x :: y :: ys)))
      with (text x ++ "," ++ JsString.join "," (List.map text (y :: ys))).
    rewrite !append_assoc. cbn [append].
    rewrite (Rx Wx fuel) by (reflexivity || lia).
    rewrite skipws_head by reflexivity. change (JsString.code "," =? 44)%nat with true.
    cbv iota.
    rewrite IH; [rewrite <- app_assoc; reflexivity | exact Rxs | exact Wxs
                 | discriminate | lia].
Qed.

Lemma memberText_app (k : string) (v : value) (tail : string) :
  memberText (k, v) ++ tail
  = String (ascii_of_nat 34)
      (escape k ++ String (ascii_of_nat 34) (String ":" (text v ++ tail))).
Proof.
  unfold memberText. cbn [fst snd].
  rewrite !append_assoc, quote_app. reflexivity.
Qed.

Lemma parseMembers_text (props : list (string * value)) :
  Forall (fun kv => readsBack (snd kv)) props ->
  forallb (fun kv => wellFormed (snd kv)) props = true -> props <> [] ->
  forall fuel acc rest,
    NoDup (List.map fst acc ++ List.map fst props) ->
    maxNeed (fun kv => need (snd kv)) props <= fuel ->
    parseMembers fuel acc
      (JsString.join "," (List.map memberText props) ++ String "}" rest)
    = Some (JObj (acc ++ props)%list, rest).
Proof.
  induction props as [| [k v] ps IH]; intros R W N fuel acc rest D L;
    [destruct (N eq_refl) |].
  inversion R as [| ? ? Rv Rps]; subst. cbn [snd] in Rv.
  cbn [forallb snd] in W. apply andb_prop in W as [Wv Wps].
  cbn [maxNeed fold_right snd] in L.
  fold (maxNeed (fun kv => need (snd kv)) ps) in L.
  destruct fuel as [| fuel]; [lia |].
  assert (F : set_own k v acc = (acc ++ [(k, v)])%list).
  { apply set_own_fresh. cbn [List.map fst] in D.
    apply NoDup_remove_2 in D. intros I. apply D.
    apply in_or_app. left. exact I. }
  destruct ps as [| kv' ps'].
  - cbn [List.map JsString.join].
    rewrite memberText_app, parseMembers_quote, parseChars_escape.
    rewrite skipws_head by reflexivity. change (JsString.code ":" =? 58)%nat with true.
    cbv iota.
    rewrite (Rv Wv fuel (String "}" rest)) by (reflexivity || lia).
    cbn. rewrite F. reflexivity.
  - change (JsString.join "," (List.map memberText ((k, v) :: kv' :: ps')))
      with (memberText (k, v) ++ ","
            ++ JsString.join "," (List.map memberText (kv' :: ps'))).
    rewrite append_assoc, memberText_app, parseMembers_quote, parseChars_escape.
    rewrite skipws_head by reflexivity. change (JsString.code ":" =? 58)%nat with true.
    cbv iota. rewrite append_assoc. cbn [append].
    rewrite (Rv Wv fuel) by (reflexivity || lia).
    rewrite skipws_head by reflexivity. change (JsString.code "," =? 44)%nat with true.
    cbv iota. rewrite F.
    rewrite IH; [rewrite <- app_assoc; reflexivity | exact Rps | exact Wps
                 | discriminate | | lia].
    rewrite List.map_app, <- app_assoc. exact D.
Qed.

Lemma members_flat_map (props : list (string * value)) :
  forallb (fun kv => wellFormed (snd kv)) props = true ->
  List.flat_map
    (fun kv => match stringify (snd kv) with
               | Some s => [quote (fst kv) ++ ":" ++ s]
               | None => []
               end) props
  = List.map memberText props.
Proof.
  induction props as [| [k v] ps IH]; cbn [forallb List.flat_map List.map];
    intros W; [reflexivity |].
  apply andb_prop in W as [Wv Wps]. rewrite IH by exact Wps.
  unfold memberText, text. cbn [fst snd].
  destruct v as [| | [] | | | |]; try discriminate Wv; reflexivity.
Qed.

Theorem parseValue_text (v : value) : readsBack v.
Proof.
  induction v as [| | b | n | s | items IH | props IH] using value_induction.
  - intros W. discriminate W.
  - intros _ [| fuel] rest L D; [simpl in L; lia | apply parseValue_null].
  - intros _ [| fuel] rest L D; [simpl in L; lia |].
    destruct b; [apply parseValue_true | apply parseValue_false].
  - apply readsBack_number.
  - apply readsBack_string.
  - intros W [| fuel] rest L D; [simpl in L; lia |].
    cbn [wellFormed] in W. cbn [need] in L.
    change (text (JArr items))
      with ("[" ++ JsString.join "," (List.map text items) ++ "]").
    cbn [append]. rewrite append_assoc. cbn [append].
    rewrite parseValue_array.
    destruct items as [| x xs].
    + reflexivity.
    + assert (Wx : wellFormed x = true)
        by (cbn [forallb] in W; apply andb_prop in W; tauto).
      destruct (text_head x Wx) as (c & t & E & S1 & S2).
      assert (H : exists t', JsString.join "," (List.map text (x :: xs))
                             ++ String "]" rest = String c t').
      { destruct xs; cbn [List.map JsString.join]; rewrite E;
          cbn [append]; eauto. }
      destruct H as [t' H]. rewrite H at 1.
      rewrite skipws_head by exact S1. rewrite S2.
      rewrite parseElements_text; [reflexivity | exact IH | exact W
                                   | discriminate | lia].
  - intros W [| fuel] rest L D; [simpl in L; lia |].
    cbn [wellFormed] in W. apply andb_prop in W as [W K].
    apply nodupb_NoDup in K. cbn [need] in L.
    unfold text. cbn [stringify]. rewrite members_flat_map by exact W.
    cbn [append]. rewrite append_assoc. cbn [append].
    rewrite parseValue_object.
    destruct props as [| [k v] ps].
    + reflexivity.
    + assert (H : exists t', JsString.join "," (List.map memberText ((k, v) :: ps))
                             ++ String "}" rest
                             = String (ascii_of_nat 34) t').
      { destruct ps; cbn [List.map JsString.join];
          [| rewrite append_assoc]; rewrite memberText_app; eauto. }
      destruct H as [t' H]. rewrite H at 1.
      rewrite skipws_head by reflexivity.
      change (JsString.code (ascii_of_nat 34) =? 125)%nat with false. cbv iota.
      rewrite parseMembers_text; [reflexivity | exact IH | exact W
                                  | discriminate | exact K | lia].
Qed.

Lemma length_append (a b : string) :
  String.length (a ++ b) = String.length a + String.length b.
Proof.
  induction a; simpl; [reflexivity | rewrite IHa; reflexivity].
Qed.

Lemma stringify_text (v : value) :
  wellFormed v = true -> stringify v = Some (text v).
Proof.
  destruct v as [| | [] | | | |]; intros W; try discriminate W; reflexivity.
Qed.

Lemma elements_need (items : list value) :
  Forall (fun x => wellFormed x = true -> need x <= String.length (text x)) items ->
  forallb wellFormed items = true ->
  maxNeed need items
  <= S (String.length (JsString.join "," (List.map text items))).
Proof.
  induction items as [| x xs IH]; intros F W; [simpl; lia |].
  inversion F as [| ? ? Fx Fxs]; subst.
  cbn [forallb] in W. apply andb_prop in W as [Wx Wxs].
  specialize (Fx Wx). specialize (IH Fxs Wxs).
  cbn [maxNeed fold_right]. fold (maxNeed need xs).
  destruct xs as [| y ys].
  - cbn [List.map JsString.join maxNeed fold_right]. lia.
  - change (JsString.join "," (List.map text (x :: y :: ys)))
      with (text x ++ "," ++ JsString.join "," (List.map text (y :: ys))).
    rewrite !length_append. cbn [String.length]. lia.
Qed.

Lemma members_need (props : list (string * value)) :
  Forall (fun kv => wellFormed (snd kv) = true ->
                    need (snd kv) <= String.length (text (snd kv))) props ->
  forallb (fun kv => wellFormed (snd kv)) props = true ->
  maxNeed (fun kv => need (snd kv)) props
  <= S (String.length (JsString.join "," (List.map memberText props))).
Proof.
  induction props as [| [k v] ps IH]; intros F W; [simpl; lia |].
  inversion F as [| ? ? Fv Fps]; subst. cbn [snd] in Fv.
  cbn [forallb snd] in W. apply andb_prop in W as [Wv Wps].
  specialize (Fv Wv). specialize (IH Fps Wps).
  cbn [maxNeed fold_right snd]. fold (maxNeed (fun kv => need (snd kv)) ps).
  assert (M : String.length (text v) < String.length (memberText (k, v))).
  { unfold memberText. cbn [fst snd]. rewrite !length_append.
    cbn [String.length]. lia. }
  destruct ps as [| kv' ps'].
  - cbn [List.map JsString.join maxNeed fold_right]. lia.
  - change (JsString.join "," (List.map memberText ((k, v) :: kv' :: ps')))
      with (memberText (k, v) ++ ","
            ++ JsString.join "," (List.map memberText (kv' :: ps'))).
    rewrite !length_append. cbn [String.length]. lia.
Qed.

Lemma need_le_length (v : value) :
  wellFormed v = true -> need v <= String.length (text v).
Proof.
  induction v as [| | b | n | s | items IH | props IH] using value_induction;
    intros W;
    try (destruct (text_head _ W) as (c & t & E & _); rewrite E; simpl; lia).
  - cbn [wellFormed] in W. cbn [need].
    change (text (JArr items))
      with ("[" ++ JsString.join "," (List.map text items) ++ "]").
    rewrite !length_append. cbn [String.length].
    pose proof (elements_need items IH W). lia.
  - cbn [wellFormed] in W. apply andb_prop in W as [W K]. cbn [need].
    unfold text. cbn [stringify]. rewrite members_flat_map by exact W.
    rewrite !length_append. cbn [String.length].
    pose proof (members_need props IH W). lia.
Qed.

Lemma append_nil_r (s : string) : s ++ "" = s.
Proof.
  induction s; simpl; [reflexivity | rewrite IHs; reflexivity].
Qed.

(** [JSON.parse(JSON.stringify(v))] is [v] on the reference platform. *)
Theorem parse_stringify (v : value) :
  wellFormed v = true ->
  stringify v = Some (text v) /\ parse (text v) = Some v.
Proof.
  intros W. split; [apply stringify_text; exact W |].
  unfold parse.
  rewrite <- (append_nil_r (text v)) at 2.
  rewrite (parseValue_text v W (S (String.length (text v))) "").
  - reflexivity.
  - pose proof (need_le_length v W). lia.
  - reflexivity.
Qed.

Set Implicit Arguments.

End RefJSONFacts.

(** On the reference platform the round trip needs no assumption: for a
    mapping that both modes can express and whose values are JSON values,
    simple mode on its pairs and advanced mode on its JSON text make
    [handleCreate] behave the same. *)
Corollary create_modes_agree_on_reference (simple advanced : IExecuteFunctions)
  (supabase : SupabaseClient) (itemIndex : nat) (log : list request)
  (m : list (string * value)) :
  plainMapping m ->
  RefJSON.wellFormed (JObj m) = true ->
  uiMode (getNodeParameter simple itemIndex) = "simple" ->
  columns_column (getNodeParameter simple itemIndex) = pairsOf m ->
  uiMode (getNodeParameter advanced itemIndex) = "advanced" ->
  jsonData (getNodeParameter advanced itemIndex) = RefJSON.text (JObj m) ->
  table (getNodeParameter simple itemIndex)
  = table (getNodeParameter advanced itemIndex) ->
  handleCreate (P := refPlatform) simple supabase itemIndex log
  = handleCreate (P := refPlatform) advanced supabase itemIndex log.
Proof.
  intros M W US C UA D T.
  apply handleCreate_same_data; [exact T |].
  unfold resolveData. rewrite US, C, UA, D. cbn [String.eqb Ascii.eqb Bool.eqb].
  rewrite columnsToObject_pairsOf by exact M.
  cbn [JSON_parse refPlatform].
  rewrite (proj2 (RefJSONFacts.parse_stringify (JObj m) W)). reflexivity.
Qed.

(* ================================================================== *)
(** * Further properties of the sources *)

(** ** Filter operators *)




(** ** Sanitised column names *)

Lemma keepChars_all (items : list RegExp.class_item) (s : string) :
  RegExp.all_in items (keepChars (RegExp.in_class items) s) = true.
Proof.
  induction s as [| c s IH]; simpl; [reflexivity |].
  destruct (RegExp.in_class items c) eqn:E; [simpl; rewrite E |]; exact IH.
Qed.

Lemma keepChars_fixed (items : list RegExp.class_item) (s : string) :
  RegExp.all_in items s = true -> keepChars (RegExp.in_class items) s = s.
Proof.
  induction s as [| c s IH]; simpl; [reflexivity |].
  intros E. apply andb_prop in E as [E1 E2]. rewrite E1, IH by exact E2.
  reflexivity.
Qed.

Lemma keepChars_length (keep : ascii -> bool) (s : string) :
  String.length (keepChars keep s) <= String.length s.
Proof.
  induction s as [| c s IH]; simpl; [lia |].
  destruct (keep c); simpl; lia.
Qed.

Lemma word_in_sanitized (c : ascii) :
  RegExp.in_class RegExp.word c = true -> RegExp.in_class sanitized c = true.
Proof.
  destruct c as [[] [] [] [] [] [] [] []]; intros H;
    (reflexivity || discriminate H).
Qed.

Lemma letter_in_sanitized (c : ascii) :
  RegExp.in_class RegExp.letter c = true -> RegExp.in_class sanitized c = true.
Proof.
  destruct c as [[] [] [] [] [] [] [] []]; intros H;
    (reflexivity || discriminate H).
Qed.

Lemma all_word_sanitized (s : string) :
  RegExp.all_in RegExp.word s = true -> RegExp.all_in sanitized s = true.
Proof.
  induction s as [| c s IH]; cbn [RegExp.all_in]; [reflexivity |].
  intros E. apply andb_prop in E as [E1 E2].
  apply andb_true_intro. split; [apply word_in_sanitized; exact E1 | auto].
Qed.

(** X2. [sanitizeColumnName] keeps letters, digits, [_] and [-] only, never
    lengthens the name, changes nothing when applied again, and leaves
    every name unchanged that [validateColumnName] accepts. *)
Theorem sanitizeColumnName_keeps (columnName : string) :
  RegExp.all_in sanitized (sanitizeColumnName columnName) = true /\
  String.length (sanitizeColumnName columnName) <= String.length columnName /\
  sanitizeColumnName (sanitizeColumnName columnName)
  = sanitizeColumnName columnName /\
  (validateColumnName columnName = Return tt ->
   sanitizeColumnName columnName = columnName).
Proof.
  unfold sanitizeColumnName.
  split; [apply keepChars_all |]. split; [apply keepChars_length |].
  split; [apply keepChars_fixed, keepChars_all |].
  intros V. apply validateColumnName_ok in V. destruct V as [M _].
  apply RegExpFacts.identifier_chars in M.
  destruct M as (c & rest & -> & L & W).
  apply keepChars_fixed. cbn [RegExp.all_in].
  rewrite (letter_in_sanitized c L), (all_word_sanitized rest W). reflexivity.
Qed.

(** X2 at the valid name [user_id]. *)
Lemma sanitizeColumnName_keeps_witness :
  sanitizeColumnName "user_id" = "user_id".
Proof.
  exact (proj2 (proj2 (proj2 (sanitizeColumnName_keeps "user_id"))) eq_refl).
Defined.

(** ** Error classification *)

Lemma some_total {A} (f : A -> bool) (l : list A) :
  some (fun x => Some (f x)) l = Some (existsb f l).
Proof.
  induction l as [| x l IH]; simpl; [reflexivity |].
  destruct (f x); [reflexivity | exact IH].
Qed.

Lemma some_ext {A} (g h : A -> option bool) (l : list A) :
  (forall x, In x l -> g x = h x) -> some g l = some h l.
Proof.
  induction l as [| x l IH]; intros E; simpl; [reflexivity |].
  rewrite (E x) by (left; reflexivity).
  rewrite IH by (intros y I; apply E; right; exact I). reflexivity.
Qed.

Lemma strictEqString_true (v : value) (s : string) :
  strictEqString v s = true <-> v = JStr s.
Proof.
  destruct v; simpl; try (split; [discriminate | congruence]).
  rewrite String.eqb_eq. split; congruence.
Qed.

Lemma strictEqNumber_true (v : value) (n : Z) :
  strictEqNumber v n = true <-> v = JNum n.
Proof.
  destruct v; simpl; try (split; [discriminate | congruence]).
  rewrite Z.eqb_eq. split; congruence.
Qed.

Lemma statusIsAuth_true (error : value) :
  statusIsAuth error = true <->
  getProp error "statusCode" = JNum 401 \/ getProp error "statusCode" = JNum 403.
Proof.
  unfold statusIsAuth.
  rewrite orb_true_iff, !strictEqNumber_true. reflexivity.
Qed.

Lemma lowerMessage_text (error : value) :
  messageIsText error ->
  lowerMessage error
  = Some (match getProp error "message" with
          | JStr m => Some (JsString.toLowerCase m)
          | _ => None
          end).
Proof.
  unfold lowerMessage. intros [E | [E | [m E]]]; rewrite E; reflexivity.
Qed.

Lemma lowerMessage_other (error : value) :
  ~ messageIsText error -> lowerMessage error = None.
Proof.
  unfold lowerMessage, messageIsText. intros N.
  destruct (getProp error "message"); try reflexivity;
    exfalso; apply N; eauto.
Qed.

Lemma no_code_in_empty (code : string) :
  In code authErrorCodes -> JsString.includes "" code = false.
Proof.
  simpl. intros [<- | [<- | [<- | [<- | []]]]]; reflexivity.
Qed.

(** X3. [isAuthError] answers [false] on a falsy error.  On an error whose
    [message] is a string or absent it answers [true] exactly when the
    [code] is one of the four auth codes, or the lower-cased message
    contains one of them, or [statusCode] is the number 401 or 403.  On any
    other [message] it throws, unless [code] is the first of the codes. *)
Theorem isAuthError_characterised (error : value) :
  (truthy error = false -> isAuthError error = Some false) /\
  (truthy error = true -> messageIsText error ->
   exists answer,
     isAuthError error = Some answer /\
     (answer = true <->
      (exists code, In code authErrorCodes /\
                    (getProp error "code" = JStr code \/
                     occursIn code (lowerText error))) \/
      getProp error "statusCode" = JNum 401 \/
      getProp error "statusCode" = JNum 403)) /\
  (truthy error = true -> ~ messageIsText error ->
   isAuthError error
   = if strictEqString (getProp error "code") "invalid_api_key"
     then Some true else None).
Proof.
  unfold isAuthError. split; [intros ->; reflexivity |]. split.
  - intros -> T. cbn [negb].
    set (f := fun code =>
                strictEqString (getProp error "code") code
                || JsString.includes (lowerText error) code
                || statusIsAuth error).
    exists (existsb f authErrorCodes). split.
    + rewrite <- some_total. apply some_ext. intros code I.
      rewrite (lowerMessage_text T). unfold f, lowerText.
      destruct (strictEqString (getProp error "code") code); [reflexivity |].
      destruct (getProp error "message"); cbn [orb];
        rewrite ?(no_code_in_empty I); reflexivity.
    + rewrite existsb_exists. unfold f. split.
      * intros (code & I & E).
        rewrite !orb_true_iff, strictEqString_true, includes_occurs,
          statusIsAuth_true in E.
        destruct E as [[E | E] | E]; [left | left | right]; eauto.
      * intros [(code & I & E) | E].
        -- exists code. split; [exact I |].
           rewrite !orb_true_iff, strictEqString_true, includes_occurs. tauto.
        -- exists "invalid_api_key". split; [left; reflexivity |].
           rewrite !orb_true_iff, statusIsAuth_true. tauto.
  - intros -> T. cbn [negb authErrorCodes some].
    destruct (strictEqString (getProp error "code") "invalid_api_key");
      [reflexivity |].
    rewrite (lowerMessage_other T). reflexivity.
Qed.

Lemma forbidden_occurs : occursIn "forbidden" "access forbidden for role".
Proof.
  exists "access ", " for role". reflexivity.
Qed.

(** X3 on an error whose message says [Access FORBIDDEN for role], and on
    one whose [statusCode] is the string [401]. *)
Lemma isAuthError_characterised_witness :
  isAuthError (JObj [("message", JStr "Access FORBIDDEN for role")]) = Some true
  /\ isAuthError (JObj [("statusCode", JStr "401")]) = Some false.
Proof.
  split.
  - assert (T : messageIsText
                  (JObj [("message", JStr "Access FORBIDDEN for role")]))
      by (right; right; eexists; reflexivity).
    destruct (proj1 (proj2 (isAuthError_characterised
                              (JObj [("message", JStr "Access FORBIDDEN for role")])))
                eq_refl T) as (answer & E & A).
    rewrite E. f_equal. apply A. left.
    exists "forbidden". split; [simpl; tauto |]. right. exact forbidden_occurs.
  - assert (T : messageIsText (JObj [("statusCode", JStr "401")]))
      by (left; reflexivity).
    destruct (proj1 (proj2 (isAuthError_characterised
                              (JObj [("statusCode", JStr "401")])))
                eq_refl T) as (answer & E & A).
    rewrite E. f_equal. destruct answer; [| reflexivity].
    exfalso. destruct (proj1 A eq_refl) as [(code & I & [C | O]) | [S | S]];
      discriminate.
Defined.

(** X4. [isNetworkError] answers [false] on a falsy error.  On an error
    whose [message] is a string or absent it answers [true] exactly when the
    lower-cased message contains one of the seven patterns, so the case of
    the message does not matter.  On any other [message] it throws. *)
Theorem isNetworkError_characterised (error : value) :
  (truthy error = false -> isNetworkError error = Some false) /\
  (truthy error = true -> messageIsText error ->
   exists answer,
     isNetworkError error = Some answer /\
     (answer = true <->
      exists pattern, In pattern networkErrorPatterns /\
                      occursIn pattern (lowerText error))) /\
  (truthy error = true -> ~ messageIsText error -> isNetworkError error = None).
Proof.
  unfold isNetworkError. split; [intros ->; reflexivity |]. split.
  - intros -> T. cbn [negb]. rewrite (lowerMessage_text T).
    eexists. split; [reflexivity |].
    rewrite existsb_exists.
    assert (L : match
                  match getProp error "message" with
                  | JStr m => Some (JsString.toLowerCase m)
                  | _ => None
                  end
                with Some s => s | None => "" end = lowerText error).
    { unfold lowerText. destruct (getProp error "message"); reflexivity. }
    rewrite L.
    split; intros (pattern & I & E); exists pattern; split; try exact I;
      apply includes_occurs; exact E.
  - intros -> T. cbn [negb]. rewrite (lowerMessage_other T). reflexivity.
Qed.

Lemma timeout_occurs : occursIn "timeout" "request timeout after 30s".
Proof.
  exists "request ", " after 30s". reflexivity.
Qed.

(** X4 on an error whose message says [Request TIMEOUT after 30s], and on
    one whose message is the number 504. *)
Lemma isNetworkError_characterised_witness :
  isNetworkError (JObj [("message", JStr "Request TIMEOUT after 30s")])
  = Some true /\
  isNetworkError (JObj [("message", JNum 504)]) = None.
Proof.
  split.
  - assert (T : messageIsText
                  (JObj [("message", JStr "Request TIMEOUT after 30s")]))
      by (right; right; eexists; reflexivity).
    destruct (proj1 (proj2 (isNetworkError_characterised
                              (JObj [("message", JStr "Request TIMEOUT after 30s")])))
                eq_refl T) as (answer & E & A).
    rewrite E. f_equal. apply A.
    exists "timeout". split; [simpl; tauto | exact timeout_occurs].
  - apply (proj2 (proj2 (isNetworkError_characterised
                           (JObj [("message", JNum 504)])))); [reflexivity |].
    intros [E | [E | [m E]]]; discriminate E.
Defined.

(** ** One request per operation *)

Lemma newError_is_Error (x : value) : exists message, newError x = Error message.
Proof.
  destruct x; simpl; eauto.
Qed.

Ltac sent_one :=
  right; eexists; split; [reflexivity |];
  match goal with
  | H : truthy ?e = _ |- context [truthy ?e] => rewrite H
  end;
  first [ reflexivity
        | eexists; split; [reflexivity | discriminate] ].

Ltac sent_none := left; split; [reflexivity | eexists; reflexivity].

Ltac run_handler :=
  unfold exec_sql;
  unfold oneRequest, bind, lift, ret, throw, await, throwIfError;
  repeat match goal with
         | |- context [validateTableName ?t] =>
             destruct (validateTableName_cases t) as [-> | [? ->]]
         | |- context [validateColumnName ?t] =>
             destruct (validateColumnName_cases t) as [-> | [? ->]]
         | |- context [rowItems ?d] => destruct (rowItems d)
         | |- context [truthy (error ?r)] =>
             lazymatch goal with
             | H : truthy (error r) = _ |- _ => fail
             | _ => destruct (truthy (error r)) eqn:?
             end
         end;
  cbn [fst snd List.length Nat.eqb];
  first [ sent_one | sent_none | idtac ].

Lemma resolveData_cases {P : Platform} (p : NodeParameters) :
  (exists row, resolveData p = Return row) \/
  exists message, resolveData p = Throw (Error message).
Proof.
  unfold resolveData.
  destruct (String.eqb (uiMode p) "advanced"); [| eauto].
  destruct (JSON_parse (jsonData p)); eauto.
Qed.

Lemma readFilters_cases {P : Platform} (p : NodeParameters) :
  (exists calls, readFilters p = Return calls) \/
  exists message, readFilters p = Throw (Error message).
Proof.
  unfold readFilters.
  repeat match goal with
         | |- context [if ?b then _ else _] => destruct b
         | |- context [match ?x with _ => _ end] => destruct x
         end; eauto.
Qed.

Lemma columnDefs_cases (columns : list IColumnDefinition) :
  (exists defs, columnDefs columns = Return defs) \/
  exists message, columnDefs columns = Throw (Error message).
Proof.
  induction columns as [| column rest IH]; simpl; [eauto |].
  destruct (validateColumnName_cases (def_name column)) as [-> | [m ->]];
    [| eauto].
  destruct IH as [[defs ->] | [m ->]]; eauto.
Qed.

Section OneRequest.

Context {P : Platform}.
Variable this : IExecuteFunctions.
Variable supabase : SupabaseClient.
Variable itemIndex : nat.
Variable log : list request.

Lemma handleCreate_oneRequest :
  oneRequest supabase log (handleCreate this supabase itemIndex log).
Proof.
  unfold handleCreate.
  destruct (resolveData_cases (getNodeParameter this itemIndex))
    as [[row ->] | [m ->]]; run_handler.
Qed.

Lemma handleRead_oneRequest :
  oneRequest supabase log (handleRead this supabase itemIndex log).
Proof.
  unfold handleRead.
  destruct (readFilters_cases (getNodeParameter this itemIndex))
    as [[calls ->] | [m ->]]; run_handler.
Qed.

Lemma handleUpdate_oneRequest :
  oneRequest supabase log (handleUpdate this supabase itemIndex log).
Proof.
  unfold handleUpdate.
  destruct (resolveData_cases (getNodeParameter this itemIndex))
    as [[row ->] | [m ->]]; run_handler.
Qed.

Lemma handleDelete_oneRequest :
  oneRequest supabase log (handleDelete this supabase itemIndex log).
Proof.
  unfold handleDelete.
  destruct (List.length (filters_filter (getNodeParameter this itemIndex)) =? 0)%nat;
    run_handler.
Qed.

Lemma handleUpsert_oneRequest :
  oneRequest supabase log (handleUpsert this supabase itemIndex log).
Proof.
  unfold handleUpsert.
  destruct (resolveData_cases (getNodeParameter this itemIndex))
    as [[row ->] | [m ->]]; run_handler.
Qed.

Lemma handleCreateTable_oneRequest :
  oneRequest supabase log (handleCreateTable this supabase itemIndex log).
Proof.
  unfold handleCreateTable.
  destruct (List.length (columnDefinitions_column
                           (getNodeParameter this itemIndex)) =? 0)%nat;
    destruct (columnDefs_cases (columnDefinitions_column
                                  (getNodeParameter this itemIndex)))
      as [[defs ->] | [m ->]]; run_handler.
Qed.

Lemma handleDropTable_oneRequest :
  oneRequest supabase log (handleDropTable this supabase itemIndex log).
Proof.
  unfold handleDropTable. run_handler.
Qed.

Lemma handleAddColumn_oneRequest :
  oneRequest supabase log (handleAddColumn this supabase itemIndex log).
Proof.
  unfold handleAddColumn. run_handler.
Qed.

Lemma handleDropColumn_oneRequest :
  oneRequest supabase log (handleDropColumn this supabase itemIndex log).
Proof.
  unfold handleDropColumn. run_handler.
Qed.

Lemma handleCreateIndex_oneRequest :
  oneRequest supabase log (handleCreateIndex this supabase itemIndex log).
Proof.
  unfold handleCreateIndex.
  destruct (JsString.isEmpty (idx_name (indexDefinition
                                          (getNodeParameter this itemIndex)))
            || (List.length (idx_columns (indexDefinition
                                            (getNodeParameter this itemIndex)))
                =? 0)%nat);
    run_handler.
Qed.

Lemma handleDropIndex_oneRequest :
  oneRequest supabase log (handleDropIndex this supabase itemIndex log).
Proof.
  unfold handleDropIndex.
  destruct (JsString.isEmpty (indexName (getNodeParameter this itemIndex)));
    run_handler.
Qed.

Lemma handleCustomQuery_oneRequest :
  oneRequest supabase log (handleCustomQuery this supabase itemIndex log).
Proof.
  unfold handleCustomQuery.
  destruct (JsString.isEmpty
              (JsString.trim (customSql (getNodeParameter this itemIndex))));
    destruct (JsString.startsWith
                (JsString.toLowerCase
                   (JsString.trim (customSql (getNodeParameter this itemIndex))))
                "select");
    run_handler.
Qed.

End OneRequest.

Lemma try_catch_oneRequest {P : Platform} (supabase : SupabaseClient)
  (log : list request) (m : M (list INodeExecutionData)) :
  oneRequest supabase log (m log) ->
  (fst (try_catch m (fun e => throw (databaseFailure e)) log) = log /\
   exists message,
     snd (try_catch m (fun e => throw (databaseFailure e)) log)
     = Throw (databaseFailure (Error message))) \/
  exists q,
    fst (try_catch m (fun e => throw (databaseFailure e)) log)
    = (log ++ [q])%list /\
    if truthy (error (supabase log q))
    then snd (try_catch m (fun e => throw (databaseFailure e)) log)
         = Throw (databaseFailure
                    (newError (formatSupabaseError (error (supabase log q)))))
    else exists items,
        snd (try_catch m (fun e => throw (databaseFailure e)) log)
        = Return items /\ items <> [].
Proof.
  unfold oneRequest, try_catch, throw.
  destruct (m log) as [log' [items | e]]; cbn [fst snd].
  - intros [[_ [message E]] | (q & L & H)]; [discriminate E |].
    right. exists q. split; [exact L |].
    destruct (truthy (error (supabase log q))); [discriminate H | exact H].
  - intros [[L [message E]] | (q & L & H)].
    + left. split; [exact L |]. exists message. congruence.
    + right. exists q. split; [exact L |].
      destruct (truthy (error (supabase log q)));
        [congruence | destruct H as (items & E & _); discriminate E].
Qed.

Lemma executeDatabaseOperation_shape {P : Platform} (this : IExecuteFunctions)
  (supabase : SupabaseClient) (operation : string) (itemIndex : nat)
  (log : list request) :
  (fst (executeDatabaseOperation this supabase operation itemIndex log) = log /\
   exists message,
     snd (executeDatabaseOperation this supabase operation itemIndex log)
     = Throw (databaseFailure (Error message))) \/
  exists q,
    fst (executeDatabaseOperation this supabase operation itemIndex log)
    = (log ++ [q])%list /\
    if truthy (error (supabase log q))
    then snd (executeDatabaseOperation this supabase operation itemIndex log)
         = Throw (databaseFailure
                    (newError (formatSupabaseError (error (supabase log q)))))
    else exists items,
        snd (executeDatabaseOperation this supabase operation itemIndex log)
        = Return items /\ items <> [].
Proof.
  unfold executeDatabaseOperation.
  apply (try_catch_oneRequest (supabase := supabase) (log := log)).
  repeat match goal with
         | |- context [String.eqb operation ?s] =>
             destruct (String.eqb operation s)
         end;
    first [ apply handleCreate_oneRequest | apply handleRead_oneRequest
          | apply handleUpdate_oneRequest | apply handleDelete_oneRequest
          | apply handleUpsert_oneRequest | apply handleCreateTable_oneRequest
          | apply handleDropTable_oneRequest | apply handleAddColumn_oneRequest
          | apply handleDropColumn_oneRequest
          | apply handleCreateIndex_oneRequest
          | apply handleDropIndex_oneRequest
          | apply handleCustomQuery_oneRequest
          | (left; split; [reflexivity | eexists; reflexivity]) ].
Qed.

Lemma databaseFailure_prefix {P : Platform} (e : thrown) :
  exists message,
    databaseFailure e = Error ("Database operation failed: " ++ message).
Proof.
  unfold databaseFailure. eauto.
Qed.

(** X5. Whatever the operation, [executeDatabaseOperation] sends at most
    one request.  When it returns, it has sent exactly one, the response
    carried no error, and the result has at least one item. *)
Theorem executeDatabaseOperation_one_request {P : Platform}
  (this : IExecuteFunctions) (supabase : SupabaseClient) (operation : string)
  (itemIndex : nat) (log : list request) :
  (fst (executeDatabaseOperation this supabase operation itemIndex log) = log \/
   exists q,
     fst (executeDatabaseOperation this supabase operation itemIndex log)
     = (log ++ [q])%list) /\
  (forall items,
     snd (executeDatabaseOperation this supabase operation itemIndex log)
     = Return items ->
     items <> [] /\
     exists q,
       fst (executeDatabaseOperation this supabase operation itemIndex log)
       = (log ++ [q])%list /\ truthy (error (supabase log q)) = false).
Proof.
  destruct (executeDatabaseOperation_shape this supabase operation itemIndex log)
    as [[L [message E]] | (q & L & H)].
  - split; [left; exact L |]. intros items R. congruence.
  - split; [right; eauto |]. intros items R.
    destruct (truthy (error (supabase log q))) eqn:T.
    + congruence.
    + destruct H as (items' & E & N). split; [congruence | eauto].
Qed.

(** X5 on a read of [users] that finds no row. *)
Lemma executeDatabaseOperation_one_request_witness :
  exists q,
    fst (executeDatabaseOperation (P := refPlatform)
           (crudItem "read" "simple" "{}" [] [] "{}") (answering (JArr []))
           "read" 0 [])
    = [q].
Proof.
  destruct (proj2 (executeDatabaseOperation_one_request (P := refPlatform)
                     (crudItem "read" "simple" "{}" [] [] "{}")
                     (answering (JArr [])) "read" 0 []) _ eq_refl)
    as (_ & q & L & _).
  exists q. exact L.
Defined.

(** X6. Every exception that leaves [executeDatabaseOperation] is an
    [Error] whose message starts with [Database operation failed: ].  When
    the backend answered with an error object whose [message] is a
    non-empty string, that message follows the prefix unchanged. *)
Theorem executeDatabaseOperation_errors {P : Platform}
  (this : IExecuteFunctions) (supabase : SupabaseClient) (operation : string)
  (itemIndex : nat) (log : list request) :
  (forall e,
     snd (executeDatabaseOperation this supabase operation itemIndex log)
     = Throw e ->
     exists message, e = Error ("Database operation failed: " ++ message)) /\
  (forall q message,
     fst (executeDatabaseOperation this supabase operation itemIndex log)
     = (log ++ [q])%list ->
     getProp (error (supabase log q)) "message" = JStr message ->
     message <> "" ->
     snd (executeDatabaseOperation this supabase operation itemIndex log)
     = Throw (Error ("Database operation failed: " ++ message))).
Proof.
  destruct (executeDatabaseOperation_shape this supabase operation itemIndex log)
    as [[L [m E]] | (q & L & H)].
  - split.
    + intros e T. rewrite E in T. injection T as <-. apply databaseFailure_prefix.
    + intros q message L' _ _. rewrite L in L'.
      apply (f_equal (@List.length request)) in L'.
      rewrite List.length_app in L'. simpl in L'. lia.
  - split.
    + intros e T. destruct (truthy (error (supabase log q))).
      * rewrite H in T. injection T as <-. apply databaseFailure_prefix.
      * destruct H as (items & E & _). congruence.
    + intros q' message L' G N. rewrite L in L'.
      apply app_inj_tail in L' as [_ <-].
      destruct (error (supabase log q)) eqn:E; try discriminate G.
      cbn [truthy] in H. rewrite H.
      unfold databaseFailure, formatSupabaseError. cbn [truthy negb].
      rewrite G. apply isEmpty_false in N.
      cbn [truthy]. rewrite N. cbn [negb newError ToString formatCaught truthy].
      rewrite N. reflexivity.
Qed.

(** X6 on a read of [users] that the backend refuses. *)
Lemma executeDatabaseOperation_errors_witness :
  snd (executeDatabaseOperation (P := refPlatform)
         (crudItem "read" "simple" "{}" [] [] "{}")
         (failing (JObj [("message", JStr "permission denied for table users")]))
         "read" 0 [])
  = Throw (Error "Database operation failed: permission denied for table users").
Proof.
  refine (proj2 (executeDatabaseOperation_errors (P := refPlatform)
                   (crudItem "read" "simple" "{}" [] [] "{}")
                   (failing (JObj [("message",
                                    JStr "permission denied for table users")]))
                   "read" 0 [])
                (From "users" (Select "*") [CallLimit 100; CallRange 0 99])
                "permission denied for table users" eq_refl eq_refl _).
  discriminate.
Defined.

(** ** The batch loop, in general *)

Lemma validateCredentials_cases {P : Platform}
  (credentials : ISupabaseCredentials) :
  validateCredentials credentials = Return tt \/
  exists message, validateCredentials credentials = Throw (Error message).
Proof.
  unfold validateCredentials.
  repeat match goal with
         | |- context [if ?b then _ else _] => destruct b
         end; eauto.
Qed.

Lemma itemLoop_returns (this : IExecuteFunctions)
  (body : nat -> M (list INodeExecutionData)) :
  continueOnFail this = true ->
  forall remaining start acc log,
  exists output, snd (itemLoop this body remaining start acc log) = Return output.
Proof.
  intros C. induction remaining as [| remaining IH]; intros start acc log.
  - simpl. eauto.
  - rewrite itemLoop_step.
    destruct (body start log) as [log1 [results | e]]; [apply IH |].
    unfold onItemError. rewrite C. unfold ret. apply IH.
Qed.

(** X7. With valid credentials and continue-on-failure active, [execute]
    never throws, whatever the items do: it returns one list of records. *)
Theorem execute_continue_never_throws {P : Platform} {K : Collaborators}
  (this : IExecuteFunctions) (log : list request) :
  validateCredentials (getCredentials this) = Return tt ->
  continueOnFail this = true ->
  exists output, snd (execute this log) = Return [output].
Proof.
  intros V C. unfold execute. rewrite V. unfold bind.
  destruct (itemLoop_returns this
              (processItem this (createSupabaseClient (getCredentials this)))
              C (List.length (getInputData this)) 0 [] log) as [output E].
  destruct (itemLoop _ _ _ _ _ _) as [log1 o]. simpl in E. subst o.
  exists output. reflexivity.
Qed.

(** X7 on the batch of three items whose second one fails. *)
Lemma execute_continue_never_throws_witness :
  exists output,
    snd (execute (P := refPlatform) (K := sampleCollaborators)
                 (threeItems true) [])
    = Return [output].
Proof.
  exact (execute_continue_never_throws (P := refPlatform)
           (K := sampleCollaborators) (threeItems true) [] eq_refl eq_refl).
Defined.

(** X8. Credentials that do not pass [validateCredentials] stop [execute]
    before the first item, also in continue-on-failure mode: it throws a
    [NodeOperationError] whose message starts with [Invalid credentials: ]
    and sends no request. *)
Theorem execute_invalid_credentials {P : Platform} {K : Collaborators}
  (this : IExecuteFunctions) (log : list request) :
  validateCredentials (getCredentials this) <> Return tt ->
  exists message,
    validateCredentials (getCredentials this) = Throw (Error message) /\
    execute this log
    = (log, Throw (NodeOperationError ("Invalid credentials: " ++ message) None)).
Proof.
  intros N. unfold execute.
  destruct (validateCredentials_cases (getCredentials this)) as [V | [m V]];
    [contradiction |].
  exists m. rewrite V. split; reflexivity.
Qed.

(** X8 on a batch whose host is [https://example.com], in
    continue-on-failure mode. *)
Lemma execute_invalid_credentials_witness :
  execute (P := refPlatform) (K := sampleCollaborators) (foreignHost true) []
  = ([], Throw (NodeOperationError
                  "Invalid credentials: URL must be a valid Supabase project URL"
                  None)).
Proof.
  destruct (execute_invalid_credentials (P := refPlatform)
              (K := sampleCollaborators) (foreignHost true) [])
    as (message & V & E).
  - discriminate.
  - injection V as <-. exact E.
Defined.

Lemma itemLoop_concat (this : IExecuteFunctions)
  (body : nat -> M (list INodeExecutionData))
  (o : nat -> outcome (list INodeExecutionData)) :
  continueOnFail this = true ->
  forall remaining start acc log,
    (forall i log', start <= i < start + remaining -> snd (body i log') = o i) ->
    snd (itemLoop this body remaining start acc log)
    = Return (acc ++ List.flat_map (fun i => recordsOf i (o i))
                                   (seq start remaining))%list.
Proof.
  intros C. induction remaining as [| remaining IH]; intros start acc log H.
  - simpl. rewrite List.app_nil_r. reflexivity.
  - rewrite itemLoop_step. cbn [seq List.flat_map].
    pose proof (H start log ltac:(lia)) as E.
    destruct (body start log) as [log1 [results | e]]; simpl in E; rewrite <- E.
    + rewrite IH by (intros; apply H; lia).
      rewrite <- List.app_assoc. reflexivity.
    + unfold onItemError. rewrite C. unfold ret.
      rewrite IH by (intros; apply H; lia).
      rewrite <- List.app_assoc. reflexivity.
Qed.

(** X9. In continue-on-failure mode the output of [execute] is the
    concatenation, in input order, of what each item contributes: all the
    records its [try] block returned, or one error record carrying its
    index.  Items contribute independently: any number may fail and any may
    return several records. *)
Theorem execute_concatenates {P : Platform} {K : Collaborators}
  (this : IExecuteFunctions) (o : nat -> outcome (list INodeExecutionData))
  (log : list request) :
  validateCredentials (getCredentials this) = Return tt ->
  continueOnFail this = true ->
  (forall i log', i < List.length (getInputData this) ->
     snd (processItem this (createSupabaseClient (getCredentials this)) i log')
     = o i) ->
  snd (execute this log)
  = Return [List.flat_map (fun i => recordsOf i (o i))
                          (seq 0 (List.length (getInputData this)))].
Proof.
  intros V C H. unfold execute. rewrite V. unfold bind.
  pose proof (itemLoop_concat this
                (processItem this (createSupabaseClient (getCredentials this)))
                o C (List.length (getInputData this)) (start := 0) [] log
                (fun i log' B => H i log' (proj2 B))) as E.
  destruct (itemLoop _ _ _ _ _ _) as [log1 r]. simpl in E. subst r. reflexivity.
Qed.

(** X9 on the batch of three items whose second one fails. *)
Lemma execute_concatenates_witness :
  snd (execute (P := refPlatform) (K := sampleCollaborators)
               (threeItems true) [])
  = Return [[{| json := alice |};
             errorRecord
               "Database operation failed: At least one filter is required for delete operations to prevent accidental data loss"
               1;
             {| json := alice |}]].
Proof.
  refine (execute_concatenates (P := refPlatform) (K := sampleCollaborators)
            (threeItems true)
            (fun i => if (i =? 1)%nat then Throw guardFailure
                      else Return [{| json := alice |}])
            [] eq_refl eq_refl _).
  intros i log' L.
  destruct i as [| [| [| i]]]; [reflexivity | reflexivity | reflexivity |].
  simpl in L. lia.
Defined.

(** ** Names that reach the backend *)

Lemma handler_needs_table {P : Platform} {A} (name : string) (k : M A)
  (log : list request) :
  fst (bind (lift (validateTableName name)) (fun _ => k) log) <> log ->
  acceptable name.
Proof.
  intros N.
  destruct (validateTableName_cases name) as [V | [m V]].
  - apply validateTableName_ok. exact V.
  - rewrite (bind_lift_throw _ _ V) in N. destruct N. reflexivity.
Qed.

(** X10. None of the five row operations sends a request for a table whose
    name [validateTableName] rejects. *)
Theorem row_operations_validate_table {P : Platform} (this : IExecuteFunctions)
  (supabase : SupabaseClient) (operation : string) (itemIndex : nat)
  (log : list request) :
  In operation rowOperations ->
  fst (executeDatabaseOperation this supabase operation itemIndex log) <> log ->
  acceptable (table (getNodeParameter this itemIndex)).
Proof.
  intros I N.
  assert (H : forall m : M (list INodeExecutionData),
             fst (try_catch m (fun e => throw (databaseFailure e)) log) <> log ->
             fst (m log) <> log).
  { intros m. unfold try_catch, throw.
    destruct (m log) as [log' [items | e]]; exact (fun x => x). }
  unfold executeDatabaseOperation in N. apply H in N.
  simpl in I.
  destruct I as [<- | [<- | [<- | [<- | [<- | []]]]]];
    cbn [String.eqb Ascii.eqb Bool.eqb] in N;
    exact (handler_needs_table _ _ N).
Qed.

(** X10 on a create for the table [users]. *)
Lemma row_operations_validate_table_witness : acceptable "users".
Proof.
  refine (row_operations_validate_table (P := refPlatform)
            (crudItem "create" "simple" "{}" [] [] "{}")
            (answering (JArr [])) 0
            (operation := "create") (log := []) _ _).
  - simpl. tauto.
  - discriminate.
Defined.

(** X11. None of the five operations on tables, columns and index
    creation sends its statement unless the table name, and every column
    name that the operation takes, has passed its validator. *)
Theorem schema_operations_validate_names {P : Platform}
  (this : IExecuteFunctions) (supabase : SupabaseClient) (operation : string)
  (itemIndex : nat) (log : list request) :
  In operation schemaOperations ->
  fst (executeDatabaseOperation this supabase operation itemIndex log) <> log ->
  acceptable (tableName (getNodeParameter this itemIndex)) /\
  (operation = "createTable" ->
   Forall (fun column => acceptable (def_name column))
          (columnDefinitions_column (getNodeParameter this itemIndex))) /\
  (operation = "addColumn" ->
   acceptable (def_name (columnDefinition (getNodeParameter this itemIndex)))) /\
  (operation = "dropColumn" ->
   acceptable (columnName (getNodeParameter this itemIndex))).
Proof.
  intros I N.
  assert (H : forall m : M (list INodeExecutionData),
             fst (try_catch m (fun e => throw (databaseFailure e)) log) <> log ->
             fst (m log) <> log).
  { intros m. unfold try_catch, throw.
    destruct (m log) as [log' [items | e]]; exact (fun x => x). }
  unfold executeDatabaseOperation in N. apply H in N.
  destruct (table_and_column_names_validated this supabase itemIndex log)
    as (T1 & T2 & T3 & T4 & T5).
  simpl in I.
  destruct I as [<- | [<- | [<- | [<- | [<- | []]]]]];
    cbn [String.eqb Ascii.eqb Bool.eqb] in N.
  - destruct (T1 N) as [A F].
    split; [exact A |]. split; [intros _; exact F |].
    split; discriminate.
  - split; [exact (T2 N) |]. split; [| split]; discriminate.
  - destruct (T3 N) as [A C].
    split; [exact A |]. split; [discriminate |].
    split; [intros _; exact C | discriminate].
  - destruct (T4 N) as [A C].
    split; [exact A |]. split; [discriminate |].
    split; [discriminate | intros _; exact C].
  - split; [exact (T5 N) |]. split; [| split]; discriminate.
Qed.

(** X11 on a column drop that is sent. *)
Lemma schema_operations_validate_names_witness :
  acceptable "users" /\ acceptable "nickname".
Proof.
  destruct (schema_operations_validate_names (P := refPlatform)
              (dropColumnItem "users" "nickname") (answering JNull) 0
              (operation := "dropColumn") (log := []))
    as (A & _ & _ & C).
  - simpl. tauto.
  - discriminate.
  - exact (conj A (C eq_refl)).
Defined.

Lemma all_in_occurs (items : list RegExp.class_item) (s : string) (c : ascii) :
  RegExp.all_in items s = true -> occursIn (String c "") s ->
  RegExp.in_class items c = true.
Proof.
  intros A (before & after & ->). revert A.
  induction before as [| b before IH]; cbn [append RegExp.all_in].
  - intros A. apply andb_prop in A. tauto.
  - intros A. apply andb_prop in A. tauto.
Qed.

Lemma letter_is_word (c : ascii) :
  RegExp.in_class RegExp.letter c = true -> RegExp.in_class RegExp.word c = true.
Proof.
  destruct c as [[] [] [] [] [] [] [] []]; intros H;
    (reflexivity || discriminate H).
Qed.

(** X12. A name that [validateTableName] or [validateColumnName] accepts
    consists of letters, digits and underscores only; so it contains no
    double quote, no single quote, no semicolon and no space, and cannot
    end the quotation it is put into. *)
Theorem accepted_names_are_plain (name : string) :
  validateTableName name = Return tt \/ validateColumnName name = Return tt ->
  (forall c, occursIn (String c "") name ->
             RegExp.in_class RegExp.word c = true) /\
  ~ occursIn dq name /\ ~ occursIn "'" name /\ ~ occursIn ";" name
  /\ ~ occursIn " " name.
Proof.
  intros V.
  assert (A : acceptable name)
    by (destruct V as [V | V];
        [apply validateTableName_ok | apply validateColumnName_ok]; exact V).
  destruct A as [M _]. apply RegExpFacts.identifier_chars in M.
  destruct M as (c0 & rest & -> & L & W).
  assert (H : forall c, occursIn (String c "") (String c0 rest) ->
                        RegExp.in_class RegExp.word c = true).
  { intros c. apply all_in_occurs. cbn [RegExp.all_in].
    rewrite (letter_is_word c0 L), W. reflexivity. }
  split; [exact H |].
  repeat split; intros O; apply H in O; discriminate O.
Qed.

(** X12 at the name [order_items]. *)
Lemma accepted_names_are_plain_witness : ~ occursIn dq "order_items".
Proof.
  exact (proj1 (proj2 (accepted_names_are_plain "order_items"
                         (or_introl eq_refl)))).
Defined.

(** ** The chain of a read *)

(** X13. In simple mode, with a valid table name, the one request of
    [handleRead] applies the filters in the order they are declared, each
    with its operator converted, and the sort fields in their order after
    all of them. *)
Theorem handleRead_chain_order {P : Platform} (this : IExecuteFunctions)
  (supabase : SupabaseClient) (itemIndex : nat) (log : list request) :
  validateTableName (table (getNodeParameter this itemIndex)) = Return tt ->
  uiMode (getNodeParameter this itemIndex) = "simple" ->
  exists columns chain,
    fst (handleRead this supabase itemIndex log)
    = (log ++ [From (table (getNodeParameter this itemIndex))
                    (Select columns) chain])%list /\
    (forall j filter,
       nth_error (filters_filter (getNodeParameter this itemIndex)) j
       = Some filter ->
       nth_error chain j = Some (filterCall filter)) /\
    (forall j sortField,
       nth_error (sort_sortField (getNodeParameter this itemIndex)) j
       = Some sortField ->
       nth_error chain
         (List.length (filters_filter (getNodeParameter this itemIndex)) + j)
       = Some (orderCall sortField)).
Proof.
  intros V U. unfold handleRead.
  assert (F : readFilters (getNodeParameter this itemIndex)
              = Return (filterCalls (filters_filter
                                       (getNodeParameter this itemIndex)))).
  { unfold readFilters. rewrite U. reflexivity. }
  rewrite (bind_lift_return _ _ V), (bind_lift_return _ _ F).
  eexists _, _. split.
  - unfold bind, await, throwIfError, ret, throw.
    destruct (truthy (error _)); reflexivity.
  - unfold filterCalls. split.
    + intros j filter N.
      rewrite nth_error_app1
        by (rewrite List.length_map; apply nth_error_Some; congruence).
      rewrite nth_error_map, N. reflexivity.
    + intros j sortField N.
      rewrite nth_error_app2 by (rewrite List.length_map; lia).
      rewrite List.length_map.
      replace (List.length (filters_filter (getNodeParameter this itemIndex))
               + j
               - List.length (filters_filter (getNodeParameter this itemIndex)))
        with j by lia.
      rewrite nth_error_app1
        by (rewrite List.length_map; apply nth_error_Some; congruence).
      rewrite nth_error_map, N. reflexivity.
Qed.

(** X13 on a read with two filters and one sort field. *)
Lemma handleRead_chain_order_witness :
  exists columns chain,
    fst (handleRead (P := refPlatform) filteredRead (answering (JArr [])) 0 [])
    = [From "users" (Select columns) chain] /\
    nth_error chain 0 = Some (filterCall ageFilter) /\
    nth_error chain 1 = Some (filterCall statusFilter) /\
    nth_error chain 2
    = Some (orderCall {| sort_column := "name"; sort_ascending := true |}).
Proof.
  destruct (handleRead_chain_order (P := refPlatform) filteredRead
              (answering (JArr [])) 0 [] eq_refl eq_refl)
    as (columns & chain & E & F & S).
  exists columns, chain. split; [exact E |].
  split; [exact (F 0 _ eq_refl) |].
  split; [exact (F 1 _ eq_refl) | exact (S 0 _ eq_refl)].
Defined.

(** ** Advanced filters *)



Lemma app_one_neq {A} (l : list A) (x : A) : (l ++ [x])%list <> l.
Proof.
  intros E. apply (f_equal (@List.length A)) in E.
  rewrite List.length_app in E. simpl in E. lia.
Qed.





(** ** What each operation sends *)


Section Senders.

Context {P : Platform}.
Variable this : IExecuteFunctions.
Variable supabase : SupabaseClient.
Variable itemIndex : nat.
Variable log : list request.













End Senders.



(** ** The statements that drop a table or a column *)

Lemma occurs_char_In (c : ascii) (s : string) :
  occursIn (String c "") s <-> In c (list_ascii_of_string s).
Proof.
  split.
  - intros (before & after & ->).
    induction before as [| b before IH]; simpl; auto.
  - induction s as [| a s IH]; simpl; [tauto |].
    intros [-> | I].
    + exists "", s. reflexivity.
    + destruct (IH I) as (before & after & ->).
      exists (String a before), after. reflexivity.
Qed.

Lemma list_ascii_app (a b : string) :
  list_ascii_of_string (a ++ b)
  = (list_ascii_of_string a ++ list_ascii_of_string b)%list.
Proof.
  induction a as [| c a IH]; simpl; [reflexivity | rewrite IH; reflexivity].
Qed.

Lemma plainText_app (a b : string) :
  plainText a -> plainText b -> plainText (a ++ b).
Proof.
  unfold plainText. intros A B c O.
  apply occurs_char_In in O. rewrite list_ascii_app in O.
  apply in_app_or in O. destruct O as [O | O]; apply occurs_char_In in O; auto.
Qed.

Lemma acceptable_plain (name : string) : acceptable name -> plainText name.
Proof.
  intros [M _] c O. left.
  apply RegExpFacts.identifier_chars in M.
  destruct M as (c0 & rest & -> & L & W).
  revert O. apply all_in_occurs. cbn [RegExp.all_in].
  rewrite (letter_is_word c0 L), W. reflexivity.
Qed.

Ltac plain_literal :=
  let c := fresh "c" in
  let O := fresh "O" in
  intros c O; apply occurs_char_In in O; simpl in O;
  repeat (destruct O as [<- | O];
          [first [ left; reflexivity | right; left; reflexivity
                 | right; right; reflexivity ] |]);
  destruct O.

Lemma dq_plain : plainText dq.
Proof.
  plain_literal.
Qed.

Lemma cascade_plain (b : bool) : plainText (if b then " CASCADE" else "").
Proof.
  destruct b; plain_literal.
Qed.

(** X17. Every character of the statement that [handleDropTable] or
    [handleDropColumn] sends is a letter, a digit, an underscore, a space
    or a double quote: the validated names bring nothing into the statement
    that could end a quotation or start another statement. *)
Theorem drop_statements_are_plain {P : Platform} (this : IExecuteFunctions)
  (supabase : SupabaseClient) (itemIndex : nat) (log : list request)
  (q : request) :
  fst (handleDropTable this supabase itemIndex log) = (log ++ [q])%list \/
  fst (handleDropColumn this supabase itemIndex log) = (log ++ [q])%list ->
  exists sql, q = Rpc "exec_sql" sql /\ plainText sql /\ ~ occursIn ";" sql.
Proof.
  assert (S : forall sql, plainText sql -> ~ occursIn ";" sql).
  { intros sql T O. destruct (T _ O) as [W | [E | E]]; discriminate. }
  destruct (table_and_column_names_validated this supabase itemIndex log)
    as (_ & T & _ & C & _).
  intros [L | L].
  - assert (A : acceptable (tableName (getNodeParameter this itemIndex)))
      by (apply T; rewrite L; apply app_one_neq).
    revert L. unfold handleDropTable.
    rewrite (bind_lift_return _ _ (proj2 (validateTableName_ok _) A)).
    unfold exec_sql, bind, await, throwIfError, ret, throw.
    intros L.
    assert (E : q = Rpc "exec_sql"
                      ("DROP TABLE " ++ dq
                       ++ tableName (getNodeParameter this itemIndex) ++ dq
                       ++ (if cascade (getNodeParameter this itemIndex)
                           then " CASCADE" else ""))).
    { destruct (truthy (error _)); cbn [fst] in L;
        apply app_inj_tail in L as [_ <-]; reflexivity. }
    eexists. split; [exact E |].
    assert (T' : plainText
                   ("DROP TABLE " ++ dq
                    ++ tableName (getNodeParameter this itemIndex) ++ dq
                    ++ (if cascade (getNodeParameter this itemIndex)
                        then " CASCADE" else ""))).
    { apply plainText_app; [plain_literal |].
      apply plainText_app; [apply dq_plain |].
      apply plainText_app; [apply acceptable_plain; exact A |].
      apply plainText_app; [apply dq_plain | apply cascade_plain]. }
    split; [exact T' | exact (S _ T')].
  - destruct C as [A B]; [rewrite L; apply app_one_neq |].
    revert L. unfold handleDropColumn.
    rewrite (bind_lift_return _ _ (proj2 (validateTableName_ok _) A)).
    rewrite (bind_lift_return _ _ (proj2 (validateColumnName_ok _) B)).
    unfold exec_sql, bind, await, throwIfError, ret, throw.
    intros L.
    assert (E : q = Rpc "exec_sql"
                      ("ALTER TABLE " ++ dq
                       ++ tableName (getNodeParameter this itemIndex) ++ dq
                       ++ " DROP COLUMN " ++ dq
                       ++ columnName (getNodeParameter this itemIndex) ++ dq
                       ++ (if cascade (getNodeParameter this itemIndex)
                           then " CASCADE" else ""))).
    { destruct (truthy (error _)); cbn [fst] in L;
        apply app_inj_tail in L as [_ <-]; reflexivity. }
    eexists. split; [exact E |].
    assert (T' : plainText
                   ("ALTER TABLE " ++ dq
                    ++ tableName (getNodeParameter this itemIndex) ++ dq
                    ++ " DROP COLUMN " ++ dq
                    ++ columnName (getNodeParameter this itemIndex) ++ dq
                    ++ (if cascade (getNodeParameter this itemIndex)
                        then " CASCADE" else ""))).
    { apply plainText_app; [plain_literal |].
      apply plainText_app; [apply dq_plain |].
      apply plainText_app; [apply acceptable_plain; exact A |].
      apply plainText_app; [apply dq_plain |].
      apply plainText_app; [plain_literal |].
      apply plainText_app; [apply dq_plain |].
      apply plainText_app; [apply acceptable_plain; exact B |].
      apply plainText_app; [apply dq_plain | apply cascade_plain]. }
    split; [exact T' | exact (S _ T')].
Qed.

(** X17 on the drop of the column [nickname] of [users]. *)
Lemma drop_statements_are_plain_witness :
  exists sql,
    Rpc "exec_sql"
        ("ALTER TABLE " ++ dq ++ "users" ++ dq ++ " DROP COLUMN " ++ dq
         ++ "nickname" ++ dq)
    = Rpc "exec_sql" sql /\ plainText sql /\ ~ occursIn ";" sql.
Proof.
  apply (@drop_statements_are_plain refPlatform
           (dropColumnItem "users" "nickname") (answering JNull) 0 []).
  right. reflexivity.
Defined.

(* ------------------------------------------------------------------ *)
(** * Properties of the storage handlers *)

Import Storage.

(** ** Object literals *)

Lemma lookup_set_own_same (k : string) (v : value)
  (props : list (string * value)) :
  lookup k (set_own k v props) = v.
Proof.
  induction props as [| [k' v'] rest IH]; cbn [set_own lookup].
  - rewrite String.eqb_refl. reflexivity.
  - destruct (String.eqb k k') eqn:E; cbn [lookup]; rewrite E; auto.
Qed.

Lemma lookup_set_own_other (k k' : string) (v : value)
  (props : list (string * value)) :
  k <> k' -> lookup k (set_own k' v props) = lookup k props.
Proof.
  intros N. apply String.eqb_neq in N.
  induction props as [| [k'' v''] rest IH]; cbn [set_own lookup].
  - rewrite N. reflexivity.
  - destruct (String.eqb k' k'') eqn:E; cbn [lookup].
    + apply String.eqb_eq in E. subst k''. rewrite N. reflexivity.
    + destruct (String.eqb k k''); auto.
Qed.

Lemma hasProperty_In (k : string) (props : list (string * value)) :
  hasProperty k props = true <-> In k (List.map fst props).
Proof.
  unfold hasProperty. rewrite existsb_exists. split.
  - intros ([k' v] & I & E). apply String.eqb_eq in E. subst k.
    apply (in_map fst) in I. exact I.
  - intros I. apply in_map_iff in I. destruct I as ([k' v] & <- & I).
    exists (k', v). split; [exact I | apply String.eqb_refl].
Qed.

Lemma lookup_absent (k : string) (props : list (string * value)) :
  hasProperty k props = false -> lookup k props = JUndefined.
Proof.
  induction props as [| [k' v'] props IH]; [reflexivity |].
  unfold hasProperty. cbn [existsb fst]. intros H.
  apply orb_false_elim in H. destruct H as [H1 H2].
  cbn [lookup]. rewrite H1. apply IH. exact H2.
Qed.

Lemma lookup_spread (k : string) (entries acc : list (string * value)) :
  NoDup (List.map fst entries) ->
  lookup k (fold_left (fun acc kv => set_own (fst kv) (snd kv) acc) entries acc)
  = if hasProperty k entries then lookup k entries else lookup k acc.
Proof.
  revert acc. induction entries as [| [k1 v1] rest IH]; intros acc D.
  - reflexivity.
  - inversion D as [| ? ? N D']; subst. cbn [fold_left fst snd].
    rewrite (IH _ D').
    unfold hasProperty at 2. cbn [existsb fst lookup].
    fold (hasProperty k rest).
    destruct (String.eqb k k1) eqn:E; cbn [orb].
    + apply String.eqb_eq in E. subst k1.
      destruct (hasProperty k rest) eqn:H.
      * apply hasProperty_In in H. contradiction.
      * apply lookup_set_own_same.
    + apply String.eqb_neq in E.
      destruct (hasProperty k rest); [reflexivity |].
      apply lookup_set_own_other. exact E.
Qed.

(** ** The dispatcher *)

Lemma storageFailure_prefix {P : Platform} (e : thrown) :
  exists message,
    storageFailure e = Error ("Storage operation failed: " ++ message).
Proof.
  unfold storageFailure. eauto.
Qed.

(** X18. Every exception that leaves [executeStorageOperation] is an
    [Error] whose message starts with [Storage operation failed: ], and an
    operation that is none of the twelve fails with
    [Unknown storage operation: ] and its name, without a call. *)
Theorem executeStorageOperation_errors {P : Platform} {R : Runtime}
  {T : Transfers} (this : IExecuteFunctions) (supabase : StorageClient)
  (operation : string) (itemIndex : nat) (log : list call) :
  (forall e,
     snd (executeStorageOperation this supabase operation itemIndex log)
     = Throw e ->
     exists message, e = Error ("Storage operation failed: " ++ message)) /\
  (~ In operation storageOperations ->
   executeStorageOperation this supabase operation itemIndex log
   = (log, Throw (Error ("Storage operation failed: Unknown storage operation: "
                         ++ operation)))).
Proof.
  split.
  - intros e. unfold executeStorageOperation, try_catch, throw.
    match goal with
    | |- context [match ?m log with _ => _ end] =>
        destruct (m log) as [log' [items | e']]
    end; cbn [snd]; [discriminate |].
    intros [= <-]. apply storageFailure_prefix.
  - intros N. unfold executeStorageOperation.
    repeat match goal with
           | |- context [String.eqb operation ?s] =>
               destruct (String.eqb_spec operation s) as [E |];
               [exfalso; apply N; rewrite E; simpl; tauto |]
           end.
    reflexivity.
Qed.

(** X18 on the operation [renameFile]. *)
Lemma executeStorageOperation_errors_witness :
  executeStorageOperation (P := refPlatform) (R := sampleRuntime)
    (T := noTransfers)
    (storageItem (storageParameters "docs" (OnePath "a.txt") "" "" "a.txt"))
    (answering JNull) "renameFile" 0 []
  = ([], Throw (Error "Storage operation failed: Unknown storage operation: renameFile")).
Proof.
  apply (proj2 (@executeStorageOperation_errors refPlatform sampleRuntime
                  noTransfers
                  (storageItem
                     (storageParameters "docs" (OnePath "a.txt") "" "" "a.txt"))
                  (answering JNull) "renameFile" 0 [])).
  simpl. intros H.
  repeat (destruct H as [H | H]; [discriminate H |]). exact H.
Defined.

(** ** The guards *)

Lemma isEmpty_orb_false (a b : string) :
  JsString.isEmpty a || JsString.isEmpty b = false -> a <> "" /\ b <> "".
Proof.
  destruct a, b; simpl; intros H; try discriminate H; split; discriminate.
Qed.

Ltac run_storage :=
  unfold callsOnly, bind, require, lift, ret, throw, await, throwIfError;
  repeat match goal with
         | |- context [truthy (error ?r)] => destruct (truthy (error r))
         end;
  cbn [fst snd];
  first [ left; reflexivity
        | right; eexists; split; [reflexivity |]; cbn [addressed] ].

Section Guards.

Context {P : Platform} {R : Runtime}.
Variable this : IExecuteFunctions.
Variable supabase : StorageClient.
Variable itemIndex : nat.
Variable log : list call.

Lemma handleListFiles_calls :
  callsOnly addressed log (handleListFiles this supabase itemIndex log).
Proof.
  unfold handleListFiles.
  destruct (JsString.isEmpty (bucket (getNodeParameter this itemIndex))) eqn:E;
    run_storage; apply isEmpty_false; exact E.
Qed.

Lemma handleDeleteFile_calls :
  callsOnly addressed log (handleDeleteFile this supabase itemIndex log).
Proof.
  unfold handleDeleteFile.
  destruct (JsString.isEmpty (bucket (getNodeParameter this itemIndex))) eqn:E;
    cbn [orb];
    [| destruct (noPaths (filePaths (getNodeParameter this itemIndex)))];
    run_storage; apply isEmpty_false; exact E.
Qed.

Lemma handleMoveFile_calls :
  callsOnly addressed log (handleMoveFile this supabase itemIndex log).
Proof.
  unfold handleMoveFile.
  destruct (JsString.isEmpty (bucket (getNodeParameter this itemIndex))) eqn:E1;
    destruct (JsString.isEmpty (fromPath (getNodeParameter this itemIndex)))
      eqn:E2;
    destruct (JsString.isEmpty (toPath (getNodeParameter this itemIndex)))
      eqn:E3;
    cbn [orb]; run_storage;
    repeat split; apply isEmpty_false; assumption.
Qed.

Lemma handleCopyFile_calls :
  callsOnly addressed log (handleCopyFile this supabase itemIndex log).
Proof.
  unfold handleCopyFile.
  destruct (JsString.isEmpty (bucket (getNodeParameter this itemIndex))) eqn:E1;
    destruct (JsString.isEmpty (fromPath (getNodeParameter this itemIndex)))
      eqn:E2;
    destruct (JsString.isEmpty (toPath (getNodeParameter this itemIndex)))
      eqn:E3;
    cbn [orb]; run_storage;
    repeat split; apply isEmpty_false; assumption.
Qed.

Lemma handleCreateBucket_calls :
  callsOnly addressed log (handleCreateBucket this supabase itemIndex log).
Proof.
  unfold handleCreateBucket.
  destruct (JsString.isEmpty (bucketName (getNodeParameter this itemIndex)))
    eqn:E;
    run_storage; apply isEmpty_false; exact E.
Qed.

Lemma handleDeleteBucket_calls :
  callsOnly addressed log (handleDeleteBucket this supabase itemIndex log).
Proof.
  unfold handleDeleteBucket.
  destruct (JsString.isEmpty (bucketName (getNodeParameter this itemIndex)))
    eqn:E;
    run_storage; apply isEmpty_false; exact E.
Qed.

Lemma handleListBuckets_calls :
  callsOnly addressed log (handleListBuckets this supabase itemIndex log).
Proof.
  unfold handleListBuckets. run_storage; exact I.
Qed.

Lemma handleGetBucketDetails_calls :
  callsOnly addressed log (handleGetBucketDetails this supabase itemIndex log).
Proof.
  unfold handleGetBucketDetails.
  destruct (JsString.isEmpty (bucketName (getNodeParameter this itemIndex)))
    eqn:E;
    run_storage; apply isEmpty_false; exact E.
Qed.

Lemma handleGetFileInfo_calls :
  callsOnly addressed log (handleGetFileInfo this supabase itemIndex log).
Proof.
  unfold handleGetFileInfo.
  destruct (JsString.isEmpty (bucket (getNodeParameter this itemIndex))
            || JsString.isEmpty (filePath (getNodeParameter this itemIndex)))
    eqn:E; [left; reflexivity |].
  apply isEmpty_orb_false in E. destruct E as [E _].
  unfold callsOnly, bind, require, lift, ret, throw, await, throwIfError.
  right. eexists.
  destruct (truthy (error _)); cbn [fst];
    [split; [reflexivity | exact E] |].
  destruct (optFind _ _) as [fileInfo |]; cbn [fst];
    [destruct (negb (truthy fileInfo)) |]; cbn [fst];
    (split; [reflexivity | exact E]).
Qed.

Lemma handleGenerateSignedUrl_calls :
  callsOnly addressed log (handleGenerateSignedUrl this supabase itemIndex log).
Proof.
  unfold handleGenerateSignedUrl.
  destruct (JsString.isEmpty (bucket (getNodeParameter this itemIndex))
            || JsString.isEmpty (filePath (getNodeParameter this itemIndex)))
    eqn:E; [left; reflexivity |].
  apply isEmpty_orb_false in E.
  unfold callsOnly, bind, require, lift, ret, throw, await, throwIfError.
  right. eexists.
  destruct (truthy (error _)); cbn [fst];
    [split; [reflexivity | exact E] |].
  destruct (optionalField "path" _) as [path |]; cbn [fst];
    [destruct (optionalField "token" _) as [token |] |]; cbn [fst];
    (split; [reflexivity | exact E]).
Qed.

End Guards.

(** X19. Apart from the two transfers, every storage operation makes at
    most one call, and makes none unless the bucket and the paths it works
    on are given: the call never carries an empty bucket name, nor an empty
    source, destination or file path. *)
Theorem storage_operations_call_once {P : Platform} {R : Runtime}
  {T : Transfers} (this : IExecuteFunctions) (supabase : StorageClient)
  (operation : string) (itemIndex : nat) (log : list call) :
  operation <> "uploadFile" -> operation <> "downloadFile" ->
  fst (executeStorageOperation this supabase operation itemIndex log) = log \/
  exists c,
    fst (executeStorageOperation this supabase operation itemIndex log)
    = (log ++ [c])%list /\ addressed c.
Proof.
  intros U D.
  assert (H : forall m : S (list INodeExecutionData),
             callsOnly addressed log (m log) ->
             callsOnly addressed log
                       (try_catch m (fun e => throw (storageFailure e)) log)).
  { intros m. unfold callsOnly, try_catch, throw.
    destruct (m log) as [log' [items | e]]; exact (fun x => x). }
  unfold executeStorageOperation. apply H.
  destruct (String.eqb_spec operation "uploadFile") as [E |]; [contradiction |].
  destruct (String.eqb_spec operation "downloadFile") as [E |];
    [contradiction |].
  repeat match goal with
         | |- context [String.eqb operation ?s] =>
             destruct (String.eqb operation s)
         end;
    first [ apply handleListFiles_calls | apply handleDeleteFile_calls
          | apply handleMoveFile_calls | apply handleCopyFile_calls
          | apply handleCreateBucket_calls | apply handleDeleteBucket_calls
          | apply handleListBuckets_calls
          | apply handleGetBucketDetails_calls
          | apply handleGetFileInfo_calls
          | apply handleGenerateSignedUrl_calls
          | (left; reflexivity) ].
Qed.

(** X19 on a move without a destination. *)
Lemma storage_operations_call_once_witness :
  fst (executeStorageOperation (P := refPlatform) (R := sampleRuntime)
         (T := noTransfers)
         (storageItem (storageParameters "docs" (OnePath "a.txt") "" "" "a.txt"))
         (answering JNull) "moveFile" 0 [])
  = [].
Proof.
  destruct (@storage_operations_call_once refPlatform sampleRuntime noTransfers
              (storageItem
                 (storageParameters "docs" (OnePath "a.txt") "" "" "a.txt"))
              (answering JNull) "moveFile" 0 [])
    as [E | (c & E & A)].
  - discriminate.
  - discriminate.
  - exact E.
  - discriminate E.
Defined.

(** ** Listings *)

(** X20. When the listing is a non-empty array, [handleListFiles] returns
    one item per entry, in order.  Each item carries the bucket and the
    folder of the parameters, also when the entry has properties of these
    names, and every other property of an entry that is an object. *)
Theorem handleListFiles_items {P : Platform} (this : IExecuteFunctions)
  (supabase : StorageClient) (itemIndex : nat) (log : list call)
  (files : list value) :
  bucket (getNodeParameter this itemIndex) <> "" ->
  truthy (error (supabase log
                   (List (bucket (getNodeParameter this itemIndex))
                         (folderPath (getNodeParameter this itemIndex))
                         (listOptions (getNodeParameter this itemIndex)))))
  = false ->
  data (supabase log
          (List (bucket (getNodeParameter this itemIndex))
                (folderPath (getNodeParameter this itemIndex))
                (listOptions (getNodeParameter this itemIndex))))
  = JArr files ->
  files <> [] ->
  exists items,
    snd (handleListFiles this supabase itemIndex log) = Return items /\
    List.length items = List.length files /\
    forall j file,
      nth_error files j = Some file ->
      exists it,
        nth_error items j = Some it /\
        getProp (json it) "bucket"
        = JStr (bucket (getNodeParameter this itemIndex)) /\
        getProp (json it) "folderPath"
        = JStr (folderPath (getNodeParameter this itemIndex)) /\
        forall props k,
          file = JObj props -> NoDup (List.map fst props) ->
          k <> "bucket" -> k <> "folderPath" ->
          getProp (json it) k = getProp file k.
Proof.
  intros B E D N. apply isEmpty_false in B.
  unfold handleListFiles, bind, require, await, throwIfError, ret, throw.
  rewrite B. cbn [fst snd]. rewrite E, D. cbn [snd].
  assert (Z : (List.length (fileItems (getNodeParameter this itemIndex)
                                      (JArr files)) =? 0)%nat = false).
  { unfold fileItems. rewrite List.length_map.
    destruct files; [contradiction | reflexivity]. }
  rewrite Z. clear Z.
  exists (fileItems (getNodeParameter this itemIndex) (JArr files)).
  split; [reflexivity |].
  unfold fileItems. split; [apply List.length_map |].
  intros j file J. rewrite nth_error_map, J. cbn [option_map].
  eexists. split; [reflexivity |].
  unfold objectLiteral. cbn [json fold_left define getProp].
  split; [| split].
  - rewrite lookup_set_own_other by discriminate.
    apply lookup_set_own_same.
  - apply lookup_set_own_same.
  - intros props k -> U K1 K2. cbn [ownEnumerable getProp].
    rewrite !lookup_set_own_other by assumption.
    rewrite (@lookup_spread k props [] U).
    destruct (hasProperty k props) eqn:H; [reflexivity |].
    cbn [lookup]. symmetry. apply lookup_absent. exact H.
Qed.

(** X20 on a listing of two entries, the first with a [bucket] of its
    own. *)
Lemma handleListFiles_items_witness :
  exists items,
    snd (handleListFiles (P := refPlatform)
           (storageItem (storageParameters "docs" (OnePath "") "" "" ""))
           (answering (JArr [reportFile; notesFile])) 0 [])
    = Return items /\
    List.length items = 2 /\
    exists it,
      nth_error items 0 = Some it /\
      getProp (json it) "bucket" = JStr "docs" /\
      getProp (json it) "name" = JStr "q1.pdf".
Proof.
  destruct (@handleListFiles_items refPlatform
              (storageItem (storageParameters "docs" (OnePath "") "" "" ""))
              (answering (JArr [reportFile; notesFile])) 0 []
              [reportFile; notesFile])
    as (items & E & L & H).
  - discriminate.
  - reflexivity.
  - reflexivity.
  - discriminate.
  - exists items. split; [exact E |]. split; [exact L |].
    destruct (H 0 reportFile eq_refl) as (it & J & B & _ & K).
    exists it. split; [exact J |]. split; [exact B |].
    apply (K [("name", JStr "q1.pdf"); ("bucket", JStr "elsewhere")] "name"
             eq_refl).
    + repeat constructor; simpl; intuition discriminate.
    + discriminate.
    + discriminate.
Defined.

(** X21. In the item of [handleGetBucketDetails] the properties of the
    answer come last: a property that the answer has is reported with the
    answer's value, also [operation] and [bucketName], and only the names
    that the answer lacks keep the values of the handler. *)
Theorem handleGetBucketDetails_answer_wins {P : Platform}
  (this : IExecuteFunctions) (supabase : StorageClient) (itemIndex : nat)
  (log : list call) (props : list (string * value)) :
  bucketName (getNodeParameter this itemIndex) <> "" ->
  truthy (error (supabase log
                   (GetBucket (bucketName (getNodeParameter this itemIndex)))))
  = false ->
  data (supabase log (GetBucket (bucketName (getNodeParameter this itemIndex))))
  = JObj props ->
  NoDup (List.map fst props) ->
  exists it,
    snd (handleGetBucketDetails this supabase itemIndex log) = Return [it] /\
    forall k,
      getProp (json it) k
      = if hasProperty k props then lookup k props
        else lookup k [("operation", JStr "getBucketDetails");
                       ("bucketName",
                        JStr (bucketName (getNodeParameter this itemIndex)))].
Proof.
  intros B E D U. apply isEmpty_false in B.
  unfold handleGetBucketDetails, bind, require, await, throwIfError, ret, throw.
  rewrite B. cbn [fst snd]. rewrite E, D. cbn [snd].
  eexists. split; [reflexivity |].
  intros k. unfold objectLiteral.
  cbn [json fold_left define getProp ownEnumerable set_own String.eqb
       Ascii.eqb Bool.eqb].
  apply (@lookup_spread k props _ U).
Qed.

(** X21 on an answer that has an [operation] of its own. *)
Lemma handleGetBucketDetails_answer_wins_witness :
  exists it,
    snd (handleGetBucketDetails (P := refPlatform)
           (storageItem (storageParameters "" (OnePath "") "docs" "" ""))
           (answering bucketDetails) 0 [])
    = Return [it] /\
    getProp (json it) "operation" = JStr "audit" /\
    getProp (json it) "bucketName" = JStr "docs".
Proof.
  destruct (@handleGetBucketDetails_answer_wins refPlatform
              (storageItem (storageParameters "" (OnePath "") "docs" "" ""))
              (answering bucketDetails) 0 []
              [("id", JStr "docs"); ("public", JBool false);
               ("operation", JStr "audit")])
    as (it & E & H).
  - discriminate.
  - reflexivity.
  - reflexivity.
  - repeat constructor; simpl; intuition discriminate.
  - exists it. split; [exact E |].
    split; [exact (H "operation") | exact (H "bucketName")].
Defined.

(** ** Deleting files *)

(** X22. [handleDeleteFile] makes no call exactly when the bucket name is
    empty or the one path given is the empty string; an array of paths
    passes the guard, also the empty array.  The call it makes removes the
    paths as given, a single path as an array of one. *)
Theorem handleDeleteFile_guard {P : Platform} (this : IExecuteFunctions)
  (supabase : StorageClient) (itemIndex : nat) (log : list call) :
  (fst (handleDeleteFile this supabase itemIndex log) = log <->
   bucket (getNodeParameter this itemIndex) = "" \/
   filePaths (getNodeParameter this itemIndex) = OnePath "") /\
  (forall c,
     fst (handleDeleteFile this supabase itemIndex log) = (log ++ [c])%list ->
     (forall path,
        filePaths (getNodeParameter this itemIndex) = OnePath path ->
        c = Remove (bucket (getNodeParameter this itemIndex)) [path]) /\
     (forall paths,
        filePaths (getNodeParameter this itemIndex) = ManyPaths paths ->
        c = Remove (bucket (getNodeParameter this itemIndex)) paths)).
Proof.
  destruct (JsString.isEmpty (bucket (getNodeParameter this itemIndex))) eqn:B.
  - assert (E : fst (handleDeleteFile this supabase itemIndex log) = log)
      by (unfold handleDeleteFile, bind, require, throw; rewrite B;
          reflexivity).
    rewrite E. apply isEmpty_true in B. split.
    + split; [intros _; left; exact B | reflexivity].
    + intros c L. symmetry in L. destruct (@app_one_neq _ _ _ L).
  - destruct (noPaths (filePaths (getNodeParameter this itemIndex))) eqn:F.
    + assert (E : fst (handleDeleteFile this supabase itemIndex log) = log)
        by (unfold handleDeleteFile, bind, require, throw; rewrite B, F;
            reflexivity).
      rewrite E. split.
      * split; [| reflexivity]. intros _. right.
        destruct (filePaths (getNodeParameter this itemIndex)) as [path |];
          [| discriminate F].
        apply isEmpty_true in F. rewrite F. reflexivity.
      * intros c L. symmetry in L. destruct (@app_one_neq _ _ _ L).
    + assert (E : fst (handleDeleteFile this supabase itemIndex log)
                  = (log ++ [Remove (bucket (getNodeParameter this itemIndex))
                                    (pathsArray
                                       (filePaths
                                          (getNodeParameter this itemIndex)))])%list).
      { unfold handleDeleteFile, bind, require, await, throwIfError, ret, throw.
        rewrite B, F. cbn [orb fst].
        destruct (truthy (error _)); reflexivity. }
      rewrite E. apply isEmpty_false in B. split.
      * split; [intros L; destruct (@app_one_neq _ _ _ L) |].
        intros [L | L]; [contradiction |].
        rewrite L in F. discriminate F.
      * intros c L. apply app_inj_tail in L as [_ <-].
        split; [intros path -> | intros paths ->]; reflexivity.
Qed.

(** X22 on an empty array of paths: the call is made. *)
Lemma handleDeleteFile_guard_witness :
  fst (handleDeleteFile (P := refPlatform)
         (storageItem (storageParameters "docs" (ManyPaths []) "" "" ""))
         (answering JNull) 0 [])
  <> [].
Proof.
  intros E.
  apply (proj1 (@handleDeleteFile_guard refPlatform
                  (storageItem
                     (storageParameters "docs" (ManyPaths []) "" "" ""))
                  (answering JNull) 0 [])) in E.
  destruct E as [E | E]; discriminate E.
Defined.

(** ** File information *)

Lemma find_found {R : Runtime} (name : string) (files : list value)
  (fileInfo : value) :
  find name files = Return fileInfo -> truthy fileInfo = true ->
  In fileInfo files /\ getProp fileInfo "name" = JStr name.
Proof.
  induction files as [| file rest IH]; cbn [find].
  - intros [= <-]. discriminate.
  - assert (G : find name rest = Return fileInfo -> truthy fileInfo = true ->
                In fileInfo (file :: rest) /\ getProp fileInfo "name" = JStr name).
    { intros F T. destruct (IH F T) as [I N]. split; [right; exact I | exact N]. }
    destruct file as [| | b | n | s | items | props]; try discriminate;
      cbn [getProp]; try exact G.
    destruct (lookup "name" props) as [| | b | n | s | items | props'] eqn:L;
      try exact G.
    destruct (String.eqb_spec s name) as [-> |]; [| exact G].
    intros [= <-] _. split; [left; reflexivity | exact L].
Qed.

Lemma find_missing {R : Runtime} (name : string) (files : list value) :
  (forall file, In file files ->
                file <> JNull /\ file <> JUndefined /\
                getProp file "name" <> JStr name) ->
  find name files = Return JUndefined.
Proof.
  induction files as [| file rest IH]; intros H; cbn [find]; [reflexivity |].
  destruct (H file (or_introl eq_refl)) as (N1 & N2 & N3).
  assert (G : find name rest = Return JUndefined)
    by (apply IH; intros f I; apply H; right; exact I).
  destruct file as [| | b | n | s | items | props]; try contradiction;
    cbn [getProp] in *; try exact G.
  destruct (lookup "name" props) as [| | b | n | s | items | props'];
    try exact G.
  destruct (String.eqb_spec s name) as [-> |]; [contradiction | exact G].
Qed.

(** X23. With a bucket and a path given, [handleGetFileInfo] lists the
    directory of the path, searching for its base name.  What it returns is
    one item for an entry of the answer whose [name] is that base name, and
    the item reports this name; when the answer is [null], or an array of
    entries none of which has the name, it fails with [File not found]. *)
Theorem handleGetFileInfo_lookup {P : Platform} {R : Runtime}
  (this : IExecuteFunctions) (supabase : StorageClient) (itemIndex : nat)
  (log : list call) (r : response) :
  bucket (getNodeParameter this itemIndex) <> "" ->
  filePath (getNodeParameter this itemIndex) <> "" ->
  r = supabase log
        (List (bucket (getNodeParameter this itemIndex))
              (path_dirname (filePath (getNodeParameter this itemIndex)))
              (JObj [("search",
                      JStr (path_basename
                              (filePath (getNodeParameter this itemIndex))))])) ->
  fst (handleGetFileInfo this supabase itemIndex log)
  = (log ++ [List (bucket (getNodeParameter this itemIndex))
                  (path_dirname (filePath (getNodeParameter this itemIndex)))
                  (JObj [("search",
                          JStr (path_basename
                                  (filePath (getNodeParameter this itemIndex))))])])%list /\
  (forall items,
     snd (handleGetFileInfo this supabase itemIndex log) = Return items ->
     exists files fileInfo it,
       data r = JArr files /\ In fileInfo files /\ items = [it] /\
       getProp fileInfo "name"
       = JStr (path_basename (filePath (getNodeParameter this itemIndex))) /\
       (distinctKeys fileInfo ->
        getProp (json it) "name"
        = JStr (path_basename (filePath (getNodeParameter this itemIndex))))) /\
  (truthy (error r) = false ->
   data r = JNull \/
   (exists files,
      data r = JArr files /\
      forall file, In file files ->
                   file <> JNull /\ file <> JUndefined /\
                   getProp file "name"
                   <> JStr (path_basename
                              (filePath (getNodeParameter this itemIndex)))) ->
   snd (handleGetFileInfo this supabase itemIndex log)
   = Throw (Error "File not found")).
Proof.
  intros B F ->. apply isEmpty_false in B. apply isEmpty_false in F.
  unfold handleGetFileInfo, bind, require, lift, await, throwIfError, ret, throw.
  rewrite B, F. cbn [orb fst snd].
  match goal with
  | |- context [truthy (error ?x)] => set (r := x)
  end.
  destruct (truthy (error r)) eqn:E.
  - split; [reflexivity |]. split; [discriminate | discriminate].
  - destruct (optFind _ (data r)) as [fileInfo |] eqn:O; cbn [fst snd].
    + destruct (truthy fileInfo) eqn:T; cbn [negb fst snd].
      * split; [reflexivity |]. split.
        -- intros items [= <-].
           unfold optFind in O.
           destruct (data r) as [| | b | n | s | files | props] eqn:D;
             try discriminate O;
             try (injection O as <-; discriminate T).
           destruct (find_found _ _ O T) as [I N].
           exists files, fileInfo. eexists.
           split; [reflexivity |]. split; [exact I |].
           split; [reflexivity |]. split; [exact N |].
           intros U. destruct fileInfo as [| | b | n | s | items | props];
             try discriminate N.
           cbn [distinctKeys] in U. cbn [getProp] in N.
           unfold objectLiteral.
           cbn [json fold_left define getProp ownEnumerable].
           rewrite (@lookup_spread "name" props _ U).
           destruct (hasProperty "name" props) eqn:H; [exact N |].
           rewrite (lookup_absent _ _ H) in N. discriminate N.
        -- intros _ [D | (files & D & H)]; rewrite D in O; cbn [optFind] in O.
           ++ injection O as <-. discriminate T.
           ++ rewrite (find_missing _ H) in O. injection O as <-. discriminate T.
      * split; [reflexivity |]. split; [discriminate | reflexivity].
    + split; [reflexivity |]. split; [discriminate |].
      intros _ [D | (files & D & H)]; rewrite D in O; cbn [optFind] in O.
      * discriminate O.
      * rewrite (find_missing _ H) in O. discriminate O.
Qed.

(** X23 on a directory that holds another file only. *)
Lemma handleGetFileInfo_lookup_witness :
  snd (handleGetFileInfo (P := refPlatform) (R := sampleRuntime)
         (storageItem
            (storageParameters "docs" (OnePath "") "" "" "reports/q2.pdf"))
         (answering (JArr [reportFile])) 0 [])
  = Throw (Error "File not found").
Proof.
  refine (proj2 (proj2 (@handleGetFileInfo_lookup refPlatform sampleRuntime
                          (storageItem
                             (storageParameters "docs" (OnePath "") "" ""
                                                "reports/q2.pdf"))
                          (answering (JArr [reportFile])) 0 [] _ _ _ eq_refl))
                eq_refl _).
  - discriminate.
  - discriminate.
  - right. exists [reportFile]. split; [reflexivity |].
    intros file [<- | []]. repeat split; discriminate.
Defined.

(** ** The MIME types of a new bucket *)















